(** * Session lifecycle engine: admission, reconciliation and webhook ingress

    A shallow embedding of the Go sources of the session control plane:
    - [webhooks]    : components/operator/pkg/webhooks/session_validator.go
    - [controllers] : the Session and NamespacePolicy reconcilers
    - [handlers]    : the inbound webhook handler
    - [middleware]  : the API-key authentication of webhooks
    - [services]    : the backend SessionManager

    Kubernetes objects are handled by the code as
    [unstructured.Unstructured], that is as [map[string]interface{}] trees;
    they are modelled here by the type [value] with finite maps for
    objects.  Calls to the API server, the clock and the random sources
    are explicit arguments. *)

From Stdlib Require Import Ascii SpecFloat.
From stdpp Require Import gmap strings list fin_maps pretty.

Set Warnings "-register-all".
Set Default Proof Using "Type".

Open Scope Z_scope.
Open Scope string_scope.

(** ** Dynamic values: what an [interface{}] holds after JSON decoding *)

Inductive value : Type :=
  | VNull : value
  | VBool : bool -> value
  | VInt : Z -> value            (* int, int64 *)
  | VFloat : spec_float -> value (* float64 *)
  | VStr : string -> value
  | VList : list value -> value  (* []interface{} *)
  | VMap : gmap string value -> value. (* map[string]interface{} *)

(** [unstructured.Unstructured.Object] *)
Abbreviation object := (gmap string value).

(** Type assertions [x, ok := v.(T)]; the argument is the result of a map
    index, [None] standing for the missing key (a nil interface). *)
Definition asMap (v : option value) : option object :=
  match v with Some (VMap m) => Some m | _ => None end.

Definition asList (v : option value) : option (list value) :=
  match v with Some (VList l) => Some l | _ => None end.

Definition asString (v : option value) : option string :=
  match v with Some (VStr s) => Some s | _ => None end.

Definition asInt64 (v : option value) : option Z :=
  match v with Some (VInt z) => Some z | _ => None end.

(** [m, _ := v.(map[string]interface{})]: the zero value is the nil map,
    which reads as the empty map. *)
Definition mapOrNil (v : option value) : object := default ∅ (asMap v).

(** [s, _ := v.(string)] *)
Definition stringOrZero (v : option value) : string := default "" (asString v).

(** [unstructured.NestedString(obj, "metadata", field)] as used by the
    accessors [GetName] and [GetNamespace]: the empty string unless the
    path leads to a string. *)
Definition metaString (o : object) (field : string) : string :=
  match asMap (o !! "metadata") with
  | Some md => stringOrZero (md !! field)
  | None => ""
  end.

Definition GetName (o : object) : string := metaString o "name".
Definition GetNamespace (o : object) : string := metaString o "namespace".

(** The double quote character, as a string. *)
Definition dquote : string := String "034"%char "".

(** An [error] result of a function that may also abort on a failed
    unchecked type assertion [v.(string)]. *)
Inductive outcome (E : Type) : Type :=
  | Nil : outcome E
  | Failed : E -> outcome E
  | Panics : outcome E.
Arguments Nil {E}.
Arguments Failed {E} e.
Arguments Panics {E}.

(** [if err := c; err != nil { return err }; k] *)
Definition andThen {E : Type} (c k : outcome E) : outcome E :=
  match c with
  | Nil => k
  | Failed e => Failed e
  | Panics => Panics
  end.

Infix ">>-" := andThen (at level 62, right associativity).

(** The answer of a [Get] on the API server. *)
Inductive getResult : Type :=
  | Found : object -> getResult
  | NotFound : getResult
  | GetError : string -> getResult. (* any other error, with its text *)

(** The inner loop shared by the allow and block checks:
    [for _, x := range list { if requested.(string) == x.(string) {...} }].
    [None] is the panic of a failed assertion, [Some true] a match. *)
Fixpoint matchesAny (requested : value) (list : list value) : option bool :=
  match list with
  | [] => Some false
  | x :: rest =>
      match requested, x with
      | VStr r, VStr s => if decide (r = s) then Some true else matchesAny requested rest
      | _, _ => None
      end
  end.

(** ** The Session admission validator (package webhooks) *)

Module webhooks.

Inductive error : Type :=
  | SpecRequired
  | FrameworkRequired
  | FrameworkTypeRequired
  | UnsupportedFrameworkType (frameworkType : string)
  | NamespaceRequired
  | GetPolicyFailed (cause : string)
  | FrameworkBlocked (frameworkType : string)
  | FrameworkNotAllowed (frameworkType : string)
  | ModelNotAllowed (model : string)
  | ModelBlocked (model : string)
  | ToolNotAllowed (tool : string)
  | ToolBlocked (tool : string)
  | HistoryRemoved
  | HistoryShortened (old new : nat)
  | HistoryEntryRemoved (i : nat)
  | HistoryEntryModified (i : nat).

(** [admission.Response]; [Denied] carries the prefix of the message and
    the wrapped error.  [NoResponse] is a handler that panicked. *)
Inductive denial : Type :=
  | InvalidFrameworkType (e : error)
  | PolicyViolation (e : error)
  | HistoryModification (e : error).

Inductive Response : Type :=
  | Allowed
  | Denied (reason : denial)
  | Errored (code : Z)
  | NoResponse.

Definition StatusBadRequest : Z := 400.

(** [admission.Request].  [Object] and [OldObject] hold what the decoder
    returns on the raw payloads, [None] when it returns an error. *)
Record Request : Type := {
  Operation : string;
  Object : option object;
  OldObject : option object;
}.

Definition availableFrameworks : gmap string bool :=
  {[ "claude-code" := true; "custom-python" := true; "bash-runner" := true ]}.

Definition validateFrameworkType (session : object) : outcome error :=
  match asMap (session !! "spec") with
  | None => Failed SpecRequired
  | Some spec =>
      match asMap (spec !! "framework") with
      | None => Failed FrameworkRequired
      | Some framework =>
          match asString (framework !! "type") with
          | None => Failed FrameworkTypeRequired
          | Some frameworkType =>
              if default false (availableFrameworks !! frameworkType)
              then Nil
              else Failed (UnsupportedFrameworkType frameworkType)
          end
      end
  end.

(** [for _, blockedType := range blocked] *)
Fixpoint frameworkNotBlocked (blocked : list value) (frameworkType : string)
  : outcome error :=
  match blocked with
  | [] => Nil
  | VStr b :: rest =>
      if decide (b = frameworkType) then Failed (FrameworkBlocked frameworkType)
      else frameworkNotBlocked rest frameworkType
  | _ :: _ => Panics
  end.

(** [for _, allowedType := range allowed]: the final [isAllowed] *)
Fixpoint frameworkIsAllowed (allowed : list value) (frameworkType : string)
  : option bool :=
  match allowed with
  | [] => Some false
  | VStr a :: rest =>
      if decide (a = frameworkType) then Some true
      else frameworkIsAllowed rest frameworkType
  | _ :: _ => None
  end.

Definition validateFrameworkConstraints (sessionSpec policySpec : object)
  : outcome error :=
  match asMap (sessionSpec !! "framework") with
  | None => Nil
  | Some framework =>
      let frameworkType := stringOrZero (framework !! "type") in
      match asMap (policySpec !! "frameworks") with
      | None => Nil
      | Some frameworks =>
          match asList (frameworks !! "blocked") with
          | Some blocked => frameworkNotBlocked blocked frameworkType
          | None => Nil
          end >>-
          match asList (frameworks !! "allowed") with
          | Some allowed =>
              match frameworkIsAllowed allowed frameworkType with
              | None => Panics
              | Some true => Nil
              | Some false => Failed (FrameworkNotAllowed frameworkType)
              end
          | None => Nil
          end
      end
  end.

(** [for _, requested := range requestedList { found := ...;
     if !found { return fmt.Errorf(.., requested.(string)) } }] *)
Fixpoint allInAllowed (notAllowed : string -> error)
    (requestedList allowedList : list value) : outcome error :=
  match requestedList with
  | [] => Nil
  | requested :: rest =>
      match matchesAny requested allowedList with
      | None => Panics
      | Some true => allInAllowed notAllowed rest allowedList
      | Some false =>
          match requested with
          | VStr s => Failed (notAllowed s)
          | _ => Panics
          end
      end
  end.

(** [for _, requested := range requestedList {
     for _, b := range blockedList { if ... { return fmt.Errorf(..) } } }] *)
Fixpoint noneInBlocked (isBlocked : string -> error)
    (requestedList blockedList : list value) : outcome error :=
  match requestedList with
  | [] => Nil
  | requested :: rest =>
      match matchesAny requested blockedList with
      | None => Panics
      | Some true =>
          match requested with
          | VStr s => Failed (isBlocked s)
          | _ => Panics
          end
      | Some false => noneInBlocked isBlocked rest blockedList
      end
  end.

Definition validateModelConstraints (sessionSpec policySpec : object)
  : outcome error :=
  match asMap (sessionSpec !! "policy") with
  | None => Nil
  | Some sessionPolicy =>
  match asMap (sessionPolicy !! "modelConstraints") with
  | None => Nil
  | Some modelConstraints =>
  match asList (modelConstraints !! "allowed") with
  | None => Nil
  | Some requestedModels =>
  match asMap (policySpec !! "models") with
  | None => Nil
  | Some policyModels =>
      match asList (policyModels !! "allowed") with
      | Some allowedModels => allInAllowed ModelNotAllowed requestedModels allowedModels
      | None => Nil
      end >>-
      match asList (policyModels !! "blocked") with
      | Some blockedModels => noneInBlocked ModelBlocked requestedModels blockedModels
      | None => Nil
      end
  end end end end.

Definition validateToolConstraints (sessionSpec policySpec : object)
  : outcome error :=
  match asMap (sessionSpec !! "policy") with
  | None => Nil
  | Some sessionPolicy =>
  match asMap (sessionPolicy !! "toolConstraints") with
  | None => Nil
  | Some toolConstraints =>
  match asList (toolConstraints !! "allowed") with
  | None => Nil
  | Some requestedTools =>
  match asMap (policySpec !! "tools") with
  | None => Nil
  | Some policyTools =>
      match asList (policyTools !! "allowed") with
      | Some allowedTools => allInAllowed ToolNotAllowed requestedTools allowedTools
      | None => Nil
      end >>-
      match asList (policyTools !! "blocked") with
      | Some blockedTools => noneInBlocked ToolBlocked requestedTools blockedTools
      | None => Nil
      end
  end end end end.

Definition validateSessionAgainstPolicy (session policy : object)
  : outcome error :=
  let sessionSpec := mapOrNil (session !! "spec") in
  let policySpec := mapOrNil (policy !! "spec") in
  validateFrameworkConstraints sessionSpec policySpec >>-
  validateModelConstraints sessionSpec policySpec >>-
  validateToolConstraints sessionSpec policySpec.

Section Validator.

(** The dynamic client of the validator: [Get] of a NamespacePolicy by
    namespace and name. *)
Variable client : string -> string -> getResult.

(** [encoding/json.Marshal] on a decoded value. *)
Variable Marshal : value -> string.

Definition validateAgainstNamespacePolicy (session : object) : outcome error :=
  let namespace := GetNamespace session in
  if decide (namespace = "") then Failed NamespaceRequired
  else
    match client namespace "policy" with
    | NotFound => Nil
    | GetError msg => Failed (GetPolicyFailed msg)
    | Found policy => validateSessionAgainstPolicy session policy
    end.

Definition validateCreate (session : object) : Response :=
  match validateFrameworkType session with
  | Failed e => Denied (InvalidFrameworkType e)
  | Panics => NoResponse
  | Nil =>
      match validateAgainstNamespacePolicy session with
      | Failed e => Denied (PolicyViolation e)
      | Panics => NoResponse
      | Nil => Allowed
      end
  end.

(** [for i, oldEntry := range oldHistory], from index [i] on. *)
Fixpoint entriesUnmodified (i : nat) (oldEntries newHistory : list value)
  : outcome error :=
  match oldEntries with
  | [] => Nil
  | oldEntry :: rest =>
      match newHistory !! i with
      | None => Failed (HistoryEntryRemoved i)
      | Some newEntry =>
          if decide (Marshal oldEntry = Marshal newEntry)
          then entriesUnmodified (S i) rest newHistory
          else Failed (HistoryEntryModified i)
      end
  end.

Definition validateHistoryAppendOnly (oldSession newSession : object)
  : outcome error :=
  match asMap (oldSession !! "status") with
  | None => Nil
  | Some oldStatus =>
      let newStatus := mapOrNil (newSession !! "status") in
      match asList (oldStatus !! "history") with
      | None => Nil
      | Some oldHistory =>
          match asList (newStatus !! "history") with
          | None => Failed HistoryRemoved
          | Some newHistory =>
              if decide (length newHistory < length oldHistory)%nat
              then Failed (HistoryShortened (length oldHistory) (length newHistory))
              else entriesUnmodified 0 oldHistory newHistory
          end
      end
  end.

Definition validateUpdate (newSession : object) (req : Request) : Response :=
  match OldObject req with
  | None => Errored StatusBadRequest
  | Some oldSession =>
      match validateHistoryAppendOnly oldSession newSession with
      | Failed e => Denied (HistoryModification e)
      | Panics => NoResponse
      | Nil => Allowed
      end
  end.

Definition Handle (req : Request) : Response :=
  match Object req with
  | None => Errored StatusBadRequest
  | Some session =>
      if decide (Operation req = "CREATE") then validateCreate session
      else if decide (Operation req = "UPDATE") then validateUpdate session req
      else Allowed
  end.

End Validator.

End webhooks.

(** ** The reconcilers (package controllers) *)

Module controllers.

Definition PhasePending : string := "Pending".
Definition PhaseRunning : string := "Running".
Definition PhaseCompleted : string := "Completed".
Definition PhaseFailed : string := "Failed".

(** [ctrl.Result]; [RequeueAfter] in seconds. *)
Record Result : Type := { RequeueAfter : Z }.
Definition noRequeue : Result := {| RequeueAfter := 0 |}.

(** What [Reconcile] returns: a result, an error, or a panic that the
    controller runtime recovers. *)
Inductive returned : Type :=
  | Return (r : Result)
  | ReturnErr (msg : string)
  | Panicked.

(** The answer of [Create] on the API server. *)
Inductive createResult : Type :=
  | Created
  | AlreadyExists
  | CreateError (msg : string).

(** What the reconcilers see of the cluster.  The readings of the clock
    during one call are one formatted instant [now]; [fmtValue] is the
    rendering of a dynamic value by the verb [%s]. *)
Record Env : Type := {
  getPolicy : string -> string -> getResult;
  setControllerReference : object -> object -> option string;
  createJob : object -> createResult;
  getJob : string -> string -> getResult;
  statusUpdate : object -> option string;
  now : string;
  fmtValue : value -> string;
}.

(** The session held by a reconcile call and the last version of it
    accepted by [Status().Update]. *)
Record memory : Type := {
  session : object;
  written : option object;
}.

Definition StatusUpdate (env : Env) (obj : object) (m : memory)
  : memory * option string :=
  match statusUpdate env obj with
  | None => ({| session := obj; written := Some obj |}, None)
  | Some err => ({| session := obj; written := written m |}, Some err)
  end.

Module SessionReconciler.

Inductive error : Type :=
  | GetPolicyFailed (cause : string)
  | ModelNotAllowed (requested : value)
  | ToolNotAllowed (requested : value)
  | SetOwnerFailed (cause : string)
  | CreateJobFailed (cause : string).

Definition errorText (env : Env) (e : error) : string :=
  match e with
  | GetPolicyFailed cause => "failed to get namespace policy: " +:+ cause
  | ModelNotAllowed r =>
      "model " +:+ fmtValue env r +:+ " is not allowed by namespace policy"
  | ToolNotAllowed r =>
      "tool " +:+ fmtValue env r +:+ " is not allowed by namespace policy"
  | SetOwnerFailed cause => "failed to set owner reference: " +:+ cause
  | CreateJobFailed cause => "failed to create job: " +:+ cause
  end.

Definition getPhase (session : object) : string :=
  match asMap (session !! "status") with
  | None => PhasePending
  | Some status =>
      let phase := stringOrZero (status !! "phase") in
      if decide (phase = "") then PhasePending else phase
  end.

(** The placeholder of the budget check: it reads the policy budget,
    logs it and accepts. *)
Definition validateBudget (sessionSpec policySpec : object) : outcome error :=
  match asMap (policySpec !! "models") with
  | Some models =>
      match asMap (models !! "budget") with
      | Some budget => Nil
      | None => Nil
      end
  | None => Nil
  end.

(** [for _, requested := range requestedList { found := ...;
     if !found { return fmt.Errorf(.., requested) } }] *)
Fixpoint allInAllowed (notAllowed : value -> error)
    (requestedList allowedList : list value) : outcome error :=
  match requestedList with
  | [] => Nil
  | requested :: rest =>
      match matchesAny requested allowedList with
      | None => Panics
      | Some true => allInAllowed notAllowed rest allowedList
      | Some false => Failed (notAllowed requested)
      end
  end.

Definition validateModels (sessionSpec policySpec : object) : outcome error :=
  match asMap (sessionSpec !! "policy") with
  | None => Nil
  | Some sessionPolicy =>
  match asMap (sessionPolicy !! "modelConstraints") with
  | None => Nil
  | Some modelConstraints =>
  match asList (modelConstraints !! "allowed") with
  | None => Nil
  | Some requestedModels =>
      match asMap (policySpec !! "models") with
      | Some models =>
          match asList (models !! "allowed") with
          | Some allowed => allInAllowed ModelNotAllowed requestedModels allowed
          | None => Nil
          end
      | None => Nil
      end
  end end end.

Definition validateTools (sessionSpec policySpec : object) : outcome error :=
  match asMap (sessionSpec !! "policy") with
  | None => Nil
  | Some sessionPolicy =>
  match asMap (sessionPolicy !! "toolConstraints") with
  | None => Nil
  | Some toolConstraints =>
  match asList (toolConstraints !! "allowed") with
  | None => Nil
  | Some requestedTools =>
      match asMap (policySpec !! "tools") with
      | Some tools =>
          match asList (tools !! "allowed") with
          | Some allowed => allInAllowed ToolNotAllowed requestedTools allowed
          | None => Nil
          end
      | None => Nil
      end
  end end end.

Definition validatePolicy (env : Env) (session : object) : outcome error :=
  match getPolicy env (GetNamespace session) "policy" with
  | NotFound => Nil
  | GetError cause => Failed (GetPolicyFailed cause)
  | Found policy =>
      let sessionSpec := mapOrNil (session !! "spec") in
      let policySpec := mapOrNil (policy !! "spec") in
      validateBudget sessionSpec policySpec >>-
      validateModels sessionSpec policySpec >>-
      validateTools sessionSpec policySpec
  end.

Definition runnerImage (frameworkType : string) : string :=
  if decide (frameworkType = "claude-code")
  then "ambient-platform/claude-code-runner:latest"
  else if decide (frameworkType = "custom-python")
  then "ambient-platform/python-runner:latest"
  else if decide (frameworkType = "bash-runner")
  then "ambient-platform/bash-runner:latest"
  else "ambient-platform/claude-code-runner:latest".

Definition envVar (name val : string) : value :=
  VMap {[ "name" := VStr name; "value" := VStr val ]}.

Definition buildJob (session : object) (frameworkType : string) : object :=
  let jobName := GetName session +:+ "-runner" in
  {[ "apiVersion" := VStr "batch/v1";
     "kind" := VStr "Job";
     "metadata" := VMap
       {[ "name" := VStr jobName;
          "namespace" := VStr (GetNamespace session);
          "labels" := VMap
            {[ "ambient.ai/session-id" := VStr (GetName session);
               "ambient.ai/framework-type" := VStr frameworkType;
               "app.kubernetes.io/component" := VStr "runner" ]} ]};
     "spec" := VMap
       {[ "backoffLimit" := VInt 3;
          "template" := VMap
            {[ "metadata" := VMap
                 {[ "labels" := VMap
                      {[ "ambient.ai/session-id" := VStr (GetName session);
                         "ambient.ai/framework-type" := VStr frameworkType ]} ]};
               "spec" := VMap
                 {[ "restartPolicy" := VStr "OnFailure";
                    "containers" := VList
                      [ VMap
                          {[ "name" := VStr "runner";
                             "image" := VStr (runnerImage frameworkType);
                             "env" := VList
                               [ envVar "SESSION_NAME" (GetName session);
                                 envVar "SESSION_NAMESPACE" (GetNamespace session);
                                 VMap
                                   {[ "name" := VStr "ANTHROPIC_API_KEY";
                                      "valueFrom" := VMap
                                        {[ "secretKeyRef" := VMap
                                             {[ "name" := VStr "runner-secrets";
                                                "key" := VStr "anthropic-api-key" ]} ]} ]} ];
                             "resources" := VMap
                               {[ "requests" := VMap
                                    {[ "memory" := VStr "512Mi";
                                       "cpu" := VStr "500m" ]};
                                  "limits" := VMap
                                    {[ "memory" := VStr "2Gi";
                                       "cpu" := VStr "2000m" ]} ]} ]} ] ]} ]} ]} ]}.

(** The effect of a successful [controllerutil.SetControllerReference]:
    the owner becomes the controller reference of the job. *)
Definition withControllerReference (owner job : object) : object :=
  let ref :=
    VMap {[ "apiVersion" := VStr (stringOrZero (owner !! "apiVersion"));
            "kind" := VStr (stringOrZero (owner !! "kind"));
            "name" := VStr (GetName owner);
            "uid" := VStr (metaString owner "uid");
            "controller" := VBool true;
            "blockOwnerDeletion" := VBool true ]} in
  let metadata := mapOrNil (job !! "metadata") in
  <["metadata" := VMap (<["ownerReferences" := VList [ref]]> metadata)]> job.

Definition updateWorkloadInfo (env : Env) (m : memory) (jobName : string)
  : memory * option string :=
  let status := mapOrNil (session m !! "status") in
  let status :=
    <["workload" := VMap
        {[ "jobName" := VStr jobName;
           "podName" := VStr (jobName +:+ "-pod");
           "createdAt" := VStr (now env) ]}]> status in
  StatusUpdate env (<["status" := VMap status]> (session m)) m.

Definition createWorkload (env : Env) (m : memory) : memory * outcome error :=
  let spec := mapOrNil (session m !! "spec") in
  let framework := mapOrNil (spec !! "framework") in
  let frameworkType := stringOrZero (framework !! "type") in
  let job := buildJob (session m) frameworkType in
  match setControllerReference env (session m) job with
  | Some cause => (m, Failed (SetOwnerFailed cause))
  | None =>
      let job := withControllerReference (session m) job in
      match createJob env job with
      | CreateError cause => (m, Failed (CreateJobFailed cause))
      | Created | AlreadyExists =>
          (fst (updateWorkloadInfo env m (GetName job)), Nil)
      end
  end.

Inductive statusError : Type :=
  | NoJobName
  | GetJobFailed (cause : string).

(** [n, ok := v.(int64); ok && n > 0] *)
Definition positiveCount (v : option value) : bool :=
  match asInt64 v with
  | Some n => bool_decide (0 < n)
  | None => false
  end.

Definition checkWorkloadStatus (env : Env) (session : object)
  : string + statusError :=
  let status := mapOrNil (session !! "status") in
  let workload := mapOrNil (status !! "workload") in
  let jobName := stringOrZero (workload !! "jobName") in
  if decide (jobName = "") then inr NoJobName
  else
    match getJob env (GetNamespace session) jobName with
    | NotFound => inr (GetJobFailed "not found")
    | GetError cause => inr (GetJobFailed cause)
    | Found job =>
        match asMap (job !! "status") with
        | None => inl "Running"
        | Some jobStatus =>
            if positiveCount (jobStatus !! "succeeded")
            then inl "Completed"
            else if positiveCount (jobStatus !! "failed")
            then inl "Failed"
            else if positiveCount (jobStatus !! "active")
            then inl "Running"
            else inl "Unknown"
        end
    end.

Definition historyEntry (env : Env) (phase message : string) : value :=
  VMap {[ "timestamp" := VStr (now env);
          "event" := VStr ("PhaseChanged" +:+ phase);
          "data" := VMap {[ "phase" := VStr phase;
                            "message" := VStr message ]} ]}.

Definition phaseCondition (env : Env) (phase message : string) : value :=
  VMap {[ "type" := VStr ("Phase" +:+ phase);
          "status" := VStr "True";
          "lastTransitionTime" := VStr (now env);
          "reason" := VStr phase;
          "message" := VStr message ]}.

Definition updatePhase (env : Env) (m : memory) (phase message : string)
  : memory * returned :=
  let status := mapOrNil (session m !! "status") in
  let status := <["phase" := VStr phase]> status in
  let history := default [] (asList (status !! "history")) in
  let history := (history ++ [historyEntry env phase message])%list in
  let status := <["history" := VList history]> status in
  let conditions := default [] (asList (status !! "conditions")) in
  let conditions := (conditions ++ [phaseCondition env phase message])%list in
  let status := <["conditions" := VList conditions]> status in
  match StatusUpdate env (<["status" := VMap status]> (session m)) m with
  | (m', Some err) => (m', ReturnErr err)
  | (m', None) => (m', Return noRequeue)
  end.

Definition handlePending (env : Env) (m : memory) : memory * returned :=
  match validatePolicy env (session m) with
  | Panics => (m, Panicked)
  | Failed err =>
      updatePhase env m PhaseFailed
        ("Policy validation failed: " +:+ errorText env err)
  | Nil =>
      match createWorkload env m with
      | (m', Panics) => (m', Panicked)
      | (m', Failed err) =>
          updatePhase env m' PhaseFailed
            ("Workload creation failed: " +:+ errorText env err)
      | (m', Nil) =>
          updatePhase env m' PhaseRunning "Workload created successfully"
      end
  end.

Definition handleRunning (env : Env) (m : memory) : memory * returned :=
  match checkWorkloadStatus env (session m) with
  | inr _ => (m, Return {| RequeueAfter := 10 |})
  | inl workloadStatus =>
      if decide (workloadStatus = "Completed")
      then updatePhase env m PhaseCompleted "Session completed successfully"
      else if decide (workloadStatus = "Failed")
      then updatePhase env m PhaseFailed "Workload execution failed"
      else if decide (workloadStatus = "Running")
      then (m, Return {| RequeueAfter := 30 |})
      else (m, Return {| RequeueAfter := 10 |})
  end.

(** [Reconcile] on the answer [fetched] of [r.Get] for the requested
    session.  The second component is the version of the session left
    on the API server when the call wrote one. *)
Definition Reconcile (env : Env) (fetched : getResult)
  : returned * option object :=
  match fetched with
  | NotFound => (Return noRequeue, None)
  | GetError err => (ReturnErr err, None)
  | Found session =>
      let m := {| session := session; written := None |} in
      let phase := getPhase session in
      let '(m', r) :=
        if decide (phase = PhasePending) then handlePending env m
        else if decide (phase = PhaseRunning) then handleRunning env m
        else if decide (phase = PhaseCompleted ∨ phase = PhaseFailed)
        then (m, Return noRequeue)
        else updatePhase env m PhasePending
               "Unknown phase detected, resetting to Pending" in
      (r, written m')
  end.

End SessionReconciler.

Module PolicyReconciler.

Inductive error : Type :=
  | ModelBlocked (model : string)
  | ModelNotInAllowed (model : string)
  | ToolBlocked (tool : string)
  | ToolNotInAllowed (tool : string).

(** [err.Error()] *)
Definition errorText (e : error) : string :=
  match e with
  | ModelBlocked s => "model '" +:+ s +:+ "' is blocked by policy"
  | ModelNotInAllowed s => "model '" +:+ s +:+ "' is not in allowed list"
  | ToolBlocked s => "tool '" +:+ s +:+ "' is blocked by policy"
  | ToolNotInAllowed s => "tool '" +:+ s +:+ "' is not in allowed list"
  end.

Definition getInterfaceSlice (m : object) (key : string) : list value :=
  default [] (asList (m !! key)).

(** [for _, requested := range requestedList { requestedStr :=
     requested.(string); ... }]: first the blocked list, then the
    allowed list when it has an element. *)
Fixpoint eachRequested (isBlocked notInAllowed : string -> error)
    (requestedList allowed blocked : list value) : outcome error :=
  match requestedList with
  | [] => Nil
  | requested :: rest =>
      match requested with
      | VStr requestedStr =>
          match matchesAny requested blocked with
          | None => Panics
          | Some true => Failed (isBlocked requestedStr)
          | Some false =>
              if decide (0 < length allowed)%nat then
                match matchesAny requested allowed with
                | None => Panics
                | Some true =>
                    eachRequested isBlocked notInAllowed rest allowed blocked
                | Some false => Failed (notInAllowed requestedStr)
                end
              else eachRequested isBlocked notInAllowed rest allowed blocked
          end
      | _ => Panics
      end
  end.

Definition checkModelAllowed (requestedModels : list value)
    (policySpec : object) : outcome error :=
  match asMap (policySpec !! "models") with
  | Some models =>
      eachRequested ModelBlocked ModelNotInAllowed requestedModels
        (getInterfaceSlice models "allowed") (getInterfaceSlice models "blocked")
  | None => Nil
  end.

Definition checkToolsAllowed (requestedTools : list value)
    (policySpec : object) : outcome error :=
  match asMap (policySpec !! "tools") with
  | Some tools =>
      eachRequested ToolBlocked ToolNotInAllowed requestedTools
        (getInterfaceSlice tools "allowed") (getInterfaceSlice tools "blocked")
  | None => Nil
  end.

(** The list [spec.policy.<constraints>.allowed] of a session, when
    each step of the path has the asserted type. *)
Definition requestedOf (sessionSpec : object) (constraints : string)
  : option (list value) :=
  match asMap (sessionSpec !! "policy") with
  | Some sessionPolicy =>
      match asMap (sessionPolicy !! constraints) with
      | Some c => asList (c !! "allowed")
      | None => None
      end
  | None => None
  end.

Definition checkSessionViolation (session policy : object) : outcome error :=
  let sessionSpec := mapOrNil (session !! "spec") in
  let policySpec := mapOrNil (policy !! "spec") in
  match requestedOf sessionSpec "modelConstraints" with
  | Some allowed => checkModelAllowed allowed policySpec
  | None => Nil
  end >>-
  match requestedOf sessionSpec "toolConstraints" with
  | Some allowed => checkToolsAllowed allowed policySpec
  | None => Nil
  end.

Definition violationEntry (env : Env) (violation : string) : value :=
  VMap {[ "timestamp" := VStr (now env);
          "event" := VStr "PolicyViolation";
          "data" := VMap {[ "reason" := VStr violation ]} ]}.

(** The version of the session accepted by the API server, when the
    call wrote one. *)
Definition markSessionViolation (env : Env) (session : object)
    (violation : string) : option object :=
  let status := mapOrNil (session !! "status") in
  let phase := stringOrZero (status !! "phase") in
  if decide (phase ≠ "Completed" ∧ phase ≠ "Failed") then
    let status := <["phase" := VStr "Failed"]> status in
    let status := <["violationReason" := VStr violation]> status in
    let history := default [] (asList (status !! "history")) in
    let history := (history ++ [violationEntry env violation])%list in
    let status := <["history" := VList history]> status in
    written (fst (StatusUpdate env (<["status" := VMap status]> session)
                    {| session := session; written := None |}))
  else None.

(** The loop of [checkPolicyViolations] over the listed sessions: each
    session visited, with the version written for it if any, and
    whether the loop ended in a panic. *)
Fixpoint markViolations (env : Env) (policy : object) (items : list object)
  : list (object * option object) * bool :=
  match items with
  | [] => ([], false)
  | session :: rest =>
      match checkSessionViolation session policy with
      | Panics => ([], true)
      | Nil =>
          let '(done, panicked) := markViolations env policy rest in
          ((session, None) :: done, panicked)
      | Failed violation =>
          let w := markSessionViolation env session (errorText violation) in
          let '(done, panicked) := markViolations env policy rest in
          ((session, w) :: done, panicked)
      end
  end.

(** [checkPolicyViolations] on the answer of listing the sessions of
    the namespace of the policy; its writes to sessions. *)
Definition checkPolicyViolations (env : Env) (policy : object)
    (listed : string + list object) : list (object * option object) * returned :=
  match listed with
  | inl cause => ([], ReturnErr ("failed to list sessions: " +:+ cause))
  | inr items =>
      let '(done, panicked) := markViolations env policy items in
      (done, if panicked then Panicked else Return noRequeue)
  end.

End PolicyReconciler.

End controllers.

(** ** The inbound webhook handler (package handlers) *)

Module handlers.

Record WebhookResponse : Type := {
  SessionID : string;
  Namespace : string;
  Status : string;
  EstimatedStartTime : string;
}.

Record ErrorResponse : Type := {
  Error : string;
  Message : string;
  TraceID : string;
}.

Inductive body : Type :=
  | Rejected (e : ErrorResponse)
  | Accepted (w : WebhookResponse).

(** [c.JSON(code, body)] *)
Record reply : Type := { code : Z; payload : body }.

Definition StatusAccepted : Z := 202.
Definition StatusBadRequest : Z := 400.
Definition StatusUnauthorized : Z := 401.
Definition StatusForbidden : Z := 403.
Definition StatusTooManyRequests : Z := 429.
Definition StatusInternalServerError : Z := 500.

(** The request as the handler reads it: the value of the header
    [X-API-Key] (empty when the header is absent) and the result of
    binding the body to a [map[string]interface{}]: [None] when binding
    fails, and otherwise the map, which is nil ([Some None]) when the
    body is the JSON [null]. *)
Record request : Type := {
  apiKeyHeader : string;
  jsonBody : option (option object);
}.

(** Reading a key of a map that may be nil, and the JSON form of such a
    map: a nil map has no key and is submitted as [null]. *)
Definition index (payload : option object) (key : string) : option value :=
  default ∅ payload !! key.

Definition mapJSON (payload : option object) : value :=
  match payload with
  | None => VNull
  | Some m => VMap m
  end.

(** The random and clock readings of one call, and the dynamic client:
    [None] is the nil client of the tests; otherwise the answer of
    [Create] in a namespace, the created object or an error. *)
Record Env : Type := {
  traceID : string;
  newUUID : string;
  createdAt : string;
  estimatedStart : string;
  dynamicClient : option (string -> object -> option object);
}.

Definition keyToNamespace : gmap string string :=
  {[ "test-api-key-123" := "team-alpha";
     "test-api-key-456" := "team-alpha";
     "test-slack-key-789" := "team-alpha";
     "budget-exceeded-key" := "team-beta";
     "rate-limited-key" := "team-gamma" ]}.

(** The namespace, or the text of the error. *)
Definition resolveNamespace (apiKey : string) : string + string :=
  match keyToNamespace !! apiKey with
  | Some namespace => inl namespace
  | None => inr "invalid_api_key"
  end.

Definition validateNamespacePolicy (namespace source : string) : option string :=
  if decide (namespace = "team-beta") then Some "budget_exceeded"
  else if decide (namespace = "team-gamma") then Some "rate_limit_exceeded"
  else None.

Definition determineEventType (source : string) (payload : option object)
  : string :=
  if decide (source = "github") then
    match asString (index payload "action") with
    | Some action => "pull_request_" +:+ action
    | None => "unknown"
    end
  else if decide (source = "jira") then
    match asString (index payload "webhookEvent") with
    | Some event => event
    | None => "unknown"
    end
  else if decide (source = "slack") then
    match asString (index payload "type") with
    | Some msgType => msgType
    | None => "message"
    end
  else "unknown".

Definition determineFrameworkType (source : string) (payload : option object)
  : string :=
  "claude-code".

Definition createSessionFromWebhook (env : Env)
    (sessionID namespace source : string) (payload : option object) : object :=
  let eventType := determineEventType source payload in
  let frameworkType := determineFrameworkType source payload in
  {[ "apiVersion" := VStr "ambient.ai/v1alpha1";
     "kind" := VStr "Session";
     "metadata" := VMap
       {[ "name" := VStr sessionID;
          "namespace" := VStr namespace;
          "labels" := VMap
            {[ "ambient.ai/trigger-source" := VStr source;
               "ambient.ai/framework-type" := VStr frameworkType ]};
          "annotations" := VMap
            {[ "ambient.ai/created-by" := VStr "webhook-handler";
               "ambient.ai/created-at" := VStr (createdAt env) ]} ]};
     "spec" := VMap
       {[ "trigger" := VMap
            {[ "source" := VStr source;
               "event" := VStr eventType;
               "payload" := mapJSON payload ]};
          "framework" := VMap
            {[ "type" := VStr frameworkType;
               "version" := VStr "1.0";
               "config" := VMap ∅ ]};
          "policy" := VMap
            {[ "modelConstraints" := VMap
                 {[ "allowed" := VList [VStr "claude-3-sonnet"];
                    "budget" := VStr "100.00" ]};
               "toolConstraints" := VMap
                 {[ "allowed" :=
                      VList [VStr "bash"; VStr "edit"; VStr "read"; VStr "write"] ]};
               "approvalRequired" := VBool false ]} ]} ]}.

Definition errorReply (env : Env) (status : Z) (err message : string) : reply :=
  {| code := status;
     payload := Rejected {| Error := err; Message := message;
                            TraceID := traceID env |} |}.

Definition acceptedReply (env : Env) (sessionID namespace : string) : reply :=
  {| code := StatusAccepted;
     payload := Accepted {| SessionID := sessionID; Namespace := namespace;
                            Status := "accepted";
                            EstimatedStartTime := estimatedStart env |} |}.

(** The reply, and the Session created on the API server, with the
    namespace it was created in, when the call created one. *)
Definition handleWebhook (env : Env) (req : request) (source : string)
  : reply * option (string * object) :=
  let apiKey := apiKeyHeader req in
  if decide (apiKey = "") then
    (errorReply env StatusBadRequest "missing_api_key"
       "X-API-Key header is required", None)
  else
    match resolveNamespace apiKey with
    | inr err =>
        if decide (err = "invalid_api_key") then
          (errorReply env StatusUnauthorized "invalid_api_key"
             "API key is invalid or expired", None)
        else
          (errorReply env StatusInternalServerError "namespace_resolution_failed"
             "Failed to resolve namespace", None)
    | inl namespace =>
        match jsonBody req with
        | None =>
            (errorReply env StatusBadRequest "invalid_payload"
               "Request body must be valid JSON", None)
        | Some payload =>
            match validateNamespacePolicy namespace source with
            | Some err =>
                if decide (err = "budget_exceeded") then
                  (errorReply env StatusForbidden "policy_violation"
                     "Session creation would exceed namespace budget", None)
                else if decide (err = "rate_limit_exceeded") then
                  (errorReply env StatusTooManyRequests "rate_limit_exceeded"
                     "Maximum sessions per minute exceeded", None)
                else
                  (errorReply env StatusForbidden "policy_violation" err, None)
            | None =>
                let sessionID := newUUID env in
                match dynamicClient env with
                | None => (acceptedReply env sessionID namespace, None)
                | Some create =>
                    let session :=
                      createSessionFromWebhook env sessionID namespace source payload in
                    match create namespace session with
                    | None =>
                        (errorReply env StatusInternalServerError
                           "session_creation_failed" "Failed to create session", None)
                    | Some createdSession =>
                        (acceptedReply env (GetName createdSession) namespace,
                         Some (namespace, session))
                    end
                end
            end
        end
    end.

Definition HandleGitHubWebhook (env : Env) (req : request) :=
  handleWebhook env req "github".
Definition HandleJiraWebhook (env : Env) (req : request) :=
  handleWebhook env req "jira".
Definition HandleSlackWebhook (env : Env) (req : request) :=
  handleWebhook env req "slack".

End handlers.

(** ** The API-key authentication of webhooks (package middleware) *)

Module middleware.

(** [c.JSON(code, gin.H{"error": message})] followed by [c.Abort()]:
    the handlers behind the middleware are not called. *)
Record aborted : Type := { code : Z; error : string }.

Definition StatusUnauthorized : Z := 401.


(** The loop of [SimpleAPIKeyAuth] over the valid keys, which are given
    as the entries of the map in the order in which the range visits
    them: source and key. *)
Fixpoint authenticatedSource (apiKey : string) (validKeys : list (string * string))
  : string :=
  match validKeys with
  | [] => ""
  | (source, validKey) :: rest =>
      if decide (apiKey = validKey) then source
      else authenticatedSource apiKey rest
  end.

(** The reply with which the request is aborted, or the source stored in
    the context under [authenticated_source] before [c.Next()]. *)
Definition SimpleAPIKeyAuth (validKeys : list (string * string)) (apiKey : string)
  : aborted + string :=
  if decide (apiKey = "") then
    inl {| code := StatusUnauthorized; error := "API key required" |}
  else
    let source := authenticatedSource apiKey validKeys in
    if decide (source = "") then
      inl {| code := StatusUnauthorized; error := "Invalid API key" |}
    else inr source.

End middleware.

(** ** The backend session manager (package services) *)

Module services.

Record TriggerInfo : Type := {
  Source : string;
  Event : string;
  Payload : option object; (* a nil map is [None] *)
}.

Record FrameworkInfo : Type := {
  Type_ : string;
  Version : string;
  Config : option object;
}.

(** Slices are [None] when nil. *)
Record PolicyInfo : Type := {
  ModelAllowed : option (list string);
  ModelBudget : string;
  ToolAllowed : option (list string);
  ToolBlocked : option (list string);
  ApprovalRequired : bool;
}.

Record SessionSpec : Type := {
  Trigger : TriggerInfo;
  Framework : FrameworkInfo;
  Policy : PolicyInfo;
}.

(** The structs are placed in the unstructured object as they are; the
    dynamic client submits their JSON form, following the field tags. *)
Definition stringsJSON (l : option (list string)) : value :=
  match l with
  | None => VNull
  | Some l => VList (VStr <$> l)
  end.

Definition mapJSON (m : option object) : value :=
  match m with
  | None => VNull
  | Some m => VMap m
  end.

Definition isEmptyMap (m : option object) : bool :=
  match m with
  | None => true
  | Some m => bool_decide (m = ∅)
  end.

Definition triggerJSON (t : TriggerInfo) : value :=
  VMap {[ "source" := VStr (Source t);
          "event" := VStr (Event t);
          "payload" := mapJSON (Payload t) ]}.

Definition frameworkJSON (f : FrameworkInfo) : value :=
  let base : object :=
    {[ "type" := VStr (Type_ f); "version" := VStr (Version f) ]} in
  VMap (if isEmptyMap (Config f) then base
        else <["config" := mapJSON (Config f)]> base).

Definition policyJSON (p : PolicyInfo) : value :=
  let tools : object := {[ "allowed" := stringsJSON (ToolAllowed p) ]} in
  let tools :=
    match ToolBlocked p with
    | None | Some [] => tools
    | Some _ => <["blocked" := stringsJSON (ToolBlocked p)]> tools
    end in
  let base : object :=
    {[ "modelConstraints" := VMap
         {[ "allowed" := stringsJSON (ModelAllowed p);
            "budget" := VStr (ModelBudget p) ]};
       "toolConstraints" := VMap tools ]} in
  VMap (if ApprovalRequired p then <["approvalRequired" := VBool true]> base
        else base).

(** Instants are nanoseconds since the Unix epoch; [Time.Unix] is the
    number of whole seconds. *)
Definition Unix (t : Z) : Z := t `div` 1000000000.

Definition generateSessionID (t : Z) : string :=
  "session-" +:+ pretty (Unix t).

(** The declarative store behind the dynamic client, as far as [Create]
    goes: resources are keyed by namespace and name.  The API server
    runs admission ([admission]) before it stores the object: a create
    that admission rejects is answered with the error of admission, and
    an admitted create on an existing key with the error of the store.
    Failures of the transport are not part of the model. *)
Abbreviation store := (gmap (string * string) object).

Definition Create (admission : object -> option string) (st : store)
    (namespace : string) (obj : object) : store * (string + object) :=
  match admission obj with
  | Some err => (st, inl err)
  | None =>
      match st !! (namespace, GetName obj) with
      | Some _ =>
          (st, inl ("sessions.ambient.ai " +:+ dquote +:+ GetName obj +:+ dquote
                    +:+ " already exists"))
      | None => (<[(namespace, GetName obj) := obj]> st, inr obj)
      end
  end.

Definition sessionObject (sessionID namespace : string) (spec : SessionSpec)
  : object :=
  let specMap : object :=
    {[ "trigger" := triggerJSON (Trigger spec);
       "framework" := frameworkJSON (Framework spec) ]} in
  let specMap :=
    if bool_decide (ModelAllowed (Policy spec) ≠ None ∨ ToolAllowed (Policy spec) ≠ None)
    then <["policy" := policyJSON (Policy spec)]> specMap
    else specMap in
  {[ "apiVersion" := VStr "ambient.ai/v1alpha1";
     "kind" := VStr "Session";
     "metadata" := VMap
       {[ "name" := VStr sessionID;
          "namespace" := VStr namespace;
          "labels" := VMap
            {[ "ambient.ai/framework" := VStr (Type_ (Framework spec));
               "ambient.ai/source" := VStr (Source (Trigger spec)) ]} ]};
     "spec" := VMap specMap ]}.

(** [CreateSession] at the instant [t], up to the answer of [Create]:
    the store after the call, and the error with which [CreateSession]
    returns or the object that the API server created.  In the second
    case the Go function goes on to [convertToSession], which reads the
    created object into a [Session] struct and can still return an
    error; that step changes nothing in the store and is not part of
    the model, so [inr] says that the session was created, not that the
    caller received it. *)
Definition CreateSession (admission : object -> option string) (t : Z)
    (st : store) (spec : SessionSpec) (namespace : string)
  : store * (string + object) :=
  let sessionID := generateSessionID t in
  let sessionObj := sessionObject sessionID namespace spec in
  match Create admission st namespace sessionObj with
  | (st', inl err) => (st', inl ("failed to create session: " +:+ err))
  | (st', inr createdSession) => (st', inr createdSession)
  end.

End services.

(** ** A JSON encoder for the examples

    The validator is parametrised by [encoding/json.Marshal]; the
    examples below instantiate it with this compact encoder: object keys
    in increasing order, strings quoted with the quote and the backslash
    escaped, integers in decimal, floats by mantissa and binary exponent. *)

Module json.

Fixpoint escape (s : string) : string :=
  match s with
  | EmptyString => EmptyString
  | String c rest =>
      if Ascii.eqb c "034"%char then String "\"%char (String c (escape rest))
      else if Ascii.eqb c "\"%char then String c (String c (escape rest))
      else String c (escape rest)
  end.

Definition quoted (s : string) : string := dquote +:+ escape s +:+ dquote.

Fixpoint insertSorted (key encoded : string) (fields : list (string * string))
  : list (string * string) :=
  match fields with
  | [] => [(key, encoded)]
  | (k, e) :: rest =>
      if String.leb key k then (key, encoded) :: fields
      else (k, e) :: insertSorted key encoded rest
  end.

Definition float (f : spec_float) : string :=
  match f with
  | S754_zero s => if s then "-0" else "0"
  | S754_infinity s => if s then "-Inf" else "+Inf"
  | S754_nan => "NaN"
  | S754_finite s m e =>
      (if s then "-" else "") +:+ pretty (Z.pos m) +:+ "p" +:+ pretty e
  end.

Fixpoint Marshal (v : value) : string :=
  match v with
  | VNull => "null"
  | VBool b => if b then "true" else "false"
  | VInt z => pretty z
  | VFloat f => float f
  | VStr s => quoted s
  | VList l => "[" +:+ String.concat "," (map Marshal l) +:+ "]"
  | VMap m =>
      let fields :=
        map_fold (λ k x acc, insertSorted k (Marshal x) acc) [] m in
      "{" +:+ String.concat "," ((λ p, quoted p.1 +:+ ":" +:+ p.2) <$> fields)
      +:+ "}"
  end.

End json.

(** ** Paging of session lists (SessionManager.applyPagination) *)

Module SessionManager.

(** [int] arithmetic wraps around at 64 bits. *)
Definition wrap64 (z : Z) : Z := (z + 2 ^ 63) `mod` 2 ^ 64 - 2 ^ 63.

Record SessionListOptions : Type := {
  Status : string;
  Framework : string;
  Limit : Z;
  Offset : Z;
  SortBy : string;
  SortOrder : string;
  Labels : option (gmap string string);
}.

(** The slice expression [s[a:b]] on a slice whose capacity is its
    length: [None] is the panic on bounds out of range. *)
Definition slice {A : Type} (s : list A) (a b : Z) : option (list A) :=
  if decide (0 ≤ a ∧ a ≤ b ∧ b ≤ Z.of_nat (List.length s))%Z
  then Some (take (Z.to_nat (b - a)) (drop (Z.to_nat a) s))
  else None.

Definition applyPagination {A : Type} (sessions : list A)
    (options : SessionListOptions) : option (list A) :=
  if decide (Limit options ≤ 0)%Z then Some sessions
  else
    let start := Offset options in
    if decide (Z.of_nat (List.length sessions) ≤ start)%Z then Some []
    else
      let end_ := wrap64 (start + Limit options) in
      let end_ :=
        if decide (Z.of_nat (List.length sessions) < end_)%Z
        then Z.of_nat (List.length sessions) else end_ in
      slice sessions start end_.

(** [applySorting] returns its argument. *)
Definition applySorting {A : Type} (sessions : list A)
    (options : SessionListOptions) : list A := sessions.

End SessionManager.

(** ** Nested accessors of unstructured objects

    The helpers of [k8s.io/apimachinery] that the status package uses,
    on paths of keys.  A [VNull] is the nil interface. *)

Module unstructured.

(** What an accessor returns: the value found, nothing found, or an
    error. *)
Inductive nested (A : Type) : Type :=
  | Got (a : A)
  | Missing
  | Mistyped.
Arguments Got {A} a.
Arguments Missing {A}.
Arguments Mistyped {A}.

(** [NestedFieldNoCopy]: walks the path through maps; a nil value on the
    way counts as nothing found, any other value that is not a map is an
    error. *)
Fixpoint NestedFieldNoCopy (val : value) (fields : list string) : nested value :=
  match fields with
  | [] => Got val
  | field :: rest =>
      match val with
      | VNull => Missing
      | VMap m =>
          match m !! field with
          | Some v => NestedFieldNoCopy v rest
          | None => Missing
          end
      | _ => Mistyped
      end
  end.

Definition NestedString (obj : object) (fields : list string) : nested string :=
  match NestedFieldNoCopy (VMap obj) fields with
  | Got (VStr s) => Got s
  | Got _ => Mistyped
  | Missing => Missing
  | Mistyped => Mistyped
  end.

Definition NestedSlice (obj : object) (fields : list string)
  : nested (list value) :=
  match NestedFieldNoCopy (VMap obj) fields with
  | Got (VList l) => Got l
  | Got _ => Mistyped
  | Missing => Missing
  | Mistyped => Mistyped
  end.

(** [SetNestedField]: creates the maps that are missing on the way and
    fails, before it changes anything, on a value on the way that is not
    a map.  No caller passes the empty path, on which the code aborts. *)
Fixpoint SetNestedField (obj : object) (val : value) (fields : list string)
  : option object :=
  match fields with
  | [] => None
  | [field] => Some (<[field := val]> obj)
  | field :: rest =>
      match obj !! field with
      | Some (VMap m) =>
          match SetNestedField m val rest with
          | Some m' => Some (<[field := VMap m']> obj)
          | None => None
          end
      | Some _ => None
      | None =>
          match SetNestedField ∅ val rest with
          | Some m' => Some (<[field := VMap m']> obj)
          | None => None
          end
      end
  end.

Definition SetNestedSlice (obj : object) (val : list value)
    (fields : list string) : option object :=
  SetNestedField obj (VList val) fields.

End unstructured.

(** ** The status updater (package status) *)

Module status.

Definition SessionPhasePending : string := "Pending".
Definition SessionPhaseRunning : string := "Running".
Definition SessionPhaseCompleted : string := "Completed".
Definition SessionPhaseFailed : string := "Failed".

Definition ConditionPolicyValidated : string := "PolicyValidated".
Definition ConditionWorkloadCreated : string := "WorkloadCreated".
Definition ConditionWorkloadRunning : string := "WorkloadRunning".
Definition ConditionArtifactsStored : string := "ArtifactsStored".

Definition ConditionTrue : string := "True".
Definition ConditionFalse : string := "False".
Definition ConditionUnknown : string := "Unknown".

Record Condition : Type := {
  Type_ : string;
  Status : string;
  LastTransitionTime : string;
  Reason : string;
  Message : string;
}.

Record HistoryEvent : Type := {
  Timestamp : string;
  Event : string;
  Data : option object; (* a nil map is [None] *)
}.

Inductive error : Type :=
  | SetPhaseFailed
  | GetHistoryFailed
  | SetHistoryFailed
  | AddHistoryEventFailed (cause : error)
  | GetConditionsFailed
  | SetConditionsFailed
  | GetPhaseFailed
  | UpdateFailed (cause : string).

(** [l, found, err := unstructured.NestedSlice(..);
     if err != nil { return .. }; if !found { l = []interface{}{} }]:
    the list read, [None] on the error. *)
Definition sliceOrEmpty (r : unstructured.nested (list value))
  : option (list value) :=
  match r with
  | unstructured.Got l => Some l
  | unstructured.Missing => Some []
  | unstructured.Mistyped => None
  end.

(** [addHistoryEvent]: the session with the event appended to
    [status.history], or the error. *)
Definition addHistoryEvent (session : object) (event : HistoryEvent)
  : object + error :=
  match sliceOrEmpty (unstructured.NestedSlice session ["status"; "history"]) with
  | None => inr GetHistoryFailed
  | Some history =>
      let eventMap : object :=
        {[ "timestamp" := VStr (Timestamp event); "event" := VStr (Event event) ]} in
      let eventMap :=
        match Data event with
        | Some data =>
            if decide (data = ∅) then eventMap
            else <["data" := VMap data]> eventMap
        | None => eventMap
        end in
      match unstructured.SetNestedSlice session
              (history ++ [VMap eventMap])%list ["status"; "history"] with
      | Some session' => inl session'
      | None => inr SetHistoryFailed
      end
  end.

(** The in-memory session after the call, with the last version accepted
    by [Status().Update], and the error returned if any. *)
Definition UpdatePhase (env : controllers.Env) (m : controllers.memory)
    (phase reason message : string) : controllers.memory * option error :=
  match unstructured.SetNestedField (controllers.session m) (VStr phase)
          ["status"; "phase"] with
  | None => (m, Some SetPhaseFailed)
  | Some session1 =>
      let m1 := {| controllers.session := session1;
                   controllers.written := controllers.written m |} in
      let event :=
        {| Timestamp := controllers.now env;
           Event := "PhaseChanged:" +:+ phase;
           Data := Some {[ "phase" := VStr phase;
                           "reason" := VStr reason;
                           "message" := VStr message ]} |} in
      match addHistoryEvent session1 event with
      | inr err => (m1, Some (AddHistoryEventFailed err))
      | inl session2 =>
          match controllers.StatusUpdate env session2 m1 with
          | (m2, Some cause) => (m2, Some (UpdateFailed cause))
          | (m2, None) => (m2, None)
          end
      end
  end.

(** [condType, exists := condMap["type"];
     exists && condType == string(conditionType)] *)
Definition hasType (condMap : object) (conditionType : string) : bool :=
  match condMap !! "type" with
  | Some (VStr t) => bool_decide (t = conditionType)
  | _ => false
  end.

(** The loop of [UpdateCondition]: the first condition of the type is
    overwritten; [None] when there is none ([updated] stays false). *)
Fixpoint updateFirst (conditions : list value) (c : Condition)
  : option (list value) :=
  match conditions with
  | [] => None
  | VMap condMap :: rest =>
      if hasType condMap (Type_ c) then
        Some (VMap (<["message" := VStr (Message c)]>
                   (<["reason" := VStr (Reason c)]>
                   (<["lastTransitionTime" := VStr (LastTransitionTime c)]>
                   (<["status" := VStr (Status c)]> condMap)))) :: rest)
      else option_map (cons (VMap condMap)) (updateFirst rest c)
  | cond :: rest => option_map (cons cond) (updateFirst rest c)
  end.

Definition conditionMap (c : Condition) : value :=
  VMap {[ "type" := VStr (Type_ c);
          "status" := VStr (Status c);
          "lastTransitionTime" := VStr (LastTransitionTime c);
          "reason" := VStr (Reason c);
          "message" := VStr (Message c) ]}.

Definition UpdateCondition (env : controllers.Env) (m : controllers.memory)
    (conditionType conditionStatus reason message : string)
  : controllers.memory * option error :=
  let condition :=
    {| Type_ := conditionType; Status := conditionStatus;
       LastTransitionTime := controllers.now env;
       Reason := reason; Message := message |} in
  match sliceOrEmpty (unstructured.NestedSlice (controllers.session m)
                        ["status"; "conditions"]) with
  | None => (m, Some GetConditionsFailed)
  | Some conditions =>
      let conditions :=
        match updateFirst conditions condition with
        | Some updated => updated
        | None => (conditions ++ [conditionMap condition])%list
        end in
      match unstructured.SetNestedSlice (controllers.session m) conditions
              ["status"; "conditions"] with
      | None => (m, Some SetConditionsFailed)
      | Some session1 =>
          let m1 := {| controllers.session := session1;
                       controllers.written := controllers.written m |} in
          let event :=
            {| Timestamp := controllers.now env;
               Event := "ConditionChanged:" +:+ conditionType;
               Data := Some {[ "type" := VStr conditionType;
                               "status" := VStr conditionStatus;
                               "reason" := VStr reason;
                               "message" := VStr message ]} |} in
          match addHistoryEvent session1 event with
          | inr err => (m1, Some (AddHistoryEventFailed err))
          | inl session2 =>
              match controllers.StatusUpdate env session2 m1 with
              | (m2, Some cause) => (m2, Some (UpdateFailed cause))
              | (m2, None) => (m2, None)
              end
          end
      end
  end.

(** [if err := c; err != nil { return err }; k] on the memory. *)
Definition thenDo (c : controllers.memory * option error)
    (k : controllers.memory -> controllers.memory * option error)
  : controllers.memory * option error :=
  match c with
  | (m, Some err) => (m, Some err)
  | (m, None) => k m
  end.

Definition TransitionToRunning (env : controllers.Env) (m : controllers.memory)
    (workloadID : string) : controllers.memory * option error :=
  thenDo (UpdateCondition env m ConditionPolicyValidated ConditionTrue
            "PolicyValidated" "Session policy has been validated") (λ m,
  thenDo (UpdateCondition env m ConditionWorkloadCreated ConditionTrue
            "WorkloadCreated" ("Workload created with ID: " +:+ workloadID)) (λ m,
  UpdatePhase env m SessionPhaseRunning "WorkloadStarted"
    ("Workload " +:+ workloadID +:+ " started"))).

(** The verb [%v] on a slice of strings: the strings separated by
    spaces, between brackets. *)
Definition fmtStrings (l : list string) : string :=
  "[" +:+ String.concat " " l +:+ "]".

Definition TransitionToCompleted (env : controllers.Env) (m : controllers.memory)
    (artifacts : list string) : controllers.memory * option error :=
  let message :=
    "Session completed successfully. Artifacts: " +:+ fmtStrings artifacts in
  thenDo (UpdateCondition env m ConditionArtifactsStored ConditionTrue
            "ArtifactsStored" message) (λ m,
  UpdatePhase env m SessionPhaseCompleted "SessionCompleted"
    "Session completed successfully").

Definition TransitionToFailed (env : controllers.Env) (m : controllers.memory)
    (reason message : string) : controllers.memory * option error :=
  let conditionType :=
    if decide (reason = "PolicyViolation") then ConditionPolicyValidated
    else if decide (reason = "WorkloadFailed") then ConditionWorkloadRunning
    else ConditionWorkloadRunning in
  thenDo (UpdateCondition env m conditionType ConditionFalse reason message) (λ m,
  UpdatePhase env m SessionPhaseFailed reason message).

Definition GetCurrentPhase (session : object) : string + error :=
  match unstructured.NestedString session ["status"; "phase"] with
  | unstructured.Mistyped => inr GetPhaseFailed
  | unstructured.Missing => inl SessionPhasePending
  | unstructured.Got phase => inl phase
  end.

(** [if v, exists := condMap[key]; exists { field = v.(string) }]:
    [None] is the panic of the assertion. *)
Definition fieldOr (condMap : object) (key : string) : option string :=
  match condMap !! key with
  | None => Some ""
  | Some (VStr s) => Some s
  | Some _ => None
  end.

(** What [GetCondition] returns: the condition or nil, an error, or a
    panic on a field that is not a string. *)
Inductive lookup : Type :=
  | Returned (c : option Condition)
  | ReturnedError (e : error)
  | LookupPanics.

(** The loop of [GetCondition]: the first condition of the type, read
    into the struct. *)
Fixpoint firstOfType (conditions : list value) (conditionType : string)
  : lookup :=
  match conditions with
  | [] => Returned None
  | VMap condMap :: rest =>
      if hasType condMap conditionType then
        match fieldOr condMap "status", fieldOr condMap "lastTransitionTime",
              fieldOr condMap "reason", fieldOr condMap "message" with
        | Some st, Some lt, Some r, Some msg =>
            Returned (Some {| Type_ := conditionType; Status := st;
                              LastTransitionTime := lt;
                              Reason := r; Message := msg |})
        | _, _, _, _ => LookupPanics
        end
      else firstOfType rest conditionType
  | _ :: rest => firstOfType rest conditionType
  end.

Definition GetCondition (session : object) (conditionType : string) : lookup :=
  match unstructured.NestedSlice session ["status"; "conditions"] with
  | unstructured.Mistyped => ReturnedError GetConditionsFailed
  | unstructured.Missing => Returned None
  | unstructured.Got conditions => firstOfType conditions conditionType
  end.

Definition validTransitions : gmap string (list string) :=
  {[ SessionPhasePending := [SessionPhaseRunning; SessionPhaseFailed];
     SessionPhaseRunning := [SessionPhaseCompleted; SessionPhaseFailed];
     SessionPhaseCompleted := [];
     SessionPhaseFailed := [] ]}.

Definition IsPhaseTransitionValid (from to : string) : bool :=
  match validTransitions !! from with
  | None => false
  | Some allowedTransitions => bool_decide (to ∈ allowedTransitions)
  end.

End status.

(** ** The workload creator (package workload) *)

Module workload.

Definition FrameworkClaudeCode : string := "claude-code".
Definition FrameworkGeneric : string := "generic".

Definition IsValidFrameworkType (frameworkType : string) : bool :=
  bool_decide (frameworkType = FrameworkClaudeCode ∨ frameworkType = FrameworkGeneric).

Definition GetSupportedFrameworkTypes : list string :=
  [FrameworkClaudeCode; FrameworkGeneric].

Inductive WorkloadStatus : Type :=
  | WorkloadStatusPending
  | WorkloadStatusRunning
  | WorkloadStatusCompleted
  | WorkloadStatusFailed
  | WorkloadStatusNotFound
  | WorkloadStatusUnknown.

(** [batchv1.JobCondition] and the part of [batchv1.JobStatus] that is
    read. *)
Record JobCondition : Type := { Type_ : string; Status : string }.
Record JobStatus : Type := { Conditions : list JobCondition; Active : Z }.

(** The answer of the client to the [Get] of a job, by namespace and
    name. *)
Inductive fetched : Type :=
  | JobFound (st : JobStatus)
  | JobNotFound
  | JobError (cause : string).

Definition GetWorkloadForSession (get : string -> string -> fetched)
    (session : object) : fetched :=
  let sessionName := GetName session in
  let namespace := GetNamespace session in
  let jobName := sessionName +:+ "-workload" in
  get namespace jobName.

(** [for _, condition := range job.Status.Conditions]: the status that
    the loop returns, if it returns. *)
Fixpoint fromConditions (conditions : list JobCondition) : option WorkloadStatus :=
  match conditions with
  | [] => None
  | condition :: rest =>
      if decide (Type_ condition = "Complete") then
        if decide (Status condition = "True") then Some WorkloadStatusCompleted
        else fromConditions rest
      else if decide (Type_ condition = "Failed") then
        if decide (Status condition = "True") then Some WorkloadStatusFailed
        else fromConditions rest
      else fromConditions rest
  end.

Definition GetWorkloadStatus (get : string -> string -> fetched)
    (session : object) : WorkloadStatus * option string :=
  match GetWorkloadForSession get session with
  | JobNotFound => (WorkloadStatusNotFound, None)
  | JobError cause =>
      (WorkloadStatusUnknown, Some ("failed to get workload Job: " +:+ cause))
  | JobFound st =>
      match fromConditions (Conditions st) with
      | Some s => (s, None)
      | None =>
          if decide (0 < Active st) then (WorkloadStatusRunning, None)
          else (WorkloadStatusPending, None)
      end
  end.

End workload.

(** ** The checks of the policy reconciler on a policy *)

Module PolicyConfig.

Inductive error : Type :=
  | BothAllowedAndBlocked (name : string)
  | EmptyMonthlyBudget.

Fixpoint getStrings (items : list value) : list string :=
  match items with
  | [] => []
  | VStr s :: rest => s :: getStrings rest
  | _ :: rest => getStrings rest
  end.

Definition getStringSlice (m : object) (key : string) : list string :=
  match asList (m !! key) with
  | Some items => getStrings items
  | None => []
  end.

(** [for _, a := range allowed { for _, b := range blocked { if a == b
     { return err } } }]: the first allowed name that is blocked. *)
Fixpoint firstConflict (allowed blocked : list string) : option string :=
  match allowed with
  | [] => None
  | a :: rest =>
      if bool_decide (a ∈ blocked) then Some a else firstConflict rest blocked
  end.

Definition validateModelsConfig (models : object) : option error :=
  let allowed := getStringSlice models "allowed" in
  let blocked := getStringSlice models "blocked" in
  match firstConflict allowed blocked with
  | Some a => Some (BothAllowedAndBlocked a)
  | None =>
      match asMap (models !! "budget") with
      | Some budget =>
          match asString (budget !! "monthly") with
          | Some monthly =>
              if decide (monthly = "") then Some EmptyMonthlyBudget else None
          | None => None
          end
      | None => None
      end
  end.

Definition validateToolsConfig (tools : object) : option error :=
  let allowed := getStringSlice tools "allowed" in
  let blocked := getStringSlice tools "blocked" in
  match firstConflict allowed blocked with
  | Some a => Some (BothAllowedAndBlocked a)
  | None => None
  end.

End PolicyConfig.

(** * Vocabulary of the properties *)

(** [status.history] of a session, when it is a list. *)
Definition historyOf (o : object) : option (list value) :=
  match asMap (o !! "status") with
  | Some status => asList (status !! "history")
  | None => None
  end.

(** Every entry of [old] is, encoded, the entry of [new] at its index. *)
Definition prefixUnmodified (Marshal : value -> string) (old new : list value)
  : Prop :=
  ∀ i e, old !! i = Some e → ∃ e', new !! i = Some e' ∧ Marshal e = Marshal e'.

(** The [event] of a history entry. *)
Definition eventOf (entry : value) : option string :=
  match entry with
  | VMap e => asString (e !! "event")
  | _ => None
  end.

(** The string at the end of a path of keys in an object. *)
Fixpoint stringAt (path : list string) (o : object) : option string :=
  match path with
  | [] => None
  | [key] => asString (o !! key)
  | key :: rest =>
      match asMap (o !! key) with
      | Some m => stringAt rest m
      | None => None
      end
  end.

(** [spec.policy.<constraints>.allowed] of a session and
    [spec.<section>.<key>] of a policy, when they are lists. *)
Definition requested (session : object) (constraints : string)
  : option (list value) :=
  controllers.PolicyReconciler.requestedOf (mapOrNil (session !! "spec")) constraints.

Definition policyList (policy : object) (section key : string)
  : option (list value) :=
  match asMap (mapOrNil (policy !! "spec") !! section) with
  | Some s => asList (s !! key)
  | None => None
  end.

(** The session with [spec.policy.modelConstraints.budget] set to [b], the
    policy with [spec.models.budget.monthly] set to [m] and the policy
    with [status.usage.budget.<field>] set to [u]; each where the
    enclosing objects exist. *)
Definition withBudget (b : value) (session : object) : object :=
  match asMap (session !! "spec") with
  | Some spec =>
      match asMap (spec !! "policy") with
      | Some pol =>
          match asMap (pol !! "modelConstraints") with
          | Some mc =>
              <["spec" := VMap (<["policy" := VMap
                 (<["modelConstraints" := VMap (<["budget" := b]> mc)]> pol)]> spec)]>
                session
          | None => session
          end
      | None => session
      end
  | None => session
  end.

Definition withMonthly (m : value) (policy : object) : object :=
  match asMap (policy !! "spec") with
  | Some spec =>
      match asMap (spec !! "models") with
      | Some models =>
          match asMap (models !! "budget") with
          | Some budget =>
              <["spec" := VMap (<["models" := VMap
                 (<["budget" := VMap (<["monthly" := m]> budget)]> models)]> spec)]>
                policy
          | None => policy
          end
      | None => policy
      end
  | None => policy
  end.

Definition withUsage (field : string) (u : value) (policy : object) : object :=
  match asMap (policy !! "status") with
  | Some status =>
      match asMap (status !! "usage") with
      | Some usage =>
          match asMap (usage !! "budget") with
          | Some budget =>
              <["status" := VMap (<["usage" := VMap
                 (<["budget" := VMap (<[field := u]> budget)]> usage)]> status)]>
                policy
          | None => policy
          end
      | None => policy
      end
  | None => policy
  end.

(** The dynamic client that answers with the policies of [client], their
    budget figures replaced. *)
Definition withPolicyBudget (m : value) (field : string) (u : value)
    (client : string -> string -> getResult) : string -> string -> getResult :=
  λ namespace name,
    match client namespace name with
    | Found policy => Found (withUsage field u (withMonthly m policy))
    | other => other
    end.

(** The session with [status.phase] set to [v]. *)
Definition withPhase (v : value) (session : object) : object :=
  <["status" := VMap (<["phase" := v]> (mapOrNil (session !! "status")))]> session.

(** The session that [updatePhase] submits. *)
Definition phaseUpdated (env : controllers.Env) (s : object)
    (phase message : string) : object :=
  let status := mapOrNil (s !! "status") in
  <["status" := VMap
      (<["conditions" := VList
           (default [] (asList (status !! "conditions"))
            ++ [controllers.SessionReconciler.phaseCondition env phase message])]>
         (<["history" := VList
              (default [] (asList (status !! "history"))
               ++ [controllers.SessionReconciler.historyEntry env phase message])]>
            (<["phase" := VStr phase]> status)))]> s.

(** The edges of the state machine that the reconcilers follow. *)
Inductive edge : string -> string -> Prop :=
  | PendingToRunning : edge "Pending" "Running"
  | PendingToFailed : edge "Pending" "Failed"
  | RunningToCompleted : edge "Running" "Completed"
  | RunningToFailed : edge "Running" "Failed".

(** The phases that the reconcilers know. *)
Definition knownPhase (p : string) : Prop :=
  p = "Pending" ∨ p = "Running" ∨ p = "Completed" ∨ p = "Failed".

(** ** Sample objects *)

Module examples.

Definition entry (timestamp event : string) : value :=
  VMap {[ "timestamp" := VStr timestamp; "event" := VStr event ]}.

Definition created : value := entry "2025-03-01T10:00:00Z" "Created".
Definition started : value := entry "2025-03-01T10:00:05Z" "WorkloadCreated".

(** A session of the given name, namespace, framework type and trigger
    source, that requests the model claude-3-sonnet and the tools bash
    and read within the given budget. *)
Definition sessionSpec (frameworkType source budget : string) : object :=
  {[ "trigger" := VMap
       {[ "source" := VStr source;
          "event" := VStr "pull_request_opened";
          "payload" := VMap {[ "action" := VStr "opened" ]} ]};
     "framework" := VMap
       {[ "type" := VStr frameworkType; "version" := VStr "1.0" ]};
     "policy" := VMap
       {[ "modelConstraints" := VMap
            {[ "allowed" := VList [VStr "claude-3-sonnet"];
               "budget" := VStr budget ]};
          "toolConstraints" := VMap
            {[ "allowed" := VList [VStr "bash"; VStr "read"] ]} ]} ]}.

Definition session (name namespace frameworkType source budget : string)
  : object :=
  {[ "apiVersion" := VStr "ambient.ai/v1alpha1";
     "kind" := VStr "Session";
     "metadata" := VMap
       {[ "name" := VStr name; "namespace" := VStr namespace ]};
     "spec" := VMap (sessionSpec frameworkType source budget) ]}.

Definition withStatus (phase : string) (history : list value) (s : object)
  : object :=
  <["status" := VMap {[ "phase" := VStr phase; "history" := VList history ]}]> s.

Definition alpha : object :=
  session "session-1" "team-alpha" "claude-code" "github" "10.00".

(** The same request with one cent more, a session of an unregistered
    framework type, and a session that differs from [alpha] in every
    field marked immutable. *)
Definition overBudget : object :=
  session "session-1" "team-alpha" "claude-code" "github" "10.01".

Definition generic : object :=
  session "session-1" "team-alpha" "generic" "github" "10.00".

Definition other : object :=
  session "session-2" "team-beta" "bash-runner" "manual" "10.00".

(** The policy of team-alpha: a monthly budget of 100.00 of which 90.00
    are used, so that 10.00 remain. *)
Definition alphaPolicy : object :=
  {[ "apiVersion" := VStr "ambient.ai/v1alpha1";
     "kind" := VStr "NamespacePolicy";
     "metadata" := VMap
       {[ "name" := VStr "policy"; "namespace" := VStr "team-alpha" ]};
     "spec" := VMap
       {[ "models" := VMap
            {[ "allowed" := VList [VStr "claude-3-sonnet"; VStr "claude-3-haiku"];
               "blocked" := VList [VStr "claude-3-opus"];
               "budget" := VMap
                 {[ "monthly" := VStr "100.00"; "currency" := VStr "USD" ]} ]};
          "tools" := VMap
            {[ "allowed" := VList [VStr "bash"; VStr "read"; VStr "edit"] ]} ]};
     "status" := VMap
       {[ "usage" := VMap
            {[ "budget" := VMap {[ "currentPeriod" := VStr "90.00" ]} ]} ]} ]}.

(** A policy that blocks the model requested by the sample sessions. *)
Definition strictPolicy : object :=
  {[ "metadata" := VMap
       {[ "name" := VStr "policy"; "namespace" := VStr "team-alpha" ]};
     "spec" := VMap
       {[ "models" := VMap {[ "blocked" := VList [VStr "claude-3-sonnet"] ]} ]} ]}.

(** A cluster where only team-alpha has a policy, and one without any. *)
Definition alphaOnly : string -> string -> getResult :=
  λ namespace name,
    if decide (namespace = "team-alpha" ∧ name = "policy")
    then Found alphaPolicy else NotFound.

Definition noPolicies : string -> string -> getResult := λ _ _, NotFound.

Definition create (s : object) : webhooks.Request :=
  {| webhooks.Operation := "CREATE";
     webhooks.Object := Some s;
     webhooks.OldObject := None |}.

Definition update (old new : object) : webhooks.Request :=
  {| webhooks.Operation := "UPDATE";
     webhooks.Object := Some new;
     webhooks.OldObject := Some old |}.

(** A DELETE request: it carries the old object and no object, so that
    decoding the object fails. *)
Definition delete (old : object) : webhooks.Request :=
  {| webhooks.Operation := "DELETE";
     webhooks.Object := None;
     webhooks.OldObject := Some old |}.

(** A CONNECT request, which carries an object. *)
Definition connect (options : object) : webhooks.Request :=
  {| webhooks.Operation := "CONNECT";
     webhooks.Object := Some options;
     webhooks.OldObject := None |}.

(** A cluster without policies where every call succeeds. *)
Definition quiet : controllers.Env :=
  {| controllers.getPolicy := noPolicies;
     controllers.setControllerReference := λ _ _, None;
     controllers.createJob := λ _, controllers.Created;
     controllers.getJob := λ _ _, NotFound;
     controllers.statusUpdate := λ _, None;
     controllers.now := "2025-03-01T10:00:10Z";
     controllers.fmtValue := json.Marshal |}.

(** The webhook handler in front of an API server that accepts every
    create. *)
Definition ingress : handlers.Env :=
  {| handlers.traceID := "0011223344556677";
     handlers.newUUID := "550e8400-e29b-41d4-a716-446655440000";
     handlers.createdAt := "2025-03-01T10:00:00Z";
     handlers.estimatedStart := "2025-03-01T10:00:05Z";
     handlers.dynamicClient := Some (λ _ obj, Some obj) |}.

Definition opened : handlers.request :=
  {| handlers.apiKeyHeader := "test-api-key-123";
     handlers.jsonBody := Some (Some {[ "action" := VStr "opened" ]}) |}.

(** The same key with a payload that names another tenant. *)
Definition hinted : handlers.request :=
  {| handlers.apiKeyHeader := "test-api-key-123";
     handlers.jsonBody :=
       Some (Some {[ "action" := VStr "closed";
                     "namespace" := VStr "team-beta";
                     "tenant" := VStr "team-beta" ]}) |}.

Definition anonymous : handlers.request :=
  {| handlers.apiKeyHeader := "";
     handlers.jsonBody := Some (Some {[ "action" := VStr "opened" ]}) |}.

Definition forged : handlers.request :=
  {| handlers.apiKeyHeader := "invalid-key";
     handlers.jsonBody := Some (Some {[ "action" := VStr "opened" ]}) |}.

Definition manual : services.SessionSpec :=
  {| services.Trigger :=
       {| services.Source := "manual"; services.Event := "create";
          services.Payload := None |};
     services.Framework :=
       {| services.Type_ := "claude-code"; services.Version := "1.0";
          services.Config := None |};
     services.Policy :=
       {| services.ModelAllowed := None; services.ModelBudget := "";
          services.ToolAllowed := None; services.ToolBlocked := None;
          services.ApprovalRequired := false |} |}.

Definition admitAll : object -> option string := λ _, None.

(** Two instants of the second 1700000000. *)
Definition t0 : Z := 1700000000000000000.
Definition t1 : Z := 1700000000500000000.

End examples.

(** ** Vocabulary of the further properties *)

(** The values of the type [int]. *)
Definition isInt (z : Z) : Prop := (- 2 ^ 63 ≤ z < 2 ^ 63)%Z.

(** The options [o] with the window moved to [limit] sessions from
    [offset]. *)
Definition pageAt (o : SessionManager.SessionListOptions) (offset limit : Z)
  : SessionManager.SessionListOptions :=
  {| SessionManager.Status := SessionManager.Status o;
     SessionManager.Framework := SessionManager.Framework o;
     SessionManager.Limit := limit;
     SessionManager.Offset := offset;
     SessionManager.SortBy := SessionManager.SortBy o;
     SessionManager.SortOrder := SessionManager.SortOrder o;
     SessionManager.Labels := SessionManager.Labels o |}.

(** Lists of strings, as the schema of the resources describes the
    lists of models, tools and framework types. *)
Definition isString (v : value) : Prop := ∃ s, v = VStr s.
Definition allStrings (l : list value) : Prop := Forall isString l.

(** The framework type that the policy checks read from a session. *)
Definition frameworkOf (session : object) : option string :=
  match asMap (mapOrNil (session !! "spec") !! "framework") with
  | Some framework => Some (stringOrZero (framework !! "type"))
  | None => None
  end.

(** The lists that the policy checks compare hold strings only. *)
Definition listsOfStrings (session policy : object) : Prop :=
  Forall (λ l, from_option allStrings True l)
    [ requested session "modelConstraints";
      requested session "toolConstraints";
      policyList policy "frameworks" "blocked";
      policyList policy "frameworks" "allowed";
      policyList policy "models" "allowed";
      policyList policy "models" "blocked";
      policyList policy "tools" "allowed";
      policyList policy "tools" "blocked" ].

(** Every name of [req] is in the allowed list, when the policy has one,
    and not in the blocked list, when the policy has one. *)
Definition within (req : option (list value)) (allowed blocked : option (list value))
  : Prop :=
  ∀ l x, req = Some l → x ∈ l →
    (∀ al, allowed = Some al → x ∈ al) ∧ (∀ bl, blocked = Some bl → x ∉ bl).

Definition compliesWith (session policy : object) : Prop :=
  within (option_map (λ ft, [VStr ft]) (frameworkOf session))
    (policyList policy "frameworks" "allowed")
    (policyList policy "frameworks" "blocked")
  ∧ within (requested session "modelConstraints")
      (policyList policy "models" "allowed")
      (policyList policy "models" "blocked")
  ∧ within (requested session "toolConstraints")
      (policyList policy "tools" "allowed")
      (policyList policy "tools" "blocked").

(** The view of the policies that a reconciler has is the view of the
    validator. *)
Definition sameCluster (env : controllers.Env)
    (client : string -> string -> getResult) : Prop :=
  ∀ namespace name, controllers.getPolicy env namespace name = client namespace name.

(** The history of [w] is the history of [s], or the history of [s]
    with one entry added at its end. *)
Definition appended (s w : object) : Prop :=
  historyOf w = historyOf s
  ∨ ∃ e, historyOf w = Some (default [] (historyOf s) ++ [e])%list.

(** The name of the job recorded in the status of a session, empty when
    there is none. *)
Definition jobNameOf (s : object) : string :=
  stringOrZero (mapOrNil (mapOrNil (s !! "status") !! "workload") !! "jobName").

(** The status of an object as the setters of nested fields see it: the
    empty map when the object has none, nothing when it is not a map. *)
Definition statusMap (o : object) : option object :=
  match o !! "status" with
  | None => Some ∅
  | Some (VMap st) => Some st
  | Some _ => None
  end.

(** A field that is absent or holds a list. *)
Definition listOrAbsent (v : option value) : Prop :=
  v = None ∨ ∃ l, v = Some (VList l).

(** The types of the conditions of a list, in order. *)
Definition conditionTypes (conditions : list value) : list string :=
  omap (λ cond, match cond with
                | VMap condMap => asString (condMap !! "type")
                | _ => None
                end) conditions.

(** The conditions after [UpdateCondition]: the first condition of the
    type overwritten, or the new condition added at the end. *)
Definition merged (conditions : list value) (c : status.Condition) : list value :=
  default (conditions ++ [status.conditionMap c])%list
          (status.updateFirst conditions c).

(** What a transition leaves in the session [s'] that it made from [s]:
    the phase, the conditions that read back with their status, and the
    history of [s] followed by the events of the conditions, in order,
    and of the phase. *)
Definition recorded (s s' : object) (phase : string)
    (conditions : list (string * string)) : Prop :=
  status.GetCurrentPhase s' = inl phase
  ∧ Forall (λ tc, ∃ c, status.GetCondition s' tc.1 = status.Returned (Some c)
                       ∧ status.Status c = tc.2) conditions
  ∧ ∃ entries,
      historyOf s' = Some (default [] (historyOf s) ++ entries)%list
      ∧ map eventOf entries
        = (map (λ tc, Some ("ConditionChanged:" +:+ tc.1)) conditions
           ++ [Some ("PhaseChanged:" +:+ phase)])%list.

(** [status.conditions] of a session, when it is a list. *)
Definition conditionsOf (o : object) : option (list value) :=
  match asMap (o !! "status") with
  | Some status => asList (status !! "conditions")
  | None => None
  end.

(** A terminal condition of a job that holds. *)
Definition finished (c : workload.JobCondition) : Prop :=
  (workload.Type_ c = "Complete" ∨ workload.Type_ c = "Failed")
  ∧ workload.Status c = "True".

(** Admission by the Session validator, as the API server applies it to
    a create: the webhook is registered with the failure policy Fail, so
    every answer but Allowed refuses the create. *)
Definition validatorAdmission (client : string -> string -> getResult)
    (Marshal : value -> string) (obj : object) : option string :=
  match webhooks.Handle client Marshal (examples.create obj) with
  | webhooks.Allowed => None
  | _ => Some "admission webhook denied the request"
  end.

(** The error replies of the webhook handler: status, error and
    message. *)
Definition errorReplies : list (Z * string * string) :=
  [ (400, "missing_api_key", "X-API-Key header is required");
    (401, "invalid_api_key", "API key is invalid or expired");
    (400, "invalid_payload", "Request body must be valid JSON");
    (403, "policy_violation", "Session creation would exceed namespace budget");
    (429, "rate_limit_exceeded", "Maximum sessions per minute exceeded");
    (500, "session_creation_failed", "Failed to create session") ].

(** ** Further sample objects *)

Module cases.

(** The options of a first page of two sessions. *)
Definition firstPage : SessionManager.SessionListOptions :=
  {| SessionManager.Status := ""; SessionManager.Framework := "";
     SessionManager.Limit := 2; SessionManager.Offset := 0;
     SessionManager.SortBy := ""; SessionManager.SortOrder := "";
     SessionManager.Labels := None |}.

(** A session whose first requested model is a number. *)
Definition untyped : object :=
  {[ "metadata" := VMap
       {[ "name" := VStr "session-3"; "namespace" := VStr "team-alpha" ]};
     "spec" := VMap
       {[ "framework" := VMap {[ "type" := VStr "claude-code" ]};
          "policy" := VMap
            {[ "modelConstraints" := VMap
                 {[ "allowed" := VList [VInt 3; VStr "claude-3-sonnet"] ]} ]} ]} ]}.

(** A policy with an empty list of allowed models, and one that blocks
    the model of the sample sessions without allowing any. *)
Definition nothingAllowed : object :=
  {[ "spec" := VMap {[ "models" := VMap {[ "allowed" := VList [] ]} ]} ]}.

(** The cluster of [examples.quiet] with the given policy in every
    namespace. *)
Definition under (policy : object) : controllers.Env :=
  {| controllers.getPolicy := λ _ _, Found policy;
     controllers.setControllerReference := λ _ _, None;
     controllers.createJob := λ _, controllers.Created;
     controllers.getJob := λ _ _, NotFound;
     controllers.statusUpdate := λ _, None;
     controllers.now := "2025-03-01T10:00:10Z";
     controllers.fmtValue := json.Marshal |}.

(** A policy without lists. *)
Definition lax : object := {[ "spec" := VMap ∅ ]}.

(** The cluster of [examples.quiet] once the job of the session
    [examples.alpha] has succeeded. *)
Definition succeeded : controllers.Env :=
  {| controllers.getPolicy := examples.noPolicies;
     controllers.setControllerReference := λ _ _, None;
     controllers.createJob := λ _, controllers.Created;
     controllers.getJob := λ namespace name,
       if decide (namespace = "team-alpha" ∧ name = "session-1-runner")
       then Found {[ "status" := VMap {[ "succeeded" := VInt 1 ]} ]}
       else NotFound;
     controllers.statusUpdate := λ _, None;
     controllers.now := "2025-03-01T10:00:10Z";
     controllers.fmtValue := json.Marshal |}.

(** A request of the backend for a session that needs approval and
    blocks a tool, without lists of allowed models or tools. *)
Definition guarded : services.SessionSpec :=
  {| services.Trigger :=
       {| services.Source := "manual"; services.Event := "create";
          services.Payload := None |};
     services.Framework :=
       {| services.Type_ := "claude-code"; services.Version := "1.0";
          services.Config := None |};
     services.Policy :=
       {| services.ModelAllowed := None; services.ModelBudget := "5.00";
          services.ToolAllowed := None; services.ToolBlocked := Some ["bash"];
          services.ApprovalRequired := true |} |}.

(** The models section of a policy that allows and blocks one model. *)
Definition conflicting : object :=
  {[ "allowed" := VList [VStr "claude-3-haiku"; VStr "claude-3-opus"];
     "blocked" := VList [VStr "claude-3-opus"] ]}.

(** A job that failed before it was completed, and the client that
    returns it for the session [examples.alpha]. *)
Definition retried : workload.JobStatus :=
  {| workload.Conditions :=
       [ {| workload.Type_ := "Complete"; workload.Status := "False" |};
         {| workload.Type_ := "Failed"; workload.Status := "True" |};
         {| workload.Type_ := "Complete"; workload.Status := "True" |} ];
     workload.Active := 0 |}.

Definition jobs : string -> string -> workload.fetched :=
  λ namespace name,
    if decide (namespace = "team-alpha" ∧ name = "session-1-workload")
    then workload.JobFound retried else workload.JobNotFound.

End cases.

(** * Properties *)

(** ** Admission: the history of a Session *)

Section Admission.

Import webhooks.

Variable client : string -> string -> getResult.
Variable Marshal : value -> string.

Lemma entriesUnmodified_Nil i oldEntries newHistory :
  entriesUnmodified Marshal i oldEntries newHistory = Nil ↔
  ∀ j e, oldEntries !! j = Some e →
         ∃ e', newHistory !! (i + j)%nat = Some e' ∧ Marshal e = Marshal e'.
Proof.
  revert i. induction oldEntries as [|o rest IH]; intros i; simpl.
  - split; [intros _ j e Hj; by rewrite lookup_nil in Hj | done].
  - destruct (newHistory !! i) as [n|] eqn:Hn.
    + destruct (decide (Marshal o = Marshal n)) as [Heq|Hne].
      * rewrite IH. split.
        -- intros H [|j] e Hj; simpl in Hj.
           ++ injection Hj as <-. exists n. by rewrite Nat.add_0_r.
           ++ replace (i + S j)%nat with (S i + j)%nat by lia. by apply H.
        -- intros H j e Hj.
           replace (S i + j)%nat with (i + S j)%nat by lia. by apply H.
      * split; [done|]. intros H.
        destruct (H 0%nat o eq_refl) as (e' & He' & Heq).
        rewrite Nat.add_0_r, Hn in He'. congruence.
    + split; [done|]. intros H.
      destruct (H 0%nat o eq_refl) as (e' & He' & _).
      rewrite Nat.add_0_r, Hn in He'. done.
Qed.

Lemma entriesUnmodified_not_Panics i oldEntries newHistory :
  entriesUnmodified Marshal i oldEntries newHistory ≠ Panics.
Proof.
  revert i. induction oldEntries as [|o rest IH]; intros i; simpl; [done|].
  destruct (newHistory !! i); [|done]. by case_decide.
Qed.

(** The history check, when the old session has a history. *)
Lemma validateHistoryAppendOnly_Nil oldSession newSession oldHistory :
  historyOf oldSession = Some oldHistory →
  validateHistoryAppendOnly Marshal oldSession newSession = Nil ↔
  ∃ newHistory, historyOf newSession = Some newHistory
    ∧ (length oldHistory ≤ length newHistory)%nat
    ∧ prefixUnmodified Marshal oldHistory newHistory.
Proof.
  unfold historyOf, validateHistoryAppendOnly, prefixUnmodified, mapOrNil.
  destruct (asMap (oldSession !! "status")) as [oldStatus|]; [|done].
  intros ->. destruct (asMap (newSession !! "status")) as [newStatus|]; simpl.
  - destruct (asList (newStatus !! "history")) as [newHistory|].
    + case_decide as Hlen.
      * split; [done|]. intros (? & [= <-] & ? & _). lia.
      * rewrite entriesUnmodified_Nil. split.
        -- intros H. exists newHistory. split_and!; [done|lia|done].
        -- by intros (? & [= <-] & _ & H).
    + split; [done|]. by intros (? & ? & _).
  - rewrite lookup_empty. simpl. split; [done|]. by intros (? & ? & _).
Qed.

Lemma validateHistoryAppendOnly_not_Panics oldSession newSession :
  validateHistoryAppendOnly Marshal oldSession newSession ≠ Panics.
Proof.
  unfold validateHistoryAppendOnly.
  destruct (asMap _); [|done]. destruct (asList _); [|done].
  destruct (asList _); [|done]. case_decide; [done|].
  apply entriesUnmodified_not_Panics.
Qed.

(** The check reads nothing but the [status] of the two sessions. *)
Lemma validateHistoryAppendOnly_status old old' new new' :
  old !! "status" = old' !! "status" → new !! "status" = new' !! "status" →
  validateHistoryAppendOnly Marshal old new
  = validateHistoryAppendOnly Marshal old' new'.
Proof. unfold validateHistoryAppendOnly. by intros -> ->. Qed.

(** A session passes the check against itself. *)
Lemma validateHistoryAppendOnly_refl o :
  validateHistoryAppendOnly Marshal o o = Nil.
Proof.
  destruct (historyOf o) as [h|] eqn:Hh.
  - rewrite (validateHistoryAppendOnly_Nil _ _ h Hh).
    exists h. split_and!; [done..|]. intros i e He. by exists e.
  - unfold historyOf in Hh. unfold validateHistoryAppendOnly.
    destruct (asMap _); [|done]. by rewrite Hh.
Qed.

Lemma Handle_update req new old :
  Operation req = "UPDATE" → Object req = Some new → OldObject req = Some old →
  Handle client Marshal req =
    match validateHistoryAppendOnly Marshal old new with
    | Nil => Allowed
    | Failed e => Denied (HistoryModification e)
    | Panics => NoResponse
    end.
Proof.
  intros Hop Hnew Hold. unfold Handle, validateUpdate.
  rewrite Hnew, Hop, Hold. by repeat case_decide.
Qed.

End Admission.

(** C3.  For an update whose old object carries a non-empty
    [status.history], the validator admits the request only if the new
    object carries a history at least as long in which every old entry
    is, as encoded JSON, the entry at the same index; an update that
    removes the history, shortens it by one or modifies an existing entry
    is denied. *)
Theorem C3_history_append_only client Marshal req old oldHistory :
  webhooks.Operation req = "UPDATE" →
  webhooks.OldObject req = Some old →
  historyOf old = Some oldHistory →
  oldHistory ≠ [] →
  (webhooks.Handle client Marshal req = webhooks.Allowed →
     ∃ new newHistory,
       webhooks.Object req = Some new
       ∧ historyOf new = Some newHistory
       ∧ (length oldHistory ≤ length newHistory)%nat
       ∧ prefixUnmodified Marshal oldHistory newHistory)
  ∧ (∀ new,
       webhooks.Object req = Some new →
       historyOf new = None
       ∨ (∃ newHistory, historyOf new = Some newHistory
            ∧ S (length newHistory) = length oldHistory)
       ∨ (∃ newHistory i e e', historyOf new = Some newHistory
            ∧ oldHistory !! i = Some e ∧ newHistory !! i = Some e'
            ∧ Marshal e ≠ Marshal e') →
       ∃ e, webhooks.Handle client Marshal req
            = webhooks.Denied (webhooks.HistoryModification e)).
Proof.
  intros Hop Hold Hhist _. split.
  - intros Hallowed. destruct (webhooks.Object req) as [new|] eqn:Hnew.
    + rewrite (Handle_update client Marshal req new old Hop Hnew Hold) in Hallowed.
      destruct (webhooks.validateHistoryAppendOnly Marshal old new) eqn:Hv; try done.
      apply (validateHistoryAppendOnly_Nil Marshal old new oldHistory Hhist) in Hv
        as (newHistory & ? & ? & ?).
      by exists new, newHistory.
    + unfold webhooks.Handle in Hallowed. by rewrite Hnew in Hallowed.
  - intros new Hnew Hbad.
    rewrite (Handle_update client Marshal req new old Hop Hnew Hold).
    destruct (webhooks.validateHistoryAppendOnly Marshal old new) as [|e|] eqn:Hv.
    + apply (validateHistoryAppendOnly_Nil Marshal old new oldHistory Hhist) in Hv
        as (newHistory & Hh & Hlen & Hpre).
      destruct Hbad as [Hnone|[(h & Hh' & Hshort)|(h & i & e & e' & Hh' & Ho & Hn & Hne)]].
      * congruence.
      * assert (h = newHistory) as -> by congruence. lia.
      * assert (h = newHistory) as -> by congruence.
        destruct (Hpre i e Ho) as (e'' & He'' & Heq). congruence.
    + by exists e.
    + by apply validateHistoryAppendOnly_not_Panics in Hv.
Qed.

(** C2 (as amended).  On update the validator compares nothing but the
    histories: an update that leaves [status] as it was is admitted
    whatever it changes in the metadata and in the spec, and the answer
    to an update is a function of the [status] of the two objects. *)
Theorem C2_update_reads_status_only client Marshal req old new :
  webhooks.Operation req = "UPDATE" →
  webhooks.Object req = Some new →
  webhooks.OldObject req = Some old →
  (new !! "status" = old !! "status" →
     webhooks.Handle client Marshal req = webhooks.Allowed)
  ∧ (∀ req' old' new',
       webhooks.Operation req' = "UPDATE" →
       webhooks.Object req' = Some new' →
       webhooks.OldObject req' = Some old' →
       new' !! "status" = new !! "status" →
       old' !! "status" = old !! "status" →
       webhooks.Handle client Marshal req' = webhooks.Handle client Marshal req).
Proof.
  intros Hop Hnew Hold. split.
  - intros Hst. rewrite (Handle_update client Marshal req new old Hop Hnew Hold).
    rewrite (validateHistoryAppendOnly_status Marshal old old new old eq_refl Hst).
    by rewrite validateHistoryAppendOnly_refl.
  - intros req' old' new' Hop' Hnew' Hold' Hn Ho.
    rewrite (Handle_update client Marshal req new old Hop Hnew Hold).
    rewrite (Handle_update client Marshal req' new' old' Hop' Hnew' Hold').
    by rewrite (validateHistoryAppendOnly_status Marshal old' old new' new Ho Hn).
Qed.

(** C9 (as amended).  A request whose operation is neither CREATE nor
    UPDATE is allowed when its object decodes, whatever the object, the
    old object and the policies are, and is answered with the error
    status 400 when its object does not decode. *)
Theorem C9_other_operations_allowed client Marshal req :
  webhooks.Operation req ≠ "CREATE" →
  webhooks.Operation req ≠ "UPDATE" →
  (∀ session,
     webhooks.Object req = Some session →
     webhooks.Handle client Marshal req = webhooks.Allowed)
  ∧ (webhooks.Object req = None →
     webhooks.Handle client Marshal req = webhooks.Errored 400).
Proof.
  intros Hc Hu. unfold webhooks.Handle. split.
  - intros session Hobj. rewrite Hobj. by repeat case_decide.
  - by intros ->.
Qed.

(** ** Admission: policy constraints on create *)


Lemma andThen_Nil {E} (c k : outcome E) : c >>- k = Nil ↔ c = Nil ∧ k = Nil.
Proof. destruct c; simpl; intuition congruence. Qed.

Lemma matchesAny_true r l : matchesAny r l = Some true → r ∈ l.
Proof.
  induction l as [|x l IH]; simpl; [done|].
  destruct r; try done. destruct x; try done. case_decide as Heq.
  - intros _. subst. apply list_elem_of_here.
  - intros Hm. apply list_elem_of_further. by apply IH.
Qed.

Lemma matchesAny_false r l : matchesAny r l = Some false → r ∉ l.
Proof.
  induction l as [|x l IH]; simpl.
  - intros _. apply not_elem_of_nil.
  - destruct r; try done. destruct x; try done. case_decide as Heq; [done|].
    intros Hm. apply not_elem_of_cons. split; [congruence | by apply IH].
Qed.

Lemma allInAllowed_Nil mk req al :
  webhooks.allInAllowed mk req al = Nil → ∀ r, r ∈ req → r ∈ al.
Proof.
  induction req as [|x req IH]; simpl.
  - intros _ r Hr. by apply elem_of_nil in Hr.
  - destruct (matchesAny x al) as [[]|] eqn:Hm; try done.
    + intros H r [->|Hr]%elem_of_cons; [by apply matchesAny_true | by apply IH].
    + by destruct x.
Qed.

Lemma noneInBlocked_Nil mk req bl :
  webhooks.noneInBlocked mk req bl = Nil → ∀ r, r ∈ req → r ∉ bl.
Proof.
  induction req as [|x req IH]; simpl.
  - intros _ r Hr. by apply elem_of_nil in Hr.
  - destruct (matchesAny x bl) as [[]|] eqn:Hm; try done.
    + by destruct x.
    + intros H r [->|Hr]%elem_of_cons; [by apply matchesAny_false | by apply IH].
Qed.

(** What a passed check says of the requested models and tools; the
    allowed list of the policy binds as soon as it is present, empty or
    not. *)
Lemma validateModelConstraints_Nil session policy req r :
  webhooks.validateModelConstraints
    (mapOrNil (session !! "spec")) (mapOrNil (policy !! "spec")) = Nil →
  requested session "modelConstraints" = Some req → r ∈ req →
  (∀ al, policyList policy "models" "allowed" = Some al → r ∈ al)
  ∧ (∀ bl, policyList policy "models" "blocked" = Some bl → r ∉ bl).
Proof.
  unfold webhooks.validateModelConstraints, requested, policyList,
    controllers.PolicyReconciler.requestedOf.
  destruct (asMap (mapOrNil (session !! "spec") !! "policy")) as [sp|]; [|done].
  destruct (asMap (sp !! "modelConstraints")) as [mc|]; [|done].
  intros Hv Hreq. rewrite Hreq in Hv.
  destruct (asMap (mapOrNil (policy !! "spec") !! "models")) as [pm|]; [|done].
  apply andThen_Nil in Hv as [Ha Hb]. intros Hr. split.
  - intros al Hal. rewrite Hal in Ha. by eapply allInAllowed_Nil.
  - intros bl Hbl. rewrite Hbl in Hb. by eapply noneInBlocked_Nil.
Qed.

Lemma validateToolConstraints_Nil session policy req r :
  webhooks.validateToolConstraints
    (mapOrNil (session !! "spec")) (mapOrNil (policy !! "spec")) = Nil →
  requested session "toolConstraints" = Some req → r ∈ req →
  (∀ al, policyList policy "tools" "allowed" = Some al → r ∈ al)
  ∧ (∀ bl, policyList policy "tools" "blocked" = Some bl → r ∉ bl).
Proof.
  unfold webhooks.validateToolConstraints, requested, policyList,
    controllers.PolicyReconciler.requestedOf.
  destruct (asMap (mapOrNil (session !! "spec") !! "policy")) as [sp|]; [|done].
  destruct (asMap (sp !! "toolConstraints")) as [tc|]; [|done].
  intros Hv Hreq. rewrite Hreq in Hv.
  destruct (asMap (mapOrNil (policy !! "spec") !! "tools")) as [pt|]; [|done].
  apply andThen_Nil in Hv as [Ha Hb]. intros Hr. split.
  - intros al Hal. rewrite Hal in Ha. by eapply allInAllowed_Nil.
  - intros bl Hbl. rewrite Hbl in Hb. by eapply noneInBlocked_Nil.
Qed.

Lemma Handle_create client Marshal req session :
  webhooks.Operation req = "CREATE" → webhooks.Object req = Some session →
  webhooks.Handle client Marshal req = webhooks.validateCreate client session.
Proof.
  intros Hop Hobj. unfold webhooks.Handle. rewrite Hobj, Hop. by case_decide.
Qed.

Lemma validateCreate_Allowed client session :
  webhooks.validateCreate client session = webhooks.Allowed ↔
  webhooks.validateFrameworkType session = Nil
  ∧ webhooks.validateAgainstNamespacePolicy client session = Nil.
Proof.
  unfold webhooks.validateCreate.
  destruct (webhooks.validateFrameworkType session); [|intuition discriminate..].
  destruct (webhooks.validateAgainstNamespacePolicy client session);
    intuition discriminate.
Qed.

(** The budget figures are outside of what the create check reads. *)
Lemma validateFrameworkType_withBudget b session :
  webhooks.validateFrameworkType (withBudget b session)
  = webhooks.validateFrameworkType session.
Proof.
  unfold withBudget, webhooks.validateFrameworkType.
  destruct (asMap (session !! "spec")) as [spec|] eqn:Hspec; [|by rewrite Hspec].
  destruct (asMap (spec !! "policy")) as [pol|]; [|by rewrite Hspec].
  destruct (asMap (pol !! "modelConstraints")) as [mc|]; [|by rewrite Hspec].
  rewrite lookup_insert_eq. simpl. by rewrite lookup_insert_ne.
Qed.

Lemma GetNamespace_withBudget b session :
  GetNamespace (withBudget b session) = GetNamespace session.
Proof.
  unfold withBudget, GetNamespace, metaString.
  destruct (asMap (session !! "spec")) as [spec|]; [|done].
  destruct (asMap (spec !! "policy")) as [pol|]; [|done].
  destruct (asMap (pol !! "modelConstraints")) as [mc|]; [|done].
  by rewrite lookup_insert_ne.
Qed.

Lemma validateSessionAgainstPolicy_withBudget b session policy :
  webhooks.validateSessionAgainstPolicy (withBudget b session) policy
  = webhooks.validateSessionAgainstPolicy session policy.
Proof.
  unfold withBudget, webhooks.validateSessionAgainstPolicy.
  destruct (asMap (session !! "spec")) as [spec|] eqn:Hspec; [|done].
  destruct (asMap (spec !! "policy")) as [pol|] eqn:Hpol; [|done].
  destruct (asMap (pol !! "modelConstraints")) as [mc|] eqn:Hmc; [|done].
  unfold mapOrNil at 1 3 5. rewrite lookup_insert_eq.
  unfold mapOrNil. rewrite Hspec. simpl.
  f_equal; [|f_equal].
  - unfold webhooks.validateFrameworkConstraints. by rewrite lookup_insert_ne.
  - unfold webhooks.validateModelConstraints.
    rewrite lookup_insert_eq, Hpol. simpl.
    rewrite lookup_insert_eq, Hmc. simpl. by rewrite lookup_insert_ne.
  - unfold webhooks.validateToolConstraints.
    rewrite lookup_insert_eq, Hpol. simpl. by rewrite lookup_insert_ne.
Qed.

Lemma validateSessionAgainstPolicy_withMonthly m session policy :
  webhooks.validateSessionAgainstPolicy session (withMonthly m policy)
  = webhooks.validateSessionAgainstPolicy session policy.
Proof.
  unfold withMonthly, webhooks.validateSessionAgainstPolicy.
  destruct (asMap (policy !! "spec")) as [spec|] eqn:Hspec; [|done].
  destruct (asMap (spec !! "models")) as [models|] eqn:Hmodels; [|done].
  destruct (asMap (models !! "budget")) as [budget|] eqn:Hbudget; [|done].
  unfold mapOrNil at 2 4 6. rewrite lookup_insert_eq.
  unfold mapOrNil. rewrite Hspec. simpl.
  f_equal; [|f_equal].
  - unfold webhooks.validateFrameworkConstraints. by rewrite lookup_insert_ne.
  - unfold webhooks.validateModelConstraints.
    rewrite lookup_insert_eq, Hmodels. simpl.
    by rewrite !lookup_insert_ne.
  - unfold webhooks.validateToolConstraints. by rewrite lookup_insert_ne.
Qed.

Lemma validateSessionAgainstPolicy_withUsage field u session policy :
  webhooks.validateSessionAgainstPolicy session (withUsage field u policy)
  = webhooks.validateSessionAgainstPolicy session policy.
Proof.
  unfold withUsage, webhooks.validateSessionAgainstPolicy.
  destruct (asMap (policy !! "status")) as [status|]; [|done].
  destruct (asMap (status !! "usage")) as [usage|]; [|done].
  destruct (asMap (usage !! "budget")) as [budget|]; [|done].
  by rewrite lookup_insert_ne.
Qed.

Lemma validateCreate_budget client session b m field u :
  webhooks.validateCreate (withPolicyBudget m field u client) (withBudget b session)
  = webhooks.validateCreate client session.
Proof.
  unfold webhooks.validateCreate, webhooks.validateAgainstNamespacePolicy,
    withPolicyBudget.
  rewrite validateFrameworkType_withBudget, GetNamespace_withBudget.
  destruct (webhooks.validateFrameworkType session); [|done..].
  case_decide; [done|].
  destruct (client (GetNamespace session) "policy"); [|done..].
  by rewrite validateSessionAgainstPolicy_withBudget,
    validateSessionAgainstPolicy_withUsage,
    validateSessionAgainstPolicy_withMonthly.
Qed.

(** C5 (as amended).  Admission on create does not evaluate the budget
    inequality: replacing the requested budget of the session, the
    monthly budget of the policy and the usage of the current period by
    any values leaves the answer as it was; and the budget check of the
    session reconciler accepts every session. *)
Theorem C5_budget_not_compared client Marshal session b m field u :
  webhooks.Handle (withPolicyBudget m field u client) Marshal
    {| webhooks.Operation := "CREATE";
       webhooks.Object := Some (withBudget b session);
       webhooks.OldObject := None |}
  = webhooks.Handle client Marshal
      {| webhooks.Operation := "CREATE";
         webhooks.Object := Some session;
         webhooks.OldObject := None |}
  ∧ ∀ sessionSpec policySpec,
      controllers.SessionReconciler.validateBudget sessionSpec policySpec = Nil.
Proof.
  split.
  - rewrite (Handle_create client Marshal _ session); [|done..].
    rewrite (Handle_create _ Marshal _ (withBudget b session)); [|done..].
    apply validateCreate_budget.
  - intros sessionSpec policySpec.
    unfold controllers.SessionReconciler.validateBudget.
    destruct (asMap (policySpec !! "models")) as [models|]; [|done].
    by destruct (asMap (models !! "budget")).
Qed.

(** C6.  On create with a NamespacePolicy present for the namespace of
    the session, admission succeeds only if every requested model is in
    the allowed models of the policy whenever that list is non-empty and
    is not in its blocked models, and likewise for tools.  When no
    NamespacePolicy exists for the namespace, a create that has come to
    the policy lookup (the session has a namespace to look the policy up
    in, and the check of the framework type, which comes first, has
    passed) is admitted. *)
Theorem C6_policy_constraints_on_create client Marshal req session :
  webhooks.Operation req = "CREATE" →
  webhooks.Object req = Some session →
  (∀ policy,
     client (GetNamespace session) "policy" = Found policy →
     webhooks.Handle client Marshal req = webhooks.Allowed →
     (∀ models r,
        requested session "modelConstraints" = Some models → r ∈ models →
        (∀ al, policyList policy "models" "allowed" = Some al → al ≠ [] → r ∈ al)
        ∧ (∀ bl, policyList policy "models" "blocked" = Some bl → r ∉ bl))
     ∧ (∀ tools r,
        requested session "toolConstraints" = Some tools → r ∈ tools →
        (∀ al, policyList policy "tools" "allowed" = Some al → al ≠ [] → r ∈ al)
        ∧ (∀ bl, policyList policy "tools" "blocked" = Some bl → r ∉ bl)))
  ∧ (client (GetNamespace session) "policy" = NotFound →
     GetNamespace session ≠ "" →
     webhooks.validateFrameworkType session = Nil →
     webhooks.validateAgainstNamespacePolicy client session = Nil
     ∧ webhooks.Handle client Marshal req = webhooks.Allowed).
Proof.
  intros Hop Hobj. rewrite (Handle_create client Marshal req session Hop Hobj).
  split.
  - intros policy Hpol [_ Hv]%validateCreate_Allowed.
    unfold webhooks.validateAgainstNamespacePolicy in Hv.
    case_decide; [done|]. rewrite Hpol in Hv.
    unfold webhooks.validateSessionAgainstPolicy in Hv.
    apply andThen_Nil in Hv as [_ [Hm Ht]%andThen_Nil].
    split.
    + intros models r Hreq Hr.
      destruct (validateModelConstraints_Nil session policy models r Hm Hreq Hr)
        as [Hal Hbl].
      split; [intros al Hl _; by apply Hal | done].
    + intros tools r Hreq Hr.
      destruct (validateToolConstraints_Nil session policy tools r Ht Hreq Hr)
        as [Hal Hbl].
      split; [intros al Hl _; by apply Hal | done].
  - intros Hnone Hns Hft.
    assert (webhooks.validateAgainstNamespacePolicy client session = Nil) as Hpol.
    { unfold webhooks.validateAgainstNamespacePolicy.
      rewrite Hnone. by case_decide. }
    split; [exact Hpol|]. by apply validateCreate_Allowed.
Qed.

(** ** The session reconciler *)

Section Reconciler.

Import controllers controllers.SessionReconciler.

Variable env : Env.

Lemma StatusUpdate_written obj m w :
  written (StatusUpdate env obj m).1 = Some w → w = obj ∨ written m = Some w.
Proof.
  unfold StatusUpdate. destruct (statusUpdate env obj); simpl; [by right|].
  intros [= <-]. by left.
Qed.

Lemma StatusUpdate_session obj m : session (StatusUpdate env obj m).1 = obj.
Proof. unfold StatusUpdate. by destruct (statusUpdate env obj). Qed.


Lemma updatePhase_session m phase message :
  session (updatePhase env m phase message).1
  = phaseUpdated env (session m) phase message.
Proof.
  unfold updatePhase, phaseUpdated.
  rewrite (lookup_insert_ne _ "phase" "history") by done.
  rewrite (lookup_insert_ne _ "history" "conditions") by done.
  rewrite (lookup_insert_ne _ "phase" "conditions") by done.
  match goal with |- context [StatusUpdate env ?o m] =>
    pose proof (StatusUpdate_session o m) as Hs;
    destruct (StatusUpdate env o m) as [m' [err|]] end; exact Hs.
Qed.

Lemma updatePhase_written m phase message w :
  written (updatePhase env m phase message).1 = Some w →
  w = phaseUpdated env (session m) phase message ∨ written m = Some w.
Proof.
  unfold updatePhase, phaseUpdated.
  rewrite (lookup_insert_ne _ "phase" "history") by done.
  rewrite (lookup_insert_ne _ "history" "conditions") by done.
  rewrite (lookup_insert_ne _ "phase" "conditions") by done.
  match goal with |- context [StatusUpdate env ?o m] =>
    pose proof (StatusUpdate_written o m w) as Hw;
    destruct (StatusUpdate env o m) as [m' [err|]] end; exact Hw.
Qed.

Lemma getPhase_phaseUpdated s phase message :
  phase ≠ "" → getPhase (phaseUpdated env s phase message) = phase.
Proof.
  intros Hne. unfold getPhase, phaseUpdated.
  rewrite lookup_insert_eq. simpl.
  rewrite !lookup_insert_ne by done. rewrite lookup_insert_eq. simpl.
  by case_decide.
Qed.

Lemma historyOf_phaseUpdated s phase message :
  historyOf (phaseUpdated env s phase message)
  = Some (default [] (historyOf s) ++ [historyEntry env phase message])%list.
Proof.
  unfold historyOf, phaseUpdated.
  rewrite lookup_insert_eq. simpl.
  rewrite lookup_insert_ne by done. rewrite lookup_insert_eq. simpl.
  unfold mapOrNil. destruct (asMap (s !! "status")); [done|].
  simpl. by rewrite lookup_empty.
Qed.

End Reconciler.


(** C7.  What the session reconciler appends on a phase change: exactly
    one history entry, whose event is the text PhaseChanged followed at
    once by the phase, which is never the text with a colon between the
    two. *)
Theorem C7_phase_change_event env m phase message :
  let m' := (controllers.SessionReconciler.updatePhase env m phase message).1 in
  historyOf (controllers.session m')
  = Some (default [] (historyOf (controllers.session m))
          ++ [controllers.SessionReconciler.historyEntry env phase message])%list
  ∧ eventOf (controllers.SessionReconciler.historyEntry env phase message)
    = Some ("PhaseChanged" +:+ phase)
  ∧ "PhaseChanged" +:+ phase ≠ "PhaseChanged:" +:+ phase.
Proof.
  simpl. rewrite updatePhase_session, historyOf_phaseUpdated.
  split_and!; [done|done|].
  intros Heq. apply (f_equal String.length) in Heq. simpl in Heq. lia.
Qed.


Section ReconcilerPhases.

Import controllers controllers.SessionReconciler.

Variable env : Env.

Lemma getPhase_raw s :
  let raw := stringOrZero (mapOrNil (s !! "status") !! "phase") in
  (getPhase s = "Completed" ↔ raw = "Completed")
  ∧ (getPhase s = "Failed" ↔ raw = "Failed").
Proof.
  unfold getPhase, mapOrNil. destruct (asMap (s !! "status")); simpl.
  - case_decide as Hraw; [rewrite Hraw|]; unfold PhasePending;
      repeat split; by intros.
  - rewrite lookup_empty. unfold PhasePending. simpl. repeat split; by intros.
Qed.

Lemma getPhase_workloadInfo s info :
  getPhase (<["status" := VMap (<["workload" := info]> (mapOrNil (s !! "status")))]> s)
  = getPhase s.
Proof.
  unfold getPhase. rewrite lookup_insert_eq. simpl.
  rewrite lookup_insert_ne by done. unfold mapOrNil.
  destruct (asMap (s !! "status")); simpl; [done|].
  by rewrite lookup_empty.
Qed.

Lemma createWorkload_written m w :
  written m = None →
  written (createWorkload env m).1 = Some w →
  getPhase w = getPhase (session m).
Proof.
  intros Hnone. unfold createWorkload.
  destruct (setControllerReference env _ _); simpl; [congruence|].
  destruct (createJob env _); simpl; [| |congruence];
    unfold updateWorkloadInfo;
    intros [->|?]%StatusUpdate_written; try congruence;
    apply getPhase_workloadInfo.
Qed.

Lemma handlePending_written m w :
  written m = None →
  written (handlePending env m).1 = Some w →
  getPhase w = getPhase (session m)
  ∨ getPhase w = "Running" ∨ getPhase w = "Failed".
Proof.
  intros Hnone. unfold handlePending.
  destruct (validatePolicy env (session m)); simpl.
  - destruct (createWorkload env m) as [m' r] eqn:Hcw.
    assert (∀ w, written m' = Some w → getPhase w = getPhase (session m)) as Hm'.
    { intros w' Hw'. apply createWorkload_written; [done|]. by rewrite Hcw. }
    destruct r.
    + intros [->|Hw]%updatePhase_written; [|left; by apply Hm'].
      right; left. by apply getPhase_phaseUpdated.
    + intros [->|Hw]%updatePhase_written; [|left; by apply Hm'].
      right; right. by apply getPhase_phaseUpdated.
    + simpl. intros Hw. left. by apply Hm'.
  - intros [->|Hw]%updatePhase_written; [|congruence].
    right; right. by apply getPhase_phaseUpdated.
  - congruence.
Qed.

Lemma handleRunning_written m w :
  written m = None →
  written (handleRunning env m).1 = Some w →
  getPhase w = "Completed" ∨ getPhase w = "Failed".
Proof.
  intros Hnone. unfold handleRunning.
  destruct (checkWorkloadStatus env (session m)); simpl; [|congruence].
  repeat case_decide; simpl; try congruence.
  - intros [->|Hw]%updatePhase_written; [|congruence].
    left. by apply getPhase_phaseUpdated.
  - intros [->|Hw]%updatePhase_written; [|congruence].
    right. by apply getPhase_phaseUpdated.
Qed.

Lemma Reconcile_written s w :
  (Reconcile env (Found s)).2 = Some w →
  (getPhase s = "Pending" ∧
     (getPhase w = "Pending" ∨ getPhase w = "Running" ∨ getPhase w = "Failed"))
  ∨ (getPhase s = "Running" ∧
     (getPhase w = "Completed" ∨ getPhase w = "Failed"))
  ∨ (¬ knownPhase (getPhase s) ∧ getPhase w = "Pending").
Proof.
  unfold Reconcile.
  set (m := {| session := s; written := None |}).
  unfold PhasePending, PhaseRunning, PhaseCompleted, PhaseFailed.
  case_decide as Hp.
  - destruct (handlePending env m) as [m' r] eqn:Hh. simpl. intros Hw.
    left. split; [done|].
    destruct (handlePending_written m w eq_refl) as [H1|H1];
      [by rewrite Hh| |by right].
    left. by rewrite H1.
  - case_decide as Hr.
    + destruct (handleRunning env m) as [m' r] eqn:Hh. simpl. intros Hw.
      right; left. split; [done|].
      apply (handleRunning_written m w eq_refl). by rewrite Hh.
    + case_decide as Ht; [done|].
      destruct (updatePhase env m "Pending" _) as [m' r] eqn:Hu. simpl. intros Hw.
      right; right. split; [unfold knownPhase; tauto|].
      assert (written (updatePhase env m "Pending"
                "Unknown phase detected, resetting to Pending").1 = Some w) as Hw'
        by by rewrite Hu.
      apply updatePhase_written in Hw' as [->|?]; [|done].
      by apply getPhase_phaseUpdated.
Qed.

Lemma Reconcile_terminal s :
  getPhase s = "Completed" ∨ getPhase s = "Failed" →
  (Reconcile env (Found s)).2 = None.
Proof.
  intros Ht. unfold Reconcile.
  unfold PhasePending, PhaseRunning, PhaseCompleted, PhaseFailed.
  case_decide as Hp; [rewrite Hp in Ht; by destruct Ht|].
  case_decide as Hr; [rewrite Hr in Ht; by destruct Ht|].
  by case_decide.
Qed.

Lemma markSessionViolation_written s violation w :
  PolicyReconciler.markSessionViolation env s violation = Some w →
  getPhase s ≠ "Completed" ∧ getPhase s ≠ "Failed" ∧ getPhase w = "Failed".
Proof.
  unfold PolicyReconciler.markSessionViolation.
  destruct (getPhase_raw s) as [Hc Hf]. simpl in Hc, Hf.
  case_decide as Hraw; [|done].
  intros [->|?]%StatusUpdate_written; [|done].
  split_and!; [tauto..|].
  unfold getPhase. rewrite lookup_insert_eq. simpl.
  rewrite !lookup_insert_ne by done. by rewrite lookup_insert_eq.
Qed.

Lemma markSessionViolation_terminal s violation :
  getPhase s = "Completed" ∨ getPhase s = "Failed" →
  PolicyReconciler.markSessionViolation env s violation = None.
Proof.
  intros Ht. unfold PolicyReconciler.markSessionViolation.
  destruct (getPhase_raw s) as [Hc Hf]. simpl in Hc, Hf.
  case_decide as Hraw; [tauto|done].
Qed.

Lemma markViolations_written policy items s w :
  (s, Some w) ∈ (PolicyReconciler.markViolations env policy items).1 →
  getPhase s ≠ "Completed" ∧ getPhase s ≠ "Failed" ∧ getPhase w = "Failed".
Proof.
  induction items as [|x items IH]; simpl.
  - intros Hin. by apply elem_of_nil in Hin.
  - destruct (PolicyReconciler.checkSessionViolation x policy) as [|violation|].
    + destruct (PolicyReconciler.markViolations env policy items) as [done' p].
      simpl in *. intros [[=]|Hin]%elem_of_cons. by apply IH.
    + destruct (PolicyReconciler.markViolations env policy items) as [done' p].
      simpl in *. intros [[= -> Hw]|Hin]%elem_of_cons; [|by apply IH].
      by apply (markSessionViolation_written _ _ _ (eq_sym Hw)).
    + simpl. intros Hin. by apply elem_of_nil in Hin.
Qed.

End ReconcilerPhases.


Lemma validateHistoryAppendOnly_same_history Marshal old new :
  historyOf new = historyOf old →
  webhooks.validateHistoryAppendOnly Marshal old new = Nil.
Proof.
  intros Hsame. destruct (historyOf old) as [h|] eqn:Hh.
  - rewrite (validateHistoryAppendOnly_Nil Marshal old new h Hh).
    exists h. split_and!; [done..|]. intros i e He. by exists e.
  - unfold historyOf in Hh. unfold webhooks.validateHistoryAppendOnly.
    destruct (asMap (old !! "status")); [|done]. by rewrite Hh.
Qed.

Lemma historyOf_withPhase v session :
  historyOf (withPhase v session) = historyOf session.
Proof.
  unfold historyOf, withPhase, mapOrNil. rewrite lookup_insert_eq. simpl.
  rewrite lookup_insert_ne by done.
  destruct (asMap (session !! "status")); simpl; [done|]. by rewrite lookup_empty.
Qed.

(** C1 (as amended).  The reconcilers never leave Completed or Failed:
    on a session in one of these two phases the session reconciler and
    the policy reconciler write nothing.  Every version of a session
    that the session reconciler writes keeps the phase or follows one of
    the edges Pending-Running, Pending-Failed, Running-Completed,
    Running-Failed, or resets to Pending a phase that is none of the four
    known ones; every version that the policy reconciler writes, in
    [markSessionViolation] and so in the loop over the sessions of a
    namespace, is Failed, from a phase other than Completed and Failed.
    Admission does not compare phases: an update that only sets the phase
    is admitted. *)
Theorem C1_phase_transitions env client Marshal session :
  let p := controllers.SessionReconciler.getPhase session in
  (p = "Completed" ∨ p = "Failed" →
     (controllers.SessionReconciler.Reconcile env (Found session)).2 = None
     ∧ ∀ violation,
         controllers.PolicyReconciler.markSessionViolation env session violation
         = None)
  ∧ (∀ w,
       (controllers.SessionReconciler.Reconcile env (Found session)).2 = Some w →
       let p' := controllers.SessionReconciler.getPhase w in
       p' = p ∨ edge p p' ∨ (¬ knownPhase p ∧ p' = "Pending"))
  ∧ (∀ violation w,
       controllers.PolicyReconciler.markSessionViolation env session violation
       = Some w →
       p ≠ "Completed" ∧ p ≠ "Failed"
       ∧ controllers.SessionReconciler.getPhase w = "Failed")
  ∧ (∀ policy items w,
       (session, Some w)
         ∈ (controllers.PolicyReconciler.markViolations env policy items).1 →
       p ≠ "Completed" ∧ p ≠ "Failed"
       ∧ controllers.SessionReconciler.getPhase w = "Failed")
  ∧ (∀ v,
       webhooks.Handle client Marshal
         {| webhooks.Operation := "UPDATE";
            webhooks.Object := Some (withPhase v session);
            webhooks.OldObject := Some session |}
       = webhooks.Allowed).
Proof.
  simpl. split_and!.
  - intros Ht. split.
    + by apply Reconcile_terminal.
    + intros violation. by apply markSessionViolation_terminal.
  - intros w Hw.
    destruct (Reconcile_written env session w Hw)
      as [[Hp [H'|[H'|H']]]|[[Hp [H'|H']]|[Hp H']]]; rewrite ?Hp, H'.
    + by left.
    + right; left. constructor.
    + right; left. constructor.
    + right; left. constructor.
    + right; left. constructor.
    + right; right. done.
  - intros violation w Hw. by apply (markSessionViolation_written env _ violation).
  - intros policy items w Hin. by apply (markViolations_written env policy items).
  - intros v.
    rewrite (Handle_update client Marshal _ (withPhase v session) session);
      [|done..].
    by rewrite validateHistoryAppendOnly_same_history
      by apply historyOf_withPhase.
Qed.

(** ** The webhook handler *)

Lemma handleWebhook_created env req source ns s :
  (handlers.handleWebhook env req source).2 = Some (ns, s) →
  handlers.resolveNamespace (handlers.apiKeyHeader req) = inl ns
  ∧ GetNamespace s = ns.
Proof.
  unfold handlers.handleWebhook. case_decide; [done|].
  destruct (handlers.resolveNamespace _) as [namespace|err]; [|by case_decide].
  destruct (handlers.jsonBody req) as [payload|]; [|done].
  destruct (handlers.validateNamespacePolicy namespace source);
    [by repeat case_decide|].
  destruct (handlers.dynamicClient env) as [create|]; [|done].
  destruct (create _ _); [|done]. simpl. intros [= <- <-]. split; [done|].
  unfold handlers.createSessionFromWebhook, GetNamespace, metaString.
  by simplify_map_eq.
Qed.

(** C4.  The Session that the handler creates for a request
    authenticated by an API key lies in the namespace bound to that key;
    two requests with the same key, whatever their payloads, sources and
    the other circumstances are, have their sessions created in the same
    namespace. *)
Theorem C4_namespace_from_credential env env' req req' source source' ns ns' s s' :
  handlers.apiKeyHeader req = handlers.apiKeyHeader req' →
  (handlers.handleWebhook env req source).2 = Some (ns, s) →
  (handlers.handleWebhook env' req' source').2 = Some (ns', s') →
  handlers.resolveNamespace (handlers.apiKeyHeader req) = inl ns
  ∧ ns' = ns ∧ GetNamespace s = ns ∧ GetNamespace s' = ns.
Proof.
  intros Hkey [Hr Hn]%handleWebhook_created [Hr' Hn']%handleWebhook_created.
  rewrite <- Hkey, Hr in Hr'. injection Hr' as <-. done.
Qed.



(** ** The session manager *)

Lemma GetName_sessionObject sessionID namespace spec :
  GetName (services.sessionObject sessionID namespace spec) = sessionID.
Proof. unfold services.sessionObject, GetName, metaString. by simplify_map_eq. Qed.

(** C10 (as amended).  The name of a session is made of the Unix time in
    whole seconds alone: two calls of CreateSession within the same
    second use the same name, and when they are for the same namespace
    and the first has created its session, the second fails with an
    error of the API server and leaves the store as it was. *)
Theorem C10_same_second_same_name admission admission' t t' spec spec' namespace st :
  services.Unix t = services.Unix t' →
  services.generateSessionID t = services.generateSessionID t'
  ∧ ∀ st1 created,
      services.CreateSession admission t st spec namespace = (st1, inr created) →
      ∃ err,
        services.CreateSession admission' t' st1 spec' namespace = (st1, inl err).
Proof.
  intros Hsec. unfold services.generateSessionID. rewrite Hsec. split; [done|].
  intros st1 created. unfold services.CreateSession, services.generateSessionID.
  rewrite Hsec. unfold services.Create. rewrite !GetName_sessionObject.
  destruct (admission _); [done|].
  destruct (st !! _) eqn:Hst; [done|]. intros [= <- <-].
  destruct (admission' _); [eauto|].
  rewrite lookup_insert_eq. eauto.
Qed.

(** ** Instances and counterexamples *)

(** C1, as stated, fails: a session in the phase Stopped is reset to
    Pending by the session reconciler, a session in the phase TimedOut
    that violates the policy is marked Failed by the policy reconciler,
    and an update from Completed to Running is admitted. *)
Lemma C1_counterexample :
  let stopped := examples.withStatus "Stopped" [examples.created] examples.alpha in
  let timedOut := examples.withStatus "TimedOut" [examples.created] examples.alpha in
  let completed := examples.withStatus "Completed" [examples.created] examples.alpha in
  controllers.SessionReconciler.getPhase stopped = "Stopped"
  ∧ option_map controllers.SessionReconciler.getPhase
      (controllers.SessionReconciler.Reconcile examples.quiet (Found stopped)).2
    = Some "Pending"
  ∧ controllers.SessionReconciler.getPhase timedOut = "TimedOut"
  ∧ map (λ sw : object * option object,
           option_map controllers.SessionReconciler.getPhase sw.2)
      (controllers.PolicyReconciler.markViolations examples.quiet
         examples.strictPolicy [timedOut]).1
    = [Some "Failed"]
  ∧ controllers.SessionReconciler.getPhase completed = "Completed"
  ∧ controllers.SessionReconciler.getPhase (withPhase (VStr "Running") completed)
    = "Running"
  ∧ webhooks.Handle examples.noPolicies json.Marshal
      (examples.update completed (withPhase (VStr "Running") completed))
    = webhooks.Allowed.
Proof. vm_compute. repeat split; reflexivity. Qed.

(** C1 (as amended) on a Completed session. *)
Lemma C1_witness :
  let completed := examples.withStatus "Completed" [examples.created] examples.alpha in
  controllers.SessionReconciler.getPhase completed = "Completed"
  ∧ (controllers.SessionReconciler.Reconcile examples.quiet (Found completed)).2
    = None.
Proof.
  split; [vm_compute; reflexivity|].
  apply (C1_phase_transitions examples.quiet examples.noPolicies json.Marshal).
  left. vm_compute. reflexivity.
Defined.

(** C2, as stated, fails: an update that changes the name, the namespace,
    the trigger and the framework of a session is admitted. *)
Lemma C2_counterexample :
  let old := examples.withStatus "Running" [examples.created] examples.alpha in
  let new :=
    examples.withStatus "Running" [examples.created; examples.started]
      examples.other in
  (GetName old = "session-1" ∧ GetName new = "session-2")
  ∧ (GetNamespace old = "team-alpha" ∧ GetNamespace new = "team-beta")
  ∧ (stringAt ["spec"; "trigger"; "source"] old = Some "github"
     ∧ stringAt ["spec"; "trigger"; "source"] new = Some "manual")
  ∧ (stringAt ["spec"; "framework"; "type"] old = Some "claude-code"
     ∧ stringAt ["spec"; "framework"; "type"] new = Some "bash-runner")
  ∧ webhooks.Handle examples.noPolicies json.Marshal (examples.update old new)
    = webhooks.Allowed.
Proof. vm_compute. repeat split; reflexivity. Qed.

(** C2 (as amended) on an update that replaces the metadata and the spec. *)
Lemma C2_witness :
  let old := examples.withStatus "Running" [examples.created] examples.alpha in
  let new := examples.withStatus "Running" [examples.created] examples.other in
  new !! "status" = old !! "status"
  ∧ webhooks.Handle examples.noPolicies json.Marshal (examples.update old new)
    = webhooks.Allowed.
Proof.
  split; [vm_compute; reflexivity|].
  eapply (C2_update_reads_status_only examples.noPolicies json.Marshal);
    [reflexivity..|vm_compute; reflexivity].
Defined.

(** C3 on an update that appends one entry to a history of one. *)
Lemma C3_witness :
  let old := examples.withStatus "Running" [examples.created] examples.alpha in
  let new :=
    examples.withStatus "Running" [examples.created; examples.started]
      examples.alpha in
  webhooks.Handle examples.noPolicies json.Marshal (examples.update old new)
  = webhooks.Allowed
  ∧ ∃ new' newHistory,
      webhooks.Object (examples.update old new) = Some new'
      ∧ historyOf new' = Some newHistory
      ∧ (length [examples.created] ≤ length newHistory)%nat
      ∧ prefixUnmodified json.Marshal [examples.created] newHistory.
Proof.
  assert (webhooks.Handle examples.noPolicies json.Marshal
            (examples.update
               (examples.withStatus "Running" [examples.created] examples.alpha)
               (examples.withStatus "Running"
                  [examples.created; examples.started] examples.alpha))
          = webhooks.Allowed) as Hallowed by (vm_compute; reflexivity).
  split; [exact Hallowed|].
  eapply (C3_history_append_only examples.noPolicies json.Marshal);
    [reflexivity|reflexivity|vm_compute; reflexivity|discriminate|exact Hallowed].
Defined.

(** C5, as stated, fails: with 10.00 left of the monthly budget, a create
    that asks for 10.01 is admitted like the one that asks for 10.00. *)
Lemma C5_counterexample :
  (stringAt ["spec"; "models"; "budget"; "monthly"] examples.alphaPolicy
   = Some "100.00"
   ∧ stringAt ["status"; "usage"; "budget"; "currentPeriod"] examples.alphaPolicy
     = Some "90.00")
  ∧ (stringAt ["spec"; "policy"; "modelConstraints"; "budget"] examples.alpha
     = Some "10.00"
     ∧ webhooks.Handle examples.alphaOnly json.Marshal
         (examples.create examples.alpha) = webhooks.Allowed)
  ∧ (stringAt ["spec"; "policy"; "modelConstraints"; "budget"] examples.overBudget
     = Some "10.01"
     ∧ webhooks.Handle examples.alphaOnly json.Marshal
         (examples.create examples.overBudget) = webhooks.Allowed).
Proof. vm_compute. repeat split; reflexivity. Qed.

(** C6 on a create that the policy of team-alpha admits, and on the
    same create in a cluster without policies. *)
Lemma C6_witness :
  (webhooks.Handle examples.alphaOnly json.Marshal (examples.create examples.alpha)
   = webhooks.Allowed
   ∧ ∀ models r,
       requested examples.alpha "modelConstraints" = Some models → r ∈ models →
       (∀ al, policyList examples.alphaPolicy "models" "allowed" = Some al →
              al ≠ [] → r ∈ al)
       ∧ (∀ bl, policyList examples.alphaPolicy "models" "blocked" = Some bl →
                r ∉ bl))
  ∧ (examples.noPolicies (GetNamespace examples.alpha) "policy" = NotFound
     ∧ webhooks.Handle examples.noPolicies json.Marshal
         (examples.create examples.alpha)
       = webhooks.Allowed).
Proof.
  assert (webhooks.Handle examples.alphaOnly json.Marshal
            (examples.create examples.alpha) = webhooks.Allowed) as Hallowed
    by (vm_compute; reflexivity).
  split.
  - split; [exact Hallowed|].
    eapply (C6_policy_constraints_on_create examples.alphaOnly json.Marshal
              (examples.create examples.alpha) examples.alpha);
      [reflexivity|reflexivity|vm_compute; reflexivity|exact Hallowed].
  - split; [reflexivity|].
    eapply (C6_policy_constraints_on_create examples.noPolicies json.Marshal
              (examples.create examples.alpha) examples.alpha);
      [reflexivity|reflexivity|reflexivity|vm_compute; discriminate
      |vm_compute; reflexivity].
Defined.

(** C7: the session reconciler on a Pending session that passes the
    checks; the entry appended to the history has the event
    PhaseChangedRunning. *)
Lemma C7_failing_input :
  match (controllers.SessionReconciler.Reconcile examples.quiet
           (Found examples.alpha)).2 with
  | Some w =>
      controllers.SessionReconciler.getPhase w = "Running"
      ∧ map eventOf (default [] (historyOf w)) = [Some "PhaseChangedRunning"]
  | None => False
  end.
Proof. vm_compute. split; reflexivity. Qed.

(** C4 on two requests under one key, the second with a payload that
    names another tenant and sent to another source. *)
Lemma C4_witness :
  handlers.apiKeyHeader examples.opened = handlers.apiKeyHeader examples.hinted
  ∧ (option_map fst
       (handlers.handleWebhook examples.ingress examples.opened "github").2
     = Some "team-alpha"
     ∧ option_map fst
         (handlers.handleWebhook examples.ingress examples.hinted "slack").2
       = Some "team-alpha")
  ∧ handlers.resolveNamespace (handlers.apiKeyHeader examples.opened)
    = inl "team-alpha".
Proof.
  split; [reflexivity|]. split; [vm_compute; split; reflexivity|].
  destruct (handlers.handleWebhook examples.ingress examples.opened "github").2
    as [[ns s]|] eqn:H1; [|vm_compute in H1; discriminate].
  destruct (handlers.handleWebhook examples.ingress examples.hinted "slack").2
    as [[ns' s']|] eqn:H2; [|vm_compute in H2; discriminate].
  assert (ns = "team-alpha") as Hns by (vm_compute in H1; congruence).
  rewrite <- Hns.
  apply (C4_namespace_from_credential examples.ingress examples.ingress
           examples.opened examples.hinted "github" "slack" ns ns' s s');
    [reflexivity|exact H1|exact H2].
Defined.

(** C8: a request for the GitHub webhook without the header X-API-Key.
    The handler replies 400 and the middleware 401; a request with a key
    that is bound to nothing gets 401 from both. *)
Lemma C8_failing_input :
  handlers.apiKeyHeader examples.anonymous = ""
  ∧ handlers.code
      (handlers.HandleGitHubWebhook examples.ingress examples.anonymous).1 = 400
  ∧ middleware.SimpleAPIKeyAuth [("github", "test-api-key-123")]
      (handlers.apiKeyHeader examples.anonymous)
    = inl {| middleware.code := 401; middleware.error := "API key required" |}
  ∧ handlers.code
      (handlers.HandleGitHubWebhook examples.ingress examples.forged).1 = 401
  ∧ middleware.SimpleAPIKeyAuth [("github", "test-api-key-123")]
      (handlers.apiKeyHeader examples.forged)
    = inl {| middleware.code := 401; middleware.error := "Invalid API key" |}.
Proof. vm_compute. repeat split; reflexivity. Qed.

(** C9, as stated, fails: a DELETE request, whose object does not decode,
    is answered with the error status 400. *)
Lemma C9_counterexample :
  webhooks.Operation (examples.delete examples.alpha) = "DELETE"
  ∧ webhooks.Handle examples.noPolicies json.Marshal
      (examples.delete examples.alpha)
    = webhooks.Errored 400.
Proof. vm_compute. split; reflexivity. Qed.

(** C9 (as amended) on a CONNECT request. *)
Lemma C9_witness :
  webhooks.Handle examples.noPolicies json.Marshal
    (examples.connect examples.generic)
  = webhooks.Allowed.
Proof.
  apply (proj1 (C9_other_operations_allowed examples.noPolicies json.Marshal
                  (examples.connect examples.generic)
                  ltac:(discriminate) ltac:(discriminate)) examples.generic).
  reflexivity.
Defined.

(** C10, as stated, fails: two calls within the same second for two
    namespaces use the same name and both create their session. *)
Lemma C10_counterexample :
  let first :=
    services.CreateSession examples.admitAll examples.t0 ∅ examples.manual
      "team-alpha" in
  let second :=
    services.CreateSession examples.admitAll examples.t1 first.1 examples.manual
      "team-beta" in
  services.Unix examples.t0 = services.Unix examples.t1
  ∧ match first.2, second.2 with
    | inr a, inr b =>
        GetName a = "session-1700000000" ∧ GetName b = "session-1700000000"
        ∧ GetNamespace a = "team-alpha" ∧ GetNamespace b = "team-beta"
    | _, _ => False
    end
  ∧ size second.1 = 2%nat.
Proof. vm_compute. repeat split; reflexivity. Qed.

(** C10 (as amended) on two calls in one second for team-alpha. *)
Lemma C10_witness :
  let first :=
    services.CreateSession examples.admitAll examples.t0 ∅ examples.manual
      "team-alpha" in
  services.Unix examples.t0 = services.Unix examples.t1
  ∧ ∃ err,
      services.CreateSession examples.admitAll examples.t1 first.1 examples.manual
        "team-alpha"
      = (first.1, inl err).
Proof.
  cbv zeta. split; [vm_compute; reflexivity|].
  destruct (services.CreateSession examples.admitAll examples.t0 ∅
              examples.manual "team-alpha") as [st1 [err|created]] eqn:Hc;
    [vm_compute in Hc; discriminate|].
  simpl.
  apply (proj2 (C10_same_second_same_name examples.admitAll examples.admitAll
                  examples.t0 examples.t1 examples.manual examples.manual
                  "team-alpha" ∅ ltac:(vm_compute; reflexivity)) st1 created Hc).
Defined.

(** * Further properties

    Pagination, the composition of admission with the reconcilers, the
    life of a session, the status updater, the workload status, the
    checks on a policy and the backend. *)

Lemma wrap64_small z : isInt z → SessionManager.wrap64 z = z.
Proof.
  unfold isInt, SessionManager.wrap64. intros Hz.
  rewrite Z.mod_small by lia. lia.
Qed.

Lemma wrap64_over z :
  (2 ^ 63 ≤ z < 2 ^ 64)%Z → SessionManager.wrap64 z = (z - 2 ^ 64)%Z.
Proof.
  unfold SessionManager.wrap64. intros Hz.
  replace (z + 2 ^ 63)%Z with ((z - 2 ^ 63) + 1 * 2 ^ 64)%Z by lia.
  rewrite Z.mod_add by lia. rewrite Z.mod_small by lia. lia.
Qed.

Lemma applyPagination_window {A} (l : list A) o :
  (0 < SessionManager.Limit o)%Z → (0 ≤ SessionManager.Offset o)%Z →
  (SessionManager.Offset o + SessionManager.Limit o < 2 ^ 63)%Z →
  SessionManager.applyPagination l o
  = Some (take (Z.to_nat (SessionManager.Limit o))
            (drop (Z.to_nat (SessionManager.Offset o)) l)).
Proof.
  intros HL Hoff Hsum. unfold SessionManager.applyPagination.
  case_decide as H0; [lia|].
  case_decide as Hlen.
  - rewrite drop_ge by lia. by rewrite take_nil.
  - rewrite wrap64_small by (unfold isInt; lia).
    unfold SessionManager.slice.
    destruct (decide (Z.of_nat (List.length l)
                      < SessionManager.Offset o + SessionManager.Limit o)%Z)
      as [Hend|Hend].
    + rewrite decide_True by lia. f_equal.
      rewrite !take_ge; [done|rewrite length_drop; lia..].
    + rewrite decide_True by lia. do 2 f_equal. lia.
Qed.

(** X1.  With a positive limit and an offset that is not negative, the
    page is the window of [Limit] sessions that starts at [Offset]: the
    first [Limit] sessions of the list without its first [Offset] ones.
    It holds [Limit] sessions, or the sessions left from the offset to
    the end of the list when these are fewer, and none when the offset
    lies beyond the end. *)
Theorem applyPagination_page {A} (l : list A) o :
  (0 < SessionManager.Limit o)%Z → (0 ≤ SessionManager.Offset o)%Z →
  (SessionManager.Offset o + SessionManager.Limit o < 2 ^ 63)%Z →
  ∃ p, SessionManager.applyPagination l o = Some p
       ∧ p = take (Z.to_nat (SessionManager.Limit o))
               (drop (Z.to_nat (SessionManager.Offset o)) l)
       ∧ Z.of_nat (List.length p)
         = Z.min (SessionManager.Limit o)
             (Z.max 0 (Z.of_nat (List.length l) - SessionManager.Offset o)).
Proof.
  intros HL Hoff Hsum. eexists. split; [by apply applyPagination_window|].
  split; [done|]. rewrite length_take, length_drop. lia.
Qed.

Lemma applyPagination_page_witness :
  ∃ p, SessionManager.applyPagination ["a"; "b"; "c"] (pageAt cases.firstPage 2 2)
       = Some p
       ∧ p = ["c"]
       ∧ Z.of_nat (List.length p) = Z.min 2 (Z.max 0 (3 - 2)).
Proof.
  by apply (applyPagination_page ["a"; "b"; "c"] (pageAt cases.firstPage 2 2)).
Defined.

(** X2.  Pages tile the list: the page at an offset followed by the
    page at that offset plus the limit is the page of twice the limit at
    the offset, so that walking the offsets in steps of the limit loses
    and repeats no session. *)
Theorem applyPagination_consecutive {A} (l : list A) o offset limit :
  (0 < limit)%Z → (0 ≤ offset)%Z → (offset + 2 * limit < 2 ^ 63)%Z →
  ∃ p q,
    SessionManager.applyPagination l (pageAt o offset limit) = Some p
    ∧ SessionManager.applyPagination l (pageAt o (offset + limit) limit) = Some q
    ∧ SessionManager.applyPagination l (pageAt o offset (2 * limit))
      = Some (p ++ q)%list.
Proof.
  intros HL Hoff Hsum.
  rewrite !applyPagination_window by (simpl; lia). simpl.
  eexists _, _. split_and!; [done..|]. f_equal.
  replace (Z.to_nat (2 * limit)) with (Z.to_nat limit + Z.to_nat limit)%nat by lia.
  replace (Z.to_nat (offset + limit)) with (Z.to_nat offset + Z.to_nat limit)%nat by lia.
  rewrite <- drop_drop. by rewrite take_take_drop.
Qed.

Lemma applyPagination_consecutive_witness :
  ∃ p q,
    SessionManager.applyPagination ["a"; "b"; "c"] (pageAt cases.firstPage 0 2) = Some p
    ∧ SessionManager.applyPagination ["a"; "b"; "c"] (pageAt cases.firstPage (0 + 2) 2) = Some q
    ∧ SessionManager.applyPagination ["a"; "b"; "c"] (pageAt cases.firstPage 0 (2 * 2))
      = Some (p ++ q)%list.
Proof. by apply (applyPagination_consecutive ["a"; "b"; "c"] cases.firstPage 0 2). Defined.

(** X3.  The call aborts on a slice out of bounds exactly when the
    limit is positive, the offset lies before the end of the list and
    either the offset is negative or offset plus limit exceeds the
    largest [int]. *)
Theorem applyPagination_panics {A} (l : list A) o :
  isInt (SessionManager.Limit o) → isInt (SessionManager.Offset o) →
  SessionManager.applyPagination l o = None ↔
  (0 < SessionManager.Limit o)%Z
  ∧ (SessionManager.Offset o < Z.of_nat (List.length l))%Z
  ∧ ((SessionManager.Offset o < 0)%Z
     ∨ (2 ^ 63 ≤ SessionManager.Offset o + SessionManager.Limit o)%Z).
Proof.
  unfold isInt. intros HL Hoff.
  destruct (decide (SessionManager.Limit o ≤ 0)%Z) as [H0|H0].
  { unfold SessionManager.applyPagination. rewrite decide_True by done.
    split; [done|lia]. }
  destruct (decide (Z.of_nat (List.length l) ≤ SessionManager.Offset o)%Z)
    as [Hlen|Hlen].
  { unfold SessionManager.applyPagination.
    rewrite decide_False, decide_True by done. split; [done|lia]. }
  destruct (decide (SessionManager.Offset o < 0)%Z) as [Hneg|Hneg].
  { split; [lia|]. intros _. unfold SessionManager.applyPagination.
    rewrite !decide_False by done.
    unfold SessionManager.slice. by rewrite decide_False by lia. }
  destruct (decide (2 ^ 63 ≤ SessionManager.Offset o + SessionManager.Limit o)%Z)
    as [Hover|Hover].
  { split; [lia|]. intros _. unfold SessionManager.applyPagination.
    rewrite !decide_False by done.
    rewrite wrap64_over by lia.
    rewrite decide_False by lia.
    unfold SessionManager.slice. by rewrite decide_False by lia. }
  rewrite applyPagination_window by lia. split; [done|lia].
Qed.

Lemma applyPagination_panics_witness :
  SessionManager.applyPagination ["a"; "b"; "c"] (pageAt cases.firstPage (-1) 2) = None.
Proof.
  apply (applyPagination_panics ["a"; "b"; "c"] (pageAt cases.firstPage (-1) 2));
    unfold isInt; simpl; lia.
Defined.

Lemma matchesAny_strings r l :
  isString r → allStrings l →
  (matchesAny r l = Some true ∧ r ∈ l) ∨ (matchesAny r l = Some false ∧ r ∉ l).
Proof.
  intros [s ->] Hl.
  assert (∃ b, matchesAny (VStr s) l = Some b) as [[] Hb].
  { induction Hl as [|x l [t ->] _ IH]; simpl; [by eexists|].
    case_decide; [by eexists|done]. }
  - left. split; [done|]. by apply matchesAny_true.
  - right. split; [done|]. by apply matchesAny_false.
Qed.

Lemma andThen_not_Panics {E} (c k : outcome E) :
  c ≠ Panics → k ≠ Panics → c >>- k ≠ Panics.
Proof. by destruct c. Qed.

Lemma allInAllowed_strings mk req al :
  allStrings req → allStrings al →
  webhooks.allInAllowed mk req al ≠ Panics
  ∧ (webhooks.allInAllowed mk req al = Nil ↔ ∀ x, x ∈ req → x ∈ al).
Proof.
  intros Hreq Hal. induction Hreq as [|x req Hx _ IH]; simpl.
  - split; [done|]. split; [|done]. intros _ x Hx. by apply elem_of_nil in Hx.
  - destruct (matchesAny_strings x al Hx Hal) as [[-> Hin]|[-> Hin]].
    + destruct IH as [IH1 IH2]. split; [done|]. rewrite IH2. split.
      * intros H y [->|Hy]%elem_of_cons; auto.
      * intros H y Hy. apply H. by apply list_elem_of_further.
    + destruct Hx as [s ->]. split; [done|]. split; [done|].
      intros H. destruct Hin. apply H, list_elem_of_here.
Qed.

Lemma noneInBlocked_strings mk req bl :
  allStrings req → allStrings bl →
  webhooks.noneInBlocked mk req bl ≠ Panics
  ∧ (webhooks.noneInBlocked mk req bl = Nil ↔ ∀ x, x ∈ req → x ∉ bl).
Proof.
  intros Hreq Hbl. induction Hreq as [|x req Hx _ IH]; simpl.
  - split; [done|]. split; [|done]. intros _ x Hx. by apply elem_of_nil in Hx.
  - destruct (matchesAny_strings x bl Hx Hbl) as [[-> Hin]|[-> Hin]].
    + destruct Hx as [s ->]. split; [done|]. split; [done|].
      intros H. by destruct (H (VStr s) (list_elem_of_here _ _)).
    + destruct IH as [IH1 IH2]. split; [done|]. rewrite IH2. split.
      * intros H y [->|Hy]%elem_of_cons; auto.
      * intros H y Hy. apply H. by apply list_elem_of_further.
Qed.

Lemma frameworkNotBlocked_strings bl ft :
  allStrings bl →
  webhooks.frameworkNotBlocked bl ft ≠ Panics
  ∧ (webhooks.frameworkNotBlocked bl ft = Nil ↔ VStr ft ∉ bl).
Proof.
  induction 1 as [|x bl [s ->] _ [IH1 IH2]]; simpl.
  - split; [done|]. split; [|done]. intros _. apply not_elem_of_nil.
  - case_decide as Heq.
    + subst. split; [done|]. split; [done|]. intros H.
      destruct H. apply list_elem_of_here.
    + split; [done|]. rewrite IH2, not_elem_of_cons. split; [|tauto].
      intros H. split; [congruence|done].
Qed.

Lemma frameworkIsAllowed_strings al ft :
  allStrings al →
  (webhooks.frameworkIsAllowed al ft = Some true ∧ VStr ft ∈ al)
  ∨ (webhooks.frameworkIsAllowed al ft = Some false ∧ VStr ft ∉ al).
Proof.
  induction 1 as [|x al [s ->] _ IH]; simpl.
  - right. split; [done|]. apply not_elem_of_nil.
  - case_decide as Heq.
    + subst. left. split; [done|]. apply list_elem_of_here.
    + destruct IH as [[-> Hin]|[-> Hin]].
      * left. split; [done|]. by apply list_elem_of_further.
      * right. split; [done|]. apply not_elem_of_cons. split; [congruence|done].
Qed.

(** The three checks of the validator on lists of strings. *)
Lemma validateFrameworkConstraints_strings session policy :
  from_option allStrings True (policyList policy "frameworks" "blocked") →
  from_option allStrings True (policyList policy "frameworks" "allowed") →
  let r := webhooks.validateFrameworkConstraints
             (mapOrNil (session !! "spec")) (mapOrNil (policy !! "spec")) in
  r ≠ Panics
  ∧ (r = Nil ↔
     within (option_map (λ ft, [VStr ft]) (frameworkOf session))
       (policyList policy "frameworks" "allowed")
       (policyList policy "frameworks" "blocked")).
Proof.
  unfold webhooks.validateFrameworkConstraints, within, frameworkOf, policyList.
  destruct (asMap (mapOrNil (session !! "spec") !! "framework")) as [fw|]; simpl;
    [|by intros].
  destruct (asMap (mapOrNil (policy !! "spec") !! "frameworks")) as [fs|]; simpl.
  2: { intros _ _. split; [done|]. split; [|done]. by intros. }
  set (ft := stringOrZero (fw !! "type")).
  intros Hbl Hal.
  assert (∀ l x, Some [VStr ft] = Some l → x ∈ l → x = VStr ft) as Hsingle.
  { intros l x [= <-] Hx. by apply list_elem_of_singleton in Hx. }
  destruct (asList (fs !! "blocked")) as [bl|]; simpl in *.
  - destruct (frameworkNotBlocked_strings bl ft Hbl) as [Hp Hn].
    destruct (asList (fs !! "allowed")) as [al|]; simpl in *.
    + destruct (frameworkIsAllowed_strings al ft Hal) as [[-> Hin]|[-> Hin]];
        (split; [by apply andThen_not_Panics|]); rewrite andThen_Nil, Hn.
      * split.
        -- intros [Hb _] l x Hl Hx. rewrite (Hsingle l x Hl Hx).
           split; [by intros ? [= <-] | by intros ? [= <-]].
        -- intros H. split; [|done].
           by apply (H _ _ eq_refl (list_elem_of_here _ _)).
      * split; [by intros [_ ?]|]. intros H. destruct Hin.
        by apply (H _ _ eq_refl (list_elem_of_here _ _)).
    + split; [by apply andThen_not_Panics|].
      rewrite andThen_Nil, Hn. split.
      * intros [Hb _] l x Hl Hx. rewrite (Hsingle l x Hl Hx).
        split; [done | by intros ? [= <-]].
      * intros H. split; [|done].
        by apply (H _ _ eq_refl (list_elem_of_here _ _)).
  - destruct (asList (fs !! "allowed")) as [al|]; simpl in *.
    + destruct (frameworkIsAllowed_strings al ft Hal) as [[-> Hin]|[-> Hin]];
        (split; [done|]).
      * split; [|done]. intros _ l x Hl Hx. rewrite (Hsingle l x Hl Hx).
        split; [by intros ? [= <-] | done].
      * split; [done|]. intros H. destruct Hin.
        by apply (H _ _ eq_refl (list_elem_of_here _ _)).
    + split; [done|]. split; [|done]. by intros.
Qed.

Lemma lists_within mkA mkB req al bl :
  allStrings req → from_option allStrings True al → from_option allStrings True bl →
  let r :=
    match al with
    | Some allowed => webhooks.allInAllowed mkA req allowed
    | None => Nil
    end >>-
    match bl with
    | Some blocked => webhooks.noneInBlocked mkB req blocked
    | None => Nil
    end in
  r ≠ Panics ∧ (r = Nil ↔ within (Some req) al bl).
Proof.
  intros Hreq Hal Hbl. simpl. unfold within.
  assert (∀ (P : list value → value → Prop),
    (∀ l x, Some req = Some l → x ∈ l → P l x) ↔ (∀ x, x ∈ req → P req x)) as Hq.
  { intros P. split; [by eauto|]. intros H l x [= <-]. apply H. }
  rewrite Hq.
  destruct al as [al|], bl as [bl|]; simpl in *.
  - destruct (allInAllowed_strings mkA req al Hreq Hal) as [Ha1 Ha2].
    destruct (noneInBlocked_strings mkB req bl Hreq Hbl) as [Hb1 Hb2].
    split; [by apply andThen_not_Panics|]. rewrite andThen_Nil, Ha2, Hb2. split.
    + intros [Ha Hb] x Hx. split; [intros ? [= <-]; auto | intros ? [= <-]; auto].
    + intros H. split; intros x Hx; by apply (H x Hx).
  - destruct (allInAllowed_strings mkA req al Hreq Hal) as [Ha1 Ha2].
    split; [by apply andThen_not_Panics|]. rewrite andThen_Nil, Ha2. split.
    + intros [Ha _] x Hx. split; [intros ? [= <-]; auto | done].
    + intros H. split; [|done]. intros x Hx. by apply (H x Hx).
  - destruct (noneInBlocked_strings mkB req bl Hreq Hbl) as [Hb1 Hb2].
    split; [done|]. rewrite Hb2. split.
    + intros Hb x Hx. split; [done | intros ? [= <-]; auto].
    + intros H x Hx. by apply (H x Hx).
  - split; [done|]. split; [|done]. by intros.
Qed.

Lemma validateModelConstraints_strings session policy :
  from_option allStrings True (requested session "modelConstraints") →
  from_option allStrings True (policyList policy "models" "allowed") →
  from_option allStrings True (policyList policy "models" "blocked") →
  let r := webhooks.validateModelConstraints
             (mapOrNil (session !! "spec")) (mapOrNil (policy !! "spec")) in
  r ≠ Panics
  ∧ (r = Nil ↔
     within (requested session "modelConstraints")
       (policyList policy "models" "allowed")
       (policyList policy "models" "blocked")).
Proof.
  unfold webhooks.validateModelConstraints, requested, policyList,
    controllers.PolicyReconciler.requestedOf.
  destruct (asMap (mapOrNil (session !! "spec") !! "policy")) as [sp|]; simpl.
  2: { intros _ _ _. split; [done|]. split; [|done]. by intros _ ? ? [=]. }
  destruct (asMap (sp !! "modelConstraints")) as [mc|]; simpl.
  2: { intros _ _ _. split; [done|]. split; [|done]. by intros _ ? ? [=]. }
  destruct (asList (mc !! "allowed")) as [req|]; simpl.
  2: { intros _ _ _. split; [done|]. split; [|done]. by intros _ ? ? [=]. }
  destruct (asMap (mapOrNil (policy !! "spec") !! "models")) as [pm|]; simpl.
  2: { intros _ _ _. split; [done|]. split; [|done]. by intros _ ? ? _ _. }
  intros Hreq Hal Hbl.
  apply (lists_within webhooks.ModelNotAllowed webhooks.ModelBlocked req
           (asList (pm !! "allowed")) (asList (pm !! "blocked")) Hreq Hal Hbl).
Qed.

Lemma validateToolConstraints_strings session policy :
  from_option allStrings True (requested session "toolConstraints") →
  from_option allStrings True (policyList policy "tools" "allowed") →
  from_option allStrings True (policyList policy "tools" "blocked") →
  let r := webhooks.validateToolConstraints
             (mapOrNil (session !! "spec")) (mapOrNil (policy !! "spec")) in
  r ≠ Panics
  ∧ (r = Nil ↔
     within (requested session "toolConstraints")
       (policyList policy "tools" "allowed")
       (policyList policy "tools" "blocked")).
Proof.
  unfold webhooks.validateToolConstraints, requested, policyList,
    controllers.PolicyReconciler.requestedOf.
  destruct (asMap (mapOrNil (session !! "spec") !! "policy")) as [sp|]; simpl.
  2: { intros _ _ _. split; [done|]. split; [|done]. by intros _ ? ? [=]. }
  destruct (asMap (sp !! "toolConstraints")) as [mc|]; simpl.
  2: { intros _ _ _. split; [done|]. split; [|done]. by intros _ ? ? [=]. }
  destruct (asList (mc !! "allowed")) as [req|]; simpl.
  2: { intros _ _ _. split; [done|]. split; [|done]. by intros _ ? ? [=]. }
  destruct (asMap (mapOrNil (policy !! "spec") !! "tools")) as [pm|]; simpl.
  2: { intros _ _ _. split; [done|]. split; [|done]. by intros _ ? ? _ _. }
  intros Hreq Hal Hbl.
  apply (lists_within webhooks.ToolNotAllowed webhooks.ToolBlocked req
           (asList (pm !! "allowed")) (asList (pm !! "blocked")) Hreq Hal Hbl).
Qed.

Lemma validateSessionAgainstPolicy_strings session policy :
  listsOfStrings session policy →
  webhooks.validateSessionAgainstPolicy session policy ≠ Panics
  ∧ (webhooks.validateSessionAgainstPolicy session policy = Nil
     ↔ compliesWith session policy).
Proof.
  unfold listsOfStrings. rewrite !Forall_cons.
  intros (Hm & Ht & Hfb & Hfa & Hma & Hmb & Hta & Htb & _).
  destruct (validateFrameworkConstraints_strings session policy Hfb Hfa) as [F1 F2].
  destruct (validateModelConstraints_strings session policy Hm Hma Hmb) as [M1 M2].
  destruct (validateToolConstraints_strings session policy Ht Hta Htb) as [T1 T2].
  unfold webhooks.validateSessionAgainstPolicy, compliesWith.
  split; [by repeat apply andThen_not_Panics|].
  by rewrite !andThen_Nil, F2, M2, T2.
Qed.

(** X4.  Admission of a create against a policy, when the lists that
    are compared hold strings: the validator answers, and it admits the
    session exactly when the framework type is an available one, the
    session has a namespace, and framework type, requested models and
    requested tools are each in the allowed list of the policy if it has
    one and not in its blocked list if it has one. *)
Theorem create_admitted_iff client Marshal session policy :
  listsOfStrings session policy →
  client (GetNamespace session) "policy" = Found policy →
  webhooks.Handle client Marshal (examples.create session) ≠ webhooks.NoResponse
  ∧ (webhooks.Handle client Marshal (examples.create session) = webhooks.Allowed
     ↔ webhooks.validateFrameworkType session = Nil
       ∧ GetNamespace session ≠ ""
       ∧ compliesWith session policy).
Proof.
  intros Hstr Hpol.
  rewrite (Handle_create client Marshal (examples.create session) session eq_refl eq_refl).
  destruct (validateSessionAgainstPolicy_strings session policy Hstr) as [Hp Hn].
  split.
  - unfold webhooks.validateCreate, webhooks.validateAgainstNamespacePolicy.
    destruct (webhooks.validateFrameworkType session) eqn:Hft; [|done|].
    + case_decide; [done|]. rewrite Hpol.
      by destruct (webhooks.validateSessionAgainstPolicy session policy).
    + unfold webhooks.validateFrameworkType in Hft.
      repeat (destruct (asMap _) || destruct (asString _)); try done.
      by destruct (default false _).
  - rewrite validateCreate_Allowed. unfold webhooks.validateAgainstNamespacePolicy.
    case_decide as Hns; [intuition congruence|]. rewrite Hpol, Hn. tauto.
Qed.

Lemma create_admitted_iff_witness :
  webhooks.Handle examples.alphaOnly json.Marshal (examples.create examples.alpha)
    ≠ webhooks.NoResponse
  ∧ (webhooks.Handle examples.alphaOnly json.Marshal (examples.create examples.alpha)
       = webhooks.Allowed
     ↔ webhooks.validateFrameworkType examples.alpha = Nil
       ∧ GetNamespace examples.alpha ≠ ""
       ∧ compliesWith examples.alpha examples.alphaPolicy).
Proof.
  apply (create_admitted_iff examples.alphaOnly json.Marshal examples.alpha
           examples.alphaPolicy); [|reflexivity].
  unfold listsOfStrings. repeat (apply Forall_cons; split); try apply Forall_nil;
    vm_compute; repeat constructor; by eexists.
Defined.

(** X5.  A create whose first requested model is not a string makes
    the validator abort, without an answer, as soon as the policy of the
    namespace has a list of allowed models and the checks before the
    models pass. *)
Theorem create_aborts_on_untyped_model client Marshal session policy x rest al :
  webhooks.validateFrameworkType session = Nil →
  GetNamespace session ≠ "" →
  client (GetNamespace session) "policy" = Found policy →
  webhooks.validateFrameworkConstraints
    (mapOrNil (session !! "spec")) (mapOrNil (policy !! "spec")) = Nil →
  requested session "modelConstraints" = Some (x :: rest) → ¬ isString x →
  policyList policy "models" "allowed" = Some al →
  webhooks.Handle client Marshal (examples.create session) = webhooks.NoResponse.
Proof.
  intros Hft Hns Hpol Hfc Hreq Hx Hal.
  rewrite (Handle_create client Marshal (examples.create session) session eq_refl eq_refl).
  unfold webhooks.validateCreate, webhooks.validateAgainstNamespacePolicy.
  rewrite Hft. rewrite decide_False by done. rewrite Hpol.
  unfold webhooks.validateSessionAgainstPolicy. rewrite Hfc. simpl.
  unfold requested, controllers.PolicyReconciler.requestedOf in Hreq.
  unfold policyList in Hal.
  unfold webhooks.validateModelConstraints.
  destruct (asMap (mapOrNil (session !! "spec") !! "policy")) as [sp|]; [|done].
  destruct (asMap (sp !! "modelConstraints")) as [mc|]; [|done].
  rewrite Hreq.
  destruct (asMap (mapOrNil (policy !! "spec") !! "models")) as [pm|]; [|done].
  rewrite Hal. simpl.
  assert (matchesAny x al = None ∨ matchesAny x al = Some false) as [->| ->].
  { destruct al as [|a al]; simpl; [by right|]. left.
    destruct x; try done. destruct Hx. by eexists. }
  - done.
  - destruct x; try done. destruct Hx. by eexists.
Qed.

Lemma create_aborts_on_untyped_model_witness :
  webhooks.Handle examples.alphaOnly json.Marshal (examples.create cases.untyped)
  = webhooks.NoResponse.
Proof.
  apply (create_aborts_on_untyped_model examples.alphaOnly json.Marshal
           cases.untyped examples.alphaPolicy (VInt 3) [VStr "claude-3-sonnet"]
           [VStr "claude-3-sonnet"; VStr "claude-3-haiku"]);
    try (vm_compute; reflexivity); [done|].
  by intros [s Hs].
Defined.

(** X6.  On every operation but CREATE the validator answers: only the
    policy checks of a create can abort. *)
Theorem only_create_aborts client Marshal req :
  webhooks.Operation req ≠ "CREATE" →
  webhooks.Handle client Marshal req ≠ webhooks.NoResponse.
Proof.
  intros Hop. unfold webhooks.Handle, webhooks.validateUpdate.
  destruct (webhooks.Object req) as [new|]; [|done].
  rewrite decide_False by done. case_decide; [|done].
  destruct (webhooks.OldObject req) as [old|]; [|done].
  pose proof (validateHistoryAppendOnly_not_Panics Marshal old new).
  by destruct (webhooks.validateHistoryAppendOnly Marshal old new).
Qed.

Lemma only_create_aborts_witness :
  webhooks.Operation (examples.update cases.untyped cases.untyped) ≠ "CREATE"
  ∧ webhooks.Handle examples.alphaOnly json.Marshal
      (examples.update cases.untyped cases.untyped) ≠ webhooks.NoResponse.
Proof.
  split; [done|].
  by apply (only_create_aborts examples.alphaOnly json.Marshal).
Defined.

Lemma prefixUnmodified_trans Marshal h0 h1 h2 :
  prefixUnmodified Marshal h0 h1 → prefixUnmodified Marshal h1 h2 →
  prefixUnmodified Marshal h0 h2.
Proof.
  intros H01 H12 i e He. destruct (H01 i e He) as (e1 & He1 & Heq1).
  destruct (H12 i e1 He1) as (e2 & He2 & Heq2). exists e2. split; congruence.
Qed.

Lemma validateHistoryAppendOnly_trans Marshal old mid new :
  webhooks.validateHistoryAppendOnly Marshal old mid = Nil →
  webhooks.validateHistoryAppendOnly Marshal mid new = Nil →
  webhooks.validateHistoryAppendOnly Marshal old new = Nil.
Proof.
  destruct (historyOf old) as [h0|] eqn:H0.
  - rewrite (validateHistoryAppendOnly_Nil Marshal old mid h0 H0).
    intros (h1 & H1 & Hlen1 & Hpre1).
    rewrite (validateHistoryAppendOnly_Nil Marshal mid new h1 H1).
    intros (h2 & H2 & Hlen2 & Hpre2).
    rewrite (validateHistoryAppendOnly_Nil Marshal old new h0 H0).
    exists h2. split_and!; [done|lia|by eapply prefixUnmodified_trans].
  - intros _ _. unfold historyOf in H0. unfold webhooks.validateHistoryAppendOnly.
    destruct (asMap (old !! "status")); [|done]. by rewrite H0.
Qed.

(** X7.  Admitted updates compose: when the update from a first to a
    second version of a session and the update from the second to a third
    are admitted, so is the update from the first to the third; no chain
    of admitted updates removes or alters a history entry. *)
Theorem admitted_updates_compose client Marshal old mid new :
  webhooks.Handle client Marshal (examples.update old mid) = webhooks.Allowed →
  webhooks.Handle client Marshal (examples.update mid new) = webhooks.Allowed →
  webhooks.Handle client Marshal (examples.update old new) = webhooks.Allowed.
Proof.
  rewrite (Handle_update client Marshal (examples.update old mid) mid old
             eq_refl eq_refl eq_refl).
  rewrite (Handle_update client Marshal (examples.update mid new) new mid
             eq_refl eq_refl eq_refl).
  rewrite (Handle_update client Marshal (examples.update old new) new old
             eq_refl eq_refl eq_refl).
  pose proof (validateHistoryAppendOnly_trans Marshal old mid new) as Ht.
  destruct (webhooks.validateHistoryAppendOnly Marshal old mid); [|done..].
  destruct (webhooks.validateHistoryAppendOnly Marshal mid new); [|done..].
  by rewrite Ht.
Qed.

Lemma admitted_updates_compose_witness :
  webhooks.Handle examples.noPolicies json.Marshal
    (examples.update
       (examples.withStatus "Pending" [examples.created] examples.alpha)
       (examples.withStatus "Failed"
          [examples.created; examples.started; examples.started] examples.alpha))
  = webhooks.Allowed.
Proof.
  apply (admitted_updates_compose examples.noPolicies json.Marshal
           (examples.withStatus "Pending" [examples.created] examples.alpha)
           (examples.withStatus "Running"
              [examples.created; examples.started] examples.alpha));
    vm_compute; reflexivity.
Defined.

Lemma validateCreate_webhook client env sessionID namespace source payload :
  namespace ≠ "" → client namespace "policy" = NotFound →
  webhooks.validateCreate client
    (handlers.createSessionFromWebhook env sessionID namespace source payload)
  = webhooks.Allowed.
Proof.
  intros Hns Hpol. apply validateCreate_Allowed. split; [done|].
  unfold webhooks.validateAgainstNamespacePolicy.
  change (GetNamespace (handlers.createSessionFromWebhook env sessionID namespace
                          source payload)) with namespace.
  rewrite decide_False by done. by rewrite Hpol.
Qed.

(** X8.  Every session that the webhook handler creates passes the
    admission of creates in a namespace without policy: it is built with
    the framework type claude-code, which is an available one, and with
    the namespace of the API key, which is not empty. *)
Theorem webhook_sessions_admitted client Marshal env req source ns s :
  (handlers.handleWebhook env req source).2 = Some (ns, s) →
  client ns "policy" = NotFound →
  webhooks.Handle client Marshal (examples.create s) = webhooks.Allowed.
Proof.
  intros Hcreated Hpol.
  rewrite (Handle_create client Marshal (examples.create s) s eq_refl eq_refl).
  unfold handlers.handleWebhook in Hcreated.
  case_decide as Hkey; [done|].
  unfold handlers.resolveNamespace in Hcreated.
  destruct (handlers.keyToNamespace !! handlers.apiKeyHeader req) as [n|] eqn:Hn;
    [|by case_decide].
  destruct (handlers.jsonBody req) as [payload|]; [|done].
  destruct (handlers.validateNamespacePolicy n source) eqn:Hv;
    [by repeat case_decide|].
  destruct (handlers.dynamicClient env) as [create|]; [|done].
  destruct (create n _); [|done]. injection Hcreated as <- <-.
  apply validateCreate_webhook; [|done].
  intros ->. unfold handlers.keyToNamespace in Hn.
  apply lookup_insert_Some in Hn as [[_ [=]]|[_ Hn]].
  apply lookup_insert_Some in Hn as [[_ [=]]|[_ Hn]].
  apply lookup_insert_Some in Hn as [[_ [=]]|[_ Hn]].
  apply lookup_insert_Some in Hn as [[_ [=]]|[_ Hn]].
  by apply lookup_singleton_Some in Hn as [_ [=]].
Qed.

Lemma webhook_sessions_admitted_witness :
  webhooks.Handle examples.noPolicies json.Marshal
    (examples.create
       (handlers.createSessionFromWebhook examples.ingress
          "550e8400-e29b-41d4-a716-446655440000" "team-alpha" "github"
          (Some {[ "action" := VStr "opened" ]})))
  = webhooks.Allowed.
Proof.
  apply (webhook_sessions_admitted examples.noPolicies json.Marshal
           examples.ingress examples.opened "github" "team-alpha");
    vm_compute; reflexivity.
Defined.

Lemma allInAllowed_matches mk req al :
  webhooks.allInAllowed mk req al = Nil →
  Forall (λ x, matchesAny x al = Some true) req.
Proof.
  induction req as [|x req IH]; simpl; [by constructor|].
  destruct (matchesAny x al) as [[]|] eqn:Hm; try done.
  - intros H. constructor; auto.
  - by destruct x.
Qed.

Lemma noneInBlocked_matches mk req bl :
  webhooks.noneInBlocked mk req bl = Nil →
  Forall (λ x, matchesAny x bl = Some false) req.
Proof.
  induction req as [|x req IH]; simpl; [by constructor|].
  destruct (matchesAny x bl) as [[]|] eqn:Hm; try done.
  - by destruct x.
  - intros H. constructor; auto.
Qed.

Lemma reconciler_allInAllowed mk req al :
  Forall (λ x, matchesAny x al = Some true) req →
  controllers.SessionReconciler.allInAllowed mk req al = Nil.
Proof. induction 1 as [|x req Hx _ IH]; simpl; [done|]. by rewrite Hx. Qed.

Lemma validateModels_admitted sessionSpec policySpec :
  webhooks.validateModelConstraints sessionSpec policySpec = Nil →
  controllers.SessionReconciler.validateModels sessionSpec policySpec = Nil.
Proof.
  unfold webhooks.validateModelConstraints,
    controllers.SessionReconciler.validateModels.
  destruct (asMap (sessionSpec !! "policy")) as [sp|]; [|done].
  destruct (asMap (sp !! "modelConstraints")) as [mc|]; [|done].
  destruct (asList (mc !! "allowed")) as [req|]; [|done].
  destruct (asMap (policySpec !! "models")) as [pm|]; [|done].
  destruct (asList (pm !! "allowed")) as [al|]; [|done].
  intros [Ha _]%andThen_Nil.
  by eapply reconciler_allInAllowed, allInAllowed_matches.
Qed.

Lemma validateTools_admitted sessionSpec policySpec :
  webhooks.validateToolConstraints sessionSpec policySpec = Nil →
  controllers.SessionReconciler.validateTools sessionSpec policySpec = Nil.
Proof.
  unfold webhooks.validateToolConstraints,
    controllers.SessionReconciler.validateTools.
  destruct (asMap (sessionSpec !! "policy")) as [sp|]; [|done].
  destruct (asMap (sp !! "toolConstraints")) as [mc|]; [|done].
  destruct (asList (mc !! "allowed")) as [req|]; [|done].
  destruct (asMap (policySpec !! "tools")) as [pm|]; [|done].
  destruct (asList (pm !! "allowed")) as [al|]; [|done].
  intros [Ha _]%andThen_Nil.
  by eapply reconciler_allInAllowed, allInAllowed_matches.
Qed.

Lemma validateBudget_Nil sessionSpec policySpec :
  controllers.SessionReconciler.validateBudget sessionSpec policySpec = Nil.
Proof.
  unfold controllers.SessionReconciler.validateBudget.
  destruct (asMap (policySpec !! "models")) as [models|]; [|done].
  by destruct (asMap (models !! "budget")).
Qed.

(** X9.  What admission lets in, the session reconciler accepts: when
    validator and reconciler see the same policies, a session that was
    admitted on create passes the policy validation of the reconciler. *)
Theorem admitted_session_passes_reconciler env client Marshal session :
  sameCluster env client →
  webhooks.Handle client Marshal (examples.create session) = webhooks.Allowed →
  controllers.SessionReconciler.validatePolicy env session = Nil.
Proof.
  intros Hsame.
  rewrite (Handle_create client Marshal (examples.create session) session
             eq_refl eq_refl).
  intros [_ Hv]%validateCreate_Allowed.
  unfold webhooks.validateAgainstNamespacePolicy in Hv.
  case_decide; [done|].
  unfold controllers.SessionReconciler.validatePolicy. rewrite Hsame.
  destruct (client (GetNamespace session) "policy") as [policy| |]; [|done..].
  unfold webhooks.validateSessionAgainstPolicy in Hv.
  apply andThen_Nil in Hv as [_ [Hm Ht]%andThen_Nil].
  rewrite validateBudget_Nil. simpl.
  rewrite (validateModels_admitted _ _ Hm). simpl.
  by apply validateTools_admitted.
Qed.

Lemma admitted_session_passes_reconciler_witness :
  controllers.SessionReconciler.validatePolicy
    (cases.under examples.alphaPolicy) examples.alpha = Nil.
Proof.
  apply (admitted_session_passes_reconciler (cases.under examples.alphaPolicy)
           (λ _ _, Found examples.alphaPolicy) json.Marshal examples.alpha);
    [done | vm_compute; reflexivity].
Defined.

Lemma eachRequested_admitted mkB mkA req al bl :
  Forall (λ x, matchesAny x bl = Some false) req →
  ((0 < length al)%nat → Forall (λ x, matchesAny x al = Some true) req) →
  ∀ e, controllers.PolicyReconciler.eachRequested mkB mkA req al bl ≠ Failed e.
Proof.
  intros Hbl Hal e. induction Hbl as [|x req Hx _ IH]; simpl; [done|].
  destruct x; try done. rewrite Hx.
  case_decide as Hlen.
  - specialize (Hal Hlen). inversion Hal as [|?? Hy Hrest]; subst.
    rewrite Hy. apply IH. by intros _.
  - apply IH. intros ?. lia.
Qed.

Lemma eachRequested_strings mkB mkA req al bl :
  allStrings req →
  Forall (λ x, matchesAny x bl = Some false) req →
  ((0 < length al)%nat → Forall (λ x, matchesAny x al = Some true) req) →
  controllers.PolicyReconciler.eachRequested mkB mkA req al bl = Nil.
Proof.
  intros Hstr Hbl Hal. induction Hbl as [|x req Hx _ IH]; simpl; [done|].
  inversion Hstr as [|?? [s ->] Hstr']; subst. rewrite Hx.
  case_decide as Hlen.
  - specialize (Hal Hlen). inversion Hal as [|?? Hy Hrest]; subst.
    rewrite Hy. apply IH; [done|]. by intros _.
  - apply IH; [done|]. intros ?. lia.
Qed.

Lemma matchesAny_nil req : Forall (λ x, matchesAny x [] = Some false) req.
Proof. induction req; by constructor. Qed.

(** The lists that the policy reconciler compares, as seen by the
    checks of the validator that passed. *)
Lemma lists_admitted mkA mkB req al bl :
  match al with
  | Some allowed => webhooks.allInAllowed mkA req allowed
  | None => Nil
  end >>-
  match bl with
  | Some blocked => webhooks.noneInBlocked mkB req blocked
  | None => Nil
  end = Nil →
  Forall (λ x, matchesAny x (default [] bl) = Some false) req
  ∧ ((0 < length (default [] al))%nat →
     Forall (λ x, matchesAny x (default [] al) = Some true) req).
Proof.
  intros [Ha Hb]%andThen_Nil. split.
  - destruct bl as [bl|]; simpl; [by eapply noneInBlocked_matches|].
    apply matchesAny_nil.
  - destruct al as [al|]; simpl; [|lia]. intros _. by eapply allInAllowed_matches.
Qed.

Lemma checkSessionViolation_admitted session policy :
  webhooks.validateSessionAgainstPolicy session policy = Nil →
  (∀ e, controllers.PolicyReconciler.checkSessionViolation session policy ≠ Failed e)
  ∧ (from_option allStrings True (requested session "modelConstraints") →
     from_option allStrings True (requested session "toolConstraints") →
     controllers.PolicyReconciler.checkSessionViolation session policy = Nil).
Proof.
  unfold webhooks.validateSessionAgainstPolicy.
  intros [_ [Hm Ht]%andThen_Nil]%andThen_Nil.
  unfold controllers.PolicyReconciler.checkSessionViolation, requested.
  unfold webhooks.validateModelConstraints in Hm.
  unfold webhooks.validateToolConstraints in Ht.
  unfold controllers.PolicyReconciler.requestedOf.
  set (sessionSpec := mapOrNil (session !! "spec")) in *.
  set (policySpec := mapOrNil (policy !! "spec")) in *.
  assert (∀ c : outcome controllers.PolicyReconciler.error,
            (∀ e, c ≠ Failed e) → ∀ k, (∀ e, k ≠ Failed e) →
            ∀ e, c >>- k ≠ Failed e) as Hseq.
  { intros c Hc k Hk e. destruct c; simpl; auto. }
  destruct (asMap (sessionSpec !! "policy")) as [sp|]; simpl; [|done].
  assert (∀ (E : Type) (x : outcome E), x = Nil → Nil >>- x = Nil) as Hnil by done.
  split.
  - apply Hseq.
    + destruct (asMap (sp !! "modelConstraints")) as [mc|]; [|done].
      destruct (asList (mc !! "allowed")) as [req|]; [|done].
      unfold controllers.PolicyReconciler.checkModelAllowed,
        controllers.PolicyReconciler.getInterfaceSlice.
      destruct (asMap (policySpec !! "models")) as [pm|]; [|done].
      apply lists_admitted in Hm as [Hb Ha]. by apply eachRequested_admitted.
    + destruct (asMap (sp !! "toolConstraints")) as [tc|]; [|done].
      destruct (asList (tc !! "allowed")) as [req|]; [|done].
      unfold controllers.PolicyReconciler.checkToolsAllowed,
        controllers.PolicyReconciler.getInterfaceSlice.
      destruct (asMap (policySpec !! "tools")) as [pt|]; [|done].
      apply lists_admitted in Ht as [Hb Ha]. by apply eachRequested_admitted.
  - intros Hsm Hst. apply andThen_Nil. split.
    + destruct (asMap (sp !! "modelConstraints")) as [mc|]; [|done].
      destruct (asList (mc !! "allowed")) as [req|]; [|done].
      unfold controllers.PolicyReconciler.checkModelAllowed,
        controllers.PolicyReconciler.getInterfaceSlice.
      destruct (asMap (policySpec !! "models")) as [pm|]; [|done].
      apply lists_admitted in Hm as [Hb Ha]. by apply eachRequested_strings.
    + destruct (asMap (sp !! "toolConstraints")) as [tc|]; [|done].
      destruct (asList (tc !! "allowed")) as [req|]; [|done].
      unfold controllers.PolicyReconciler.checkToolsAllowed,
        controllers.PolicyReconciler.getInterfaceSlice.
      destruct (asMap (policySpec !! "tools")) as [pt|]; [|done].
      apply lists_admitted in Ht as [Hb Ha]. by apply eachRequested_strings.
Qed.

(** X10.  What admission lets in, the policy reconciler does not mark:
    a session admitted on create against a policy is never found in
    violation of that policy by [checkSessionViolation], and it passes
    the check when its requested models and tools are strings. *)
Theorem admitted_session_not_in_violation client Marshal session policy :
  client (GetNamespace session) "policy" = Found policy →
  webhooks.Handle client Marshal (examples.create session) = webhooks.Allowed →
  (∀ e, controllers.PolicyReconciler.checkSessionViolation session policy ≠ Failed e)
  ∧ (from_option allStrings True (requested session "modelConstraints") →
     from_option allStrings True (requested session "toolConstraints") →
     controllers.PolicyReconciler.checkSessionViolation session policy = Nil).
Proof.
  intros Hpol.
  rewrite (Handle_create client Marshal (examples.create session) session
             eq_refl eq_refl).
  intros [_ Hv]%validateCreate_Allowed.
  unfold webhooks.validateAgainstNamespacePolicy in Hv.
  case_decide; [done|]. rewrite Hpol in Hv.
  by apply checkSessionViolation_admitted.
Qed.

Lemma admitted_session_not_in_violation_witness :
  controllers.PolicyReconciler.checkSessionViolation
    examples.alpha examples.alphaPolicy = Nil.
Proof.
  apply (admitted_session_not_in_violation examples.alphaOnly json.Marshal
           examples.alpha examples.alphaPolicy);
    [reflexivity | vm_compute; reflexivity | |];
    vm_compute; repeat constructor; by eexists.
Defined.

(** X11.  An empty list of allowed models is not the absence of a
    restriction for the validator and the session reconciler, which
    refuse the first requested model, but it is for the policy reconciler,
    which accepts the session. *)
Theorem empty_allowed_list_diverges session policy r rest :
  requested session "modelConstraints" = Some (VStr r :: rest) →
  allStrings rest →
  policyList policy "models" "allowed" = Some [] →
  policyList policy "models" "blocked" = None →
  let sessionSpec := mapOrNil (session !! "spec") in
  let policySpec := mapOrNil (policy !! "spec") in
  webhooks.validateModelConstraints sessionSpec policySpec
    = Failed (webhooks.ModelNotAllowed r)
  ∧ controllers.SessionReconciler.validateModels sessionSpec policySpec
    = Failed (controllers.SessionReconciler.ModelNotAllowed (VStr r))
  ∧ controllers.PolicyReconciler.checkModelAllowed (VStr r :: rest) policySpec = Nil.
Proof.
  unfold requested, policyList, controllers.PolicyReconciler.requestedOf.
  intros Hreq Hrest Hal Hbl. simpl.
  unfold webhooks.validateModelConstraints,
    controllers.SessionReconciler.validateModels,
    controllers.PolicyReconciler.checkModelAllowed,
    controllers.PolicyReconciler.getInterfaceSlice.
  destruct (asMap (mapOrNil (session !! "spec") !! "policy")) as [sp|]; [|done].
  destruct (asMap (sp !! "modelConstraints")) as [mc|]; [|done].
  rewrite Hreq.
  destruct (asMap (mapOrNil (policy !! "spec") !! "models")) as [pm|]; [|done].
  rewrite Hal, Hbl. split_and!; [done..|].
  apply eachRequested_strings.
  - constructor; [by eexists|done].
  - apply matchesAny_nil.
  - simpl. lia.
Qed.

Lemma empty_allowed_list_diverges_witness :
  webhooks.validateModelConstraints
    (mapOrNil (examples.alpha !! "spec"))
    (mapOrNil (cases.nothingAllowed !! "spec"))
    = Failed (webhooks.ModelNotAllowed "claude-3-sonnet")
  ∧ controllers.PolicyReconciler.checkModelAllowed [VStr "claude-3-sonnet"]
      (mapOrNil (cases.nothingAllowed !! "spec")) = Nil.
Proof.
  destruct (empty_allowed_list_diverges examples.alpha cases.nothingAllowed
              "claude-3-sonnet" []) as (H1 & _ & H2);
    [vm_compute; reflexivity | constructor | vm_compute; reflexivity
    | vm_compute; reflexivity |].
  split; [exact H1 | exact H2].
Defined.

Lemma validateModels_allowed sessionSpec policySpec policySpec' :
  (match asMap (policySpec !! "models") with
   | Some m => asList (m !! "allowed") | None => None end)
  = (match asMap (policySpec' !! "models") with
     | Some m => asList (m !! "allowed") | None => None end) →
  controllers.SessionReconciler.validateModels sessionSpec policySpec
  = controllers.SessionReconciler.validateModels sessionSpec policySpec'.
Proof.
  intros Heq. unfold controllers.SessionReconciler.validateModels.
  destruct (asMap (sessionSpec !! "policy")) as [sp|]; [|done].
  destruct (asMap (sp !! "modelConstraints")) as [mc|]; [|done].
  destruct (asList (mc !! "allowed")) as [req|]; [|done].
  destruct (asMap (policySpec !! "models")) as [pm|],
           (asMap (policySpec' !! "models")) as [pm'|]; try done.
  - by rewrite Heq.
  - by rewrite Heq.
  - by rewrite <- Heq.
Qed.

Lemma validateTools_allowed sessionSpec policySpec policySpec' :
  (match asMap (policySpec !! "tools") with
   | Some m => asList (m !! "allowed") | None => None end)
  = (match asMap (policySpec' !! "tools") with
     | Some m => asList (m !! "allowed") | None => None end) →
  controllers.SessionReconciler.validateTools sessionSpec policySpec
  = controllers.SessionReconciler.validateTools sessionSpec policySpec'.
Proof.
  intros Heq. unfold controllers.SessionReconciler.validateTools.
  destruct (asMap (sessionSpec !! "policy")) as [sp|]; [|done].
  destruct (asMap (sp !! "toolConstraints")) as [mc|]; [|done].
  destruct (asList (mc !! "allowed")) as [req|]; [|done].
  destruct (asMap (policySpec !! "tools")) as [pm|],
           (asMap (policySpec' !! "tools")) as [pm'|]; try done.
  - by rewrite Heq.
  - by rewrite Heq.
  - by rewrite <- Heq.
Qed.

(** X12.  The policy validation of the session reconciler reads the
    lists of allowed models and of allowed tools of the policy and nothing
    else: two policies with the same two lists give the same result, so
    that blocked models, blocked tools and framework restrictions are not
    enforced at reconciliation. *)
Theorem reconciler_reads_allowed_lists_only env env' session policy policy' :
  controllers.getPolicy env (GetNamespace session) "policy" = Found policy →
  controllers.getPolicy env' (GetNamespace session) "policy" = Found policy' →
  policyList policy "models" "allowed" = policyList policy' "models" "allowed" →
  policyList policy "tools" "allowed" = policyList policy' "tools" "allowed" →
  controllers.SessionReconciler.validatePolicy env session
  = controllers.SessionReconciler.validatePolicy env' session.
Proof.
  unfold policyList. intros Hp Hp' Hm Ht.
  unfold controllers.SessionReconciler.validatePolicy. rewrite Hp, Hp'.
  rewrite !validateBudget_Nil. simpl.
  rewrite (validateModels_allowed _ _ _ Hm).
  by rewrite (validateTools_allowed _ _ _ Ht).
Qed.

Lemma reconciler_reads_allowed_lists_only_witness :
  webhooks.Handle (λ _ _, Found examples.strictPolicy) json.Marshal
    (examples.create examples.alpha)
  = webhooks.Denied (webhooks.PolicyViolation (webhooks.ModelBlocked "claude-3-sonnet"))
  ∧ controllers.SessionReconciler.validatePolicy
      (cases.under examples.strictPolicy) examples.alpha
    = controllers.SessionReconciler.validatePolicy
        (cases.under cases.lax) examples.alpha.
Proof.
  split; [vm_compute; reflexivity|].
  apply (reconciler_reads_allowed_lists_only (cases.under examples.strictPolicy)
           (cases.under cases.lax) examples.alpha examples.strictPolicy
           cases.lax); vm_compute; reflexivity.
Defined.

Lemma historyOf_None_admitted Marshal old new :
  historyOf old = None →
  webhooks.validateHistoryAppendOnly Marshal old new = Nil.
Proof.
  unfold historyOf, webhooks.validateHistoryAppendOnly.
  destruct (asMap (old !! "status")); [|done]. by intros ->.
Qed.

Lemma appended_admitted Marshal s w :
  appended s w → webhooks.validateHistoryAppendOnly Marshal s w = Nil.
Proof.
  intros [Hsame|[e He]]; [by apply validateHistoryAppendOnly_same_history|].
  destruct (historyOf s) as [h|] eqn:Hh; [|by apply historyOf_None_admitted].
  rewrite (validateHistoryAppendOnly_Nil Marshal s w h Hh).
  eexists. split; [exact He|]. simpl. split.
  - rewrite length_app. lia.
  - intros i x Hx. exists x. split; [|done].
    by apply lookup_app_l_Some.
Qed.

Lemma appended_refl s : appended s s.
Proof. by left. Qed.

Lemma appended_same s s' w :
  historyOf s' = historyOf s → appended s' w → appended s w.
Proof. unfold appended. by intros ->. Qed.

Lemma historyOf_workloadInfo s info :
  historyOf (<["status" := VMap (<["workload" := info]> (mapOrNil (s !! "status")))]> s)
  = historyOf s.
Proof.
  unfold historyOf. rewrite lookup_insert_eq. simpl.
  rewrite lookup_insert_ne by done. unfold mapOrNil.
  destruct (asMap (s !! "status")); simpl; [done|].
  by rewrite lookup_empty.
Qed.

Section ReconcilerHistory.

Import controllers controllers.SessionReconciler.

Variable env : Env.

Lemma createWorkload_history m :
  historyOf (session (createWorkload env m).1) = historyOf (session m)
  ∧ (written m = None →
     ∀ w, written (createWorkload env m).1 = Some w →
          historyOf w = historyOf (session m)).
Proof.
  unfold createWorkload.
  destruct (setControllerReference env _ _); simpl; [split; [done|congruence]|].
  destruct (createJob env _); simpl; [| |split; [done|congruence]];
    unfold updateWorkloadInfo; rewrite StatusUpdate_session;
    (split; [apply historyOf_workloadInfo|]);
    intros Hnone w [->|?]%StatusUpdate_written; try congruence;
    apply historyOf_workloadInfo.
Qed.

Lemma updatePhase_appended m phase message w :
  written (updatePhase env m phase message).1 = Some w →
  appended (session m) w ∨ written m = Some w.
Proof.
  intros [->|?]%updatePhase_written; [left|by right].
  right. eexists. apply historyOf_phaseUpdated.
Qed.

Lemma handlePending_appended m w :
  written m = None →
  written (handlePending env m).1 = Some w → appended (session m) w.
Proof.
  intros Hnone. unfold handlePending.
  destruct (validatePolicy env (session m)); simpl.
  - destruct (createWorkload_history m) as [Hs Hw].
    destruct (createWorkload env m) as [m' r]. simpl in *.
    specialize (Hw Hnone).
    destruct r; simpl.
    + intros [Ha|Hw']%updatePhase_appended;
        [by eapply appended_same | left; by apply Hw].
    + intros [Ha|Hw']%updatePhase_appended;
        [by eapply appended_same | left; by apply Hw].
    + intros Hw'. left. by apply Hw.
  - intros [Ha|Hw']%updatePhase_appended; [done|congruence].
  - congruence.
Qed.

Lemma handleRunning_appended m w :
  written m = None →
  written (handleRunning env m).1 = Some w → appended (session m) w.
Proof.
  intros Hnone. unfold handleRunning.
  destruct (checkWorkloadStatus env (session m)); simpl; [|congruence].
  repeat case_decide; simpl; try congruence.
  - intros [Ha|Hw']%updatePhase_appended; [done|congruence].
  - intros [Ha|Hw']%updatePhase_appended; [done|congruence].
Qed.

Lemma Reconcile_appended s w :
  (Reconcile env (Found s)).2 = Some w → appended s w.
Proof.
  unfold Reconcile.
  set (m := {| session := s; written := None |}).
  case_decide as Hp.
  - destruct (handlePending env m) as [m' r] eqn:Hh. simpl. intros Hw.
    apply (handlePending_appended m w eq_refl). by rewrite Hh.
  - case_decide as Hr.
    + destruct (handleRunning env m) as [m' r] eqn:Hh. simpl. intros Hw.
      apply (handleRunning_appended m w eq_refl). by rewrite Hh.
    + case_decide as Ht; [done|].
      destruct (updatePhase env m PhasePending _) as [m' r] eqn:Hu. simpl.
      intros Hw.
      assert (written (updatePhase env m PhasePending
                "Unknown phase detected, resetting to Pending").1 = Some w) as Hw'
        by by rewrite Hu.
      by apply updatePhase_appended in Hw' as [?|?].
Qed.

Lemma markSessionViolation_appended s violation w :
  PolicyReconciler.markSessionViolation env s violation = Some w → appended s w.
Proof.
  unfold PolicyReconciler.markSessionViolation.
  case_decide as Hraw; [|done].
  intros [->|?]%StatusUpdate_written; [|done].
  right. eexists. unfold historyOf. rewrite lookup_insert_eq. simpl.
  rewrite lookup_insert_eq. simpl. f_equal.
  rewrite !lookup_insert_ne by done.
  unfold mapOrNil. destruct (asMap (s !! "status")); simpl; [done|].
  by rewrite lookup_empty.
Qed.

End ReconcilerHistory.

(** X13.  The session reconciler keeps the history append-only: the
    version of a session that a reconcile leaves on the API server has
    the history of the version it fetched, with at most one entry added
    at the end, and the validator admits it as an update of the fetched
    version. *)
Theorem reconcile_writes_are_admitted env client Marshal s w :
  (controllers.SessionReconciler.Reconcile env (Found s)).2 = Some w →
  appended s w
  ∧ webhooks.Handle client Marshal (examples.update s w) = webhooks.Allowed.
Proof.
  intros Ha%Reconcile_appended. split; [done|].
  rewrite (Handle_update client Marshal (examples.update s w) w s
             eq_refl eq_refl eq_refl).
  by rewrite (appended_admitted Marshal s w Ha).
Qed.

Lemma reconcile_writes_are_admitted_witness :
  ∃ w, (controllers.SessionReconciler.Reconcile examples.quiet
          (Found examples.alpha)).2 = Some w
       ∧ webhooks.Handle examples.noPolicies json.Marshal
           (examples.update examples.alpha w) = webhooks.Allowed.
Proof.
  destruct (controllers.SessionReconciler.Reconcile examples.quiet
              (Found examples.alpha)).2 as [w|] eqn:Hw;
    [|vm_compute in Hw; discriminate].
  exists w. split; [reflexivity|].
  apply (reconcile_writes_are_admitted examples.quiet examples.noPolicies
           json.Marshal examples.alpha w Hw).
Defined.

(** X14.  The policy reconciler keeps the history append-only: the
    version of a session that [markSessionViolation] writes has the
    history of the session with the PolicyViolation entry added at the
    end, and the validator admits it as an update. *)
Theorem violation_writes_are_admitted env client Marshal s violation w :
  controllers.PolicyReconciler.markSessionViolation env s violation = Some w →
  historyOf w
    = Some (default [] (historyOf s)
            ++ [controllers.PolicyReconciler.violationEntry env violation])%list
  ∧ webhooks.Handle client Marshal (examples.update s w) = webhooks.Allowed.
Proof.
  intros Hw. split.
  - revert Hw. unfold controllers.PolicyReconciler.markSessionViolation.
    case_decide as Hraw; [|done].
    intros [->|?]%StatusUpdate_written; [|done].
    unfold historyOf. rewrite lookup_insert_eq. simpl.
    rewrite lookup_insert_eq. simpl. f_equal.
    rewrite !lookup_insert_ne by done.
    unfold mapOrNil. destruct (asMap (s !! "status")); simpl; [done|].
    by rewrite lookup_empty.
  - rewrite (Handle_update client Marshal (examples.update s w) w s
               eq_refl eq_refl eq_refl).
    by rewrite (appended_admitted Marshal s w
                  (markSessionViolation_appended env s violation w Hw)).
Qed.

Lemma violation_writes_are_admitted_witness :
  ∃ w, controllers.PolicyReconciler.markSessionViolation examples.quiet
         (examples.withStatus "Running" [examples.created] examples.alpha)
         "model 'claude-3-sonnet' is blocked by policy" = Some w
       ∧ webhooks.Handle examples.noPolicies json.Marshal
           (examples.update
              (examples.withStatus "Running" [examples.created] examples.alpha) w)
         = webhooks.Allowed.
Proof.
  destruct (controllers.PolicyReconciler.markSessionViolation examples.quiet
              (examples.withStatus "Running" [examples.created] examples.alpha)
              "model 'claude-3-sonnet' is blocked by policy") as [w|] eqn:Hw;
    [|vm_compute in Hw; discriminate].
  exists w. split; [reflexivity|].
  apply (violation_writes_are_admitted examples.quiet examples.noPolicies
           json.Marshal _ _ w Hw).
Defined.

Section Lifecycle.

Import controllers controllers.SessionReconciler.

Variable env : Env.
Hypothesis accepted : ∀ o, statusUpdate env o = None.

Lemma StatusUpdate_accepted obj m :
  StatusUpdate env obj m = ({| session := obj; written := Some obj |}, None).
Proof using accepted. unfold StatusUpdate. by rewrite accepted. Qed.

Lemma updatePhase_accepted m phase message :
  updatePhase env m phase message
  = ({| session := phaseUpdated env (session m) phase message;
        written := Some (phaseUpdated env (session m) phase message) |},
     Return noRequeue).
Proof using accepted.
  unfold updatePhase, phaseUpdated.
  rewrite (lookup_insert_ne _ "phase" "history") by done.
  rewrite (lookup_insert_ne _ "history" "conditions") by done.
  rewrite (lookup_insert_ne _ "phase" "conditions") by done.
  by rewrite StatusUpdate_accepted.
Qed.

End Lifecycle.

Lemma metaString_status v s field :
  metaString (<["status" := v]> s) field = metaString s field.
Proof. unfold metaString. by rewrite lookup_insert_ne. Qed.

Lemma jobNameOf_phaseUpdated env s phase message :
  jobNameOf (phaseUpdated env s phase message) = jobNameOf s.
Proof.
  unfold jobNameOf, phaseUpdated. unfold mapOrNil at 2.
  rewrite lookup_insert_eq. simpl. by rewrite !lookup_insert_ne.
Qed.

Lemma jobNameOf_workloadInfo s jobName podName createdAt :
  jobNameOf (<["status" := VMap
      (<["workload" := VMap {[ "jobName" := VStr jobName;
                               "podName" := podName;
                               "createdAt" := createdAt ]}]>
         (mapOrNil (s !! "status")))]> s) = jobName.
Proof.
  unfold jobNameOf. unfold mapOrNil at 2. rewrite lookup_insert_eq. simpl.
  unfold mapOrNil at 1. by rewrite lookup_insert_eq.
Qed.

Lemma GetName_job owner frameworkType :
  GetName (controllers.SessionReconciler.withControllerReference owner
             (controllers.SessionReconciler.buildJob owner frameworkType))
  = GetName owner +:+ "-runner".
Proof.
  unfold controllers.SessionReconciler.withControllerReference,
    controllers.SessionReconciler.buildJob.
  generalize (GetName owner), (GetNamespace owner), (metaString owner "uid"),
    (stringOrZero (owner !! "apiVersion")), (stringOrZero (owner !! "kind")).
  intros. unfold GetName, metaString. rewrite lookup_insert_eq. simpl.
  rewrite lookup_insert_ne by done. unfold mapOrNil.
  rewrite lookup_insert_ne by done. rewrite lookup_insert_ne by done.
  rewrite lookup_insert_eq. simpl. by rewrite lookup_insert_eq.
Qed.

Lemma runner_name_not_empty name : name +:+ "-runner" ≠ "".
Proof. by destruct name. Qed.

(** X15.  The life of a session that passes the policy validation,
    when the API server accepts every call and the job succeeds: a first
    reconcile of the Pending session records the job named after the
    session under [status.workload] and moves the session to Running; a
    second reconcile finds that job by the recorded name and moves the
    session to Completed; a third reconcile writes nothing.  The history
    grows by the two phase changes. *)
Theorem session_runs_to_completion env s job jobStatus :
  controllers.SessionReconciler.getPhase s = "Pending" →
  controllers.SessionReconciler.validatePolicy env s = Nil →
  (∀ owner j, controllers.setControllerReference env owner j = None) →
  (∀ j cause, controllers.createJob env j ≠ controllers.CreateError cause) →
  (∀ o, controllers.statusUpdate env o = None) →
  controllers.getJob env (GetNamespace s) (GetName s +:+ "-runner") = Found job →
  asMap (job !! "status") = Some jobStatus →
  controllers.SessionReconciler.positiveCount (jobStatus !! "succeeded") = true →
  ∃ w1 w2,
    controllers.SessionReconciler.Reconcile env (Found s)
      = (controllers.Return controllers.noRequeue, Some w1)
    ∧ controllers.SessionReconciler.getPhase w1 = "Running"
    ∧ jobNameOf w1 = GetName s +:+ "-runner"
    ∧ controllers.SessionReconciler.Reconcile env (Found w1)
      = (controllers.Return controllers.noRequeue, Some w2)
    ∧ controllers.SessionReconciler.getPhase w2 = "Completed"
    ∧ controllers.SessionReconciler.Reconcile env (Found w2)
      = (controllers.Return controllers.noRequeue, None)
    ∧ map eventOf (default [] (historyOf w2))
      = (map eventOf (default [] (historyOf s))
         ++ [Some "PhaseChangedRunning"; Some "PhaseChangedCompleted"])%list.
Proof.
  intros Hphase Hpolicy Hown Hcreate Hupd Hjob Hstatus Hsucc.
  set (ft := stringOrZero (mapOrNil (mapOrNil (s !! "spec") !! "framework") !! "type")).
  set (jobName := GetName s +:+ "-runner").
  set (s1 := <["status" := VMap
      (<["workload" := VMap {[ "jobName" := VStr jobName;
                               "podName" := VStr (jobName +:+ "-pod");
                               "createdAt" := VStr (controllers.now env) ]}]>
         (mapOrNil (s !! "status")))]> s).
  set (w1 := phaseUpdated env s1 "Running" "Workload created successfully").
  set (w2 := phaseUpdated env w1 "Completed" "Session completed successfully").
  assert (controllers.SessionReconciler.getPhase w1 = "Running") as Hw1
    by by apply getPhase_phaseUpdated.
  assert (controllers.SessionReconciler.getPhase w2 = "Completed") as Hw2
    by by apply getPhase_phaseUpdated.
  assert (jobNameOf w1 = jobName) as Hname.
  { unfold w1. rewrite jobNameOf_phaseUpdated. apply jobNameOf_workloadInfo. }
  exists w1, w2. split_and!; [|done|done| |done| |].
  - unfold controllers.SessionReconciler.Reconcile.
    rewrite Hphase. rewrite decide_True by done.
    unfold controllers.SessionReconciler.handlePending. simpl.
    rewrite Hpolicy.
    unfold controllers.SessionReconciler.createWorkload. simpl.
    rewrite Hown.
    rewrite GetName_job.
    unfold controllers.SessionReconciler.updateWorkloadInfo.
    rewrite StatusUpdate_accepted by done. simpl.
    destruct (controllers.createJob env _) eqn:Hc; [| |by destruct (Hcreate _ _ Hc)];
      simpl; by rewrite updatePhase_accepted by done.
  - unfold controllers.SessionReconciler.Reconcile.
    rewrite Hw1. rewrite decide_False by done. rewrite decide_True by done.
    unfold controllers.SessionReconciler.handleRunning,
      controllers.SessionReconciler.checkWorkloadStatus. simpl.
    fold (jobNameOf w1). rewrite Hname.
    rewrite decide_False by apply runner_name_not_empty.
    replace (GetNamespace w1) with (GetNamespace s)
      by (unfold w1, s1, phaseUpdated, GetNamespace;
          by rewrite !metaString_status).
    unfold jobName. rewrite Hjob, Hstatus, Hsucc.
    rewrite decide_True by done. by rewrite updatePhase_accepted by done.
  - unfold controllers.SessionReconciler.Reconcile. rewrite Hw2.
    rewrite !decide_False by done. rewrite decide_True; [done|].
    by left.
  - unfold w2, w1. rewrite !historyOf_phaseUpdated. simpl.
    unfold s1. rewrite historyOf_workloadInfo.
    rewrite !map_app, <- app_assoc. done.
Qed.

Lemma session_runs_to_completion_witness :
  ∃ w1 w2,
    controllers.SessionReconciler.Reconcile cases.succeeded (Found examples.alpha)
      = (controllers.Return controllers.noRequeue, Some w1)
    ∧ controllers.SessionReconciler.Reconcile cases.succeeded (Found w1)
      = (controllers.Return controllers.noRequeue, Some w2)
    ∧ controllers.SessionReconciler.getPhase w2 = "Completed".
Proof.
  destruct (session_runs_to_completion cases.succeeded examples.alpha
              {[ "status" := VMap {[ "succeeded" := VInt 1 ]} ]}
              {[ "succeeded" := VInt 1 ]})
    as (w1 & w2 & H1 & _ & _ & H2 & H3 & _);
    [vm_compute; reflexivity | vm_compute; reflexivity | done | done | done
    | vm_compute; reflexivity | vm_compute; reflexivity | vm_compute; reflexivity |].
  exists w1, w2. split; [exact H1|]. split; [exact H2 | exact H3].
Defined.

(** X16.  A Running session whose status names no job, or whose job
    the API server does not return, is left as it is: the reconcile writes
    nothing, reports no error and asks to be called again after ten
    seconds, so that the session stays Running while the job is gone. *)
Theorem running_session_without_job env s :
  controllers.SessionReconciler.getPhase s = "Running" →
  jobNameOf s = ""
  ∨ (∀ job, controllers.getJob env (GetNamespace s) (jobNameOf s) ≠ Found job) →
  controllers.SessionReconciler.Reconcile env (Found s)
  = (controllers.Return {| controllers.RequeueAfter := 10 |}, None).
Proof.
  intros Hphase Hjob. unfold controllers.SessionReconciler.Reconcile.
  rewrite Hphase. rewrite decide_False by done. rewrite decide_True by done.
  unfold controllers.SessionReconciler.handleRunning,
    controllers.SessionReconciler.checkWorkloadStatus. simpl.
  fold (jobNameOf s). case_decide as Hname; [done|].
  destruct Hjob as [?|Hjob]; [done|].
  destruct (controllers.getJob env _ _) as [job| |] eqn:Hget; [|done..].
  by destruct (Hjob job).
Qed.

Lemma running_session_without_job_witness :
  controllers.SessionReconciler.Reconcile examples.quiet
    (Found (examples.withStatus "Running" [examples.created] examples.alpha))
  = (controllers.Return {| controllers.RequeueAfter := 10 |}, None).
Proof.
  apply (running_session_without_job examples.quiet
           (examples.withStatus "Running" [examples.created] examples.alpha));
    [vm_compute; reflexivity | left; vm_compute; reflexivity].
Defined.

Lemma validTransitions_lookup from :
  status.validTransitions !! from
  = if decide (from = "Pending") then Some ["Running"; "Failed"]
    else if decide (from = "Running") then Some ["Completed"; "Failed"]
    else if decide (from = "Completed") then Some []
    else if decide (from = "Failed") then Some []
    else None.
Proof.
  unfold status.validTransitions, status.SessionPhasePending,
    status.SessionPhaseRunning, status.SessionPhaseCompleted,
    status.SessionPhaseFailed.
  repeat case_decide; subst; try done.
  rewrite !lookup_insert_ne by done. by rewrite lookup_singleton_ne.
Qed.

Lemma IsPhaseTransitionValid_edge from to :
  status.IsPhaseTransitionValid from to = true ↔ edge from to.
Proof.
  unfold status.IsPhaseTransitionValid. rewrite validTransitions_lookup.
  split.
  - repeat case_decide; subst; try done;
      intros Hin%bool_decide_eq_true;
      repeat (apply elem_of_cons in Hin as [->|Hin]; [constructor|]);
      by apply elem_of_nil in Hin.
  - by destruct 1.
Qed.

(** X17.  The table of valid phase changes of the status updater:
    a change is valid exactly when it is one of Pending to Running,
    Pending to Failed, Running to Completed and Running to Failed.  So no
    valid change leaves Completed or Failed, none keeps the phase, none
    leads to Pending, and no session goes through more than two valid
    changes. *)
Theorem valid_phase_changes from to :
  (status.IsPhaseTransitionValid from to = true ↔ edge from to)
  ∧ (from = "Completed" ∨ from = "Failed" ∨ from = to ∨ to = "Pending" →
     status.IsPhaseTransitionValid from to = false)
  ∧ (∀ next last,
       status.IsPhaseTransitionValid from to = true →
       status.IsPhaseTransitionValid to next = true →
       status.IsPhaseTransitionValid next last = false).
Proof.
  split_and!.
  - apply IsPhaseTransitionValid_edge.
  - intros H. apply not_true_is_false. rewrite IsPhaseTransitionValid_edge.
    intros He. destruct He, H as [?|[?|[?|?]]]; done.
  - intros next last H1%IsPhaseTransitionValid_edge H2%IsPhaseTransitionValid_edge.
    apply not_true_is_false. rewrite IsPhaseTransitionValid_edge.
    intros H3. destruct H1; inversion H2; subst; inversion H3.
Qed.

(** X18.  The reconcilers against the table of the status updater:
    from one of the four known phases, every version that the session
    reconciler or the marking of a policy violation writes keeps the phase
    or makes a change that the table holds valid; the reset to Pending
    that the session reconciler writes for any other phase is a change
    that the table rejects. *)
Theorem reconcilers_follow_the_table env s violation w :
  (controllers.SessionReconciler.Reconcile env (Found s)).2 = Some w
  ∨ controllers.PolicyReconciler.markSessionViolation env s violation = Some w →
  let from := controllers.SessionReconciler.getPhase s in
  let to := controllers.SessionReconciler.getPhase w in
  (knownPhase from → to = from ∨ status.IsPhaseTransitionValid from to = true)
  ∧ (¬ knownPhase from → status.IsPhaseTransitionValid from to = false).
Proof.
  intros Hw. simpl. split.
  - intros Hknown. destruct Hw as [Hw|Hw].
    + apply Reconcile_written in Hw as [[Hs Hw]|[[Hs Hw]|[Hs Hw]]]; [| |done].
      * rewrite Hs. destruct Hw as [->|[->| ->]]; [by left|right..];
          by apply IsPhaseTransitionValid_edge; constructor.
      * rewrite Hs. right. destruct Hw as [->| ->];
          by apply IsPhaseTransitionValid_edge; constructor.
    + apply markSessionViolation_written in Hw as (Hc & Hf & ->).
      right. apply IsPhaseTransitionValid_edge.
      destruct Hknown as [->|[->|[?|?]]]; [constructor..|done|done].
  - intros Hunknown. apply not_true_is_false.
    rewrite IsPhaseTransitionValid_edge. intros He. apply Hunknown.
    unfold knownPhase. destruct He; tauto.
Qed.

Lemma reconcilers_follow_the_table_witness :
  ∃ w, (controllers.SessionReconciler.Reconcile examples.quiet
          (Found examples.alpha)).2 = Some w
       ∧ (knownPhase (controllers.SessionReconciler.getPhase examples.alpha) →
          controllers.SessionReconciler.getPhase w
            = controllers.SessionReconciler.getPhase examples.alpha
          ∨ status.IsPhaseTransitionValid
              (controllers.SessionReconciler.getPhase examples.alpha)
              (controllers.SessionReconciler.getPhase w) = true).
Proof.
  destruct (controllers.SessionReconciler.Reconcile examples.quiet
              (Found examples.alpha)).2 as [w|] eqn:Hw;
    [|vm_compute in Hw; discriminate].
  exists w. split; [reflexivity|].
  apply (reconcilers_follow_the_table examples.quiet examples.alpha "" w
           (or_introl Hw)).
Defined.

Lemma SetNestedField_status o v key :
  unstructured.SetNestedField o v ["status"; key]
  = (λ st, <["status" := VMap (<[key := v]> st)]> o) <$> statusMap o.
Proof.
  unfold statusMap. simpl.
  destruct (o !! "status") as [[]|]; simpl; try done.
Qed.

Lemma sliceOrEmpty_statusMap o st key :
  statusMap o = Some st →
  status.sliceOrEmpty (unstructured.NestedSlice o ["status"; key])
  = match st !! key with
    | None => Some []
    | Some (VList l) => Some l
    | Some _ => None
    end.
Proof.
  unfold statusMap, unstructured.NestedSlice. simpl.
  destruct (o !! "status") as [v|] eqn:Hst.
  - destruct v; try done. intros [= ->]. by destruct (st !! key) as [[]|].
  - intros [= <-]. by rewrite lookup_empty.
Qed.

Lemma sliceOrEmpty_listOrAbsent v :
  let r : option (list value) :=
    match v with
    | None => Some []
    | Some (VList l) => Some l
    | Some _ => None
    end in
  (listOrAbsent v ∧ r = Some (default [] (asList v)))
  ∨ (¬ listOrAbsent v ∧ r = None).
Proof.
  unfold listOrAbsent. destruct v as [[]|]; simpl.
  all: try (right; split; [|done]; by intros [?|[? ?]]).
  - left. split; [|done]. right. by eexists.
  - left. split; [|done]. by left.
Qed.

Lemma statusMap_set o st :
  statusMap (<["status" := VMap st]> o) = Some st.
Proof. unfold statusMap. by rewrite lookup_insert_eq. Qed.

Lemma historyOf_set o st :
  historyOf (<["status" := VMap st]> o) = asList (st !! "history").
Proof. unfold historyOf. by rewrite lookup_insert_eq. Qed.

Lemma conditionsOf_set o st :
  conditionsOf (<["status" := VMap st]> o) = asList (st !! "conditions").
Proof. unfold conditionsOf. by rewrite lookup_insert_eq. Qed.

Lemma historyOf_statusMap o st :
  statusMap o = Some st → historyOf o = asList (st !! "history").
Proof.
  unfold statusMap, historyOf.
  destruct (o !! "status") as [[]|]; try done; by intros [= <-].
Qed.

Lemma conditionsOf_statusMap o st :
  statusMap o = Some st → conditionsOf o = asList (st !! "conditions").
Proof.
  unfold statusMap, conditionsOf.
  destruct (o !! "status") as [[]|]; try done; by intros [= <-].
Qed.

(** [addHistoryEvent] on a session whose status is the map [st]. *)
Lemma addHistoryEvent_status o st event :
  statusMap o = Some st →
  match status.addHistoryEvent o event with
  | inl o' =>
      listOrAbsent (st !! "history")
      ∧ ∃ entry,
          o' = <["status" := VMap
                  (<["history" := VList (default [] (asList (st !! "history"))
                                         ++ [entry])]> st)]> o
          ∧ eventOf entry = Some (status.Event event)
  | inr err =>
      err = status.GetHistoryFailed ∧ ¬ listOrAbsent (st !! "history")
  end.
Proof.
  intros Hst. unfold status.addHistoryEvent.
  rewrite (sliceOrEmpty_statusMap o st "history" Hst).
  destruct (sliceOrEmpty_listOrAbsent (st !! "history")) as [[Hlist ->]|[Hlist ->]];
    [|done].
  unfold unstructured.SetNestedSlice. rewrite SetNestedField_status, Hst. simpl.
  split; [done|]. eexists. split; [done|].
  destruct (status.Data event) as [data|]; [|done].
  by case_decide.
Qed.

Section StatusUpdater.

Variable env : controllers.Env.

(** What [UpdatePhase] does on a session whose status can be set. *)
Lemma UpdatePhase_status m st phase reason message :
  statusMap (controllers.session m) = Some st →
  match status.UpdatePhase env m phase reason message with
  | (m', None) =>
      listOrAbsent (st !! "history")
      ∧ controllers.written m' = Some (controllers.session m')
      ∧ ∃ entry,
          controllers.session m'
          = <["status" := VMap
                (<["history" := VList (default [] (asList (st !! "history"))
                                       ++ [entry])]>
                   (<["phase" := VStr phase]> st))]> (controllers.session m)
          ∧ eventOf entry = Some ("PhaseChanged:" +:+ phase)
  | (m', Some err) =>
      controllers.written m' = controllers.written m
      ∧ ((err = status.AddHistoryEventFailed status.GetHistoryFailed
          ∧ ¬ listOrAbsent (st !! "history")
          ∧ controllers.session m'
            = <["status" := VMap (<["phase" := VStr phase]> st)]>
                (controllers.session m))
         ∨ ∃ cause o, err = status.UpdateFailed cause
                      ∧ controllers.statusUpdate env o = Some cause)
  end.
Proof.
  intros Hst. unfold status.UpdatePhase.
  rewrite SetNestedField_status, Hst. simpl.
  match goal with |- context [status.addHistoryEvent ?o ?e] =>
    pose proof (addHistoryEvent_status o (<["phase" := VStr phase]> st) e
                  (statusMap_set _ _)) as Hadd;
    destruct (status.addHistoryEvent o e) as [o'|err] end.
  - rewrite lookup_insert_ne in Hadd by done.
    destruct Hadd as (Hlist & entry & -> & Hevent).
    rewrite insert_insert_eq.
    unfold controllers.StatusUpdate. simpl.
    destruct (controllers.statusUpdate env _) as [cause|] eqn:Hupd; simpl.
    + split; [done|]. right. by eexists _, _.
    + split_and!; [done..|]. by exists entry.
  - rewrite lookup_insert_ne in Hadd by done. destruct Hadd as [-> Hlist].
    simpl. split; [done|]. by left.
Qed.

Lemma UpdatePhase_no_status m phase reason message :
  statusMap (controllers.session m) = None →
  status.UpdatePhase env m phase reason message = (m, Some status.SetPhaseFailed).
Proof.
  unfold status.UpdatePhase. rewrite SetNestedField_status. by intros ->.
Qed.

(** What [UpdateCondition] does on a session whose status can be set. *)
Lemma UpdateCondition_status m st t cs reason message :
  statusMap (controllers.session m) = Some st →
  let c := {| status.Type_ := t; status.Status := cs;
              status.LastTransitionTime := controllers.now env;
              status.Reason := reason; status.Message := message |} in
  match status.UpdateCondition env m t cs reason message with
  | (m', None) =>
      listOrAbsent (st !! "conditions")
      ∧ listOrAbsent (st !! "history")
      ∧ controllers.written m' = Some (controllers.session m')
      ∧ ∃ entry,
          controllers.session m'
          = <["status" := VMap
                (<["history" := VList (default [] (asList (st !! "history"))
                                       ++ [entry])]>
                   (<["conditions" :=
                        VList (merged (default [] (asList (st !! "conditions"))) c)]>
                      st))]> (controllers.session m)
          ∧ eventOf entry = Some ("ConditionChanged:" +:+ t)
  | (m', Some err) => controllers.written m' = controllers.written m
  end.
Proof.
  intros Hst c. unfold status.UpdateCondition.
  rewrite (sliceOrEmpty_statusMap _ st "conditions" Hst).
  destruct (sliceOrEmpty_listOrAbsent (st !! "conditions")) as [[Hlist ->]|[Hlist ->]];
    [|done].
  unfold unstructured.SetNestedSlice. rewrite SetNestedField_status, Hst. simpl.
  fold c. fold (merged (default [] (asList (st !! "conditions"))) c).
  match goal with |- context [status.addHistoryEvent ?o ?e] =>
    pose proof (addHistoryEvent_status o
                  (<["conditions" :=
                       VList (merged (default [] (asList (st !! "conditions"))) c)]> st)
                  e (statusMap_set _ _)) as Hadd;
    destruct (status.addHistoryEvent o e) as [o'|err] end; [|done].
  rewrite lookup_insert_ne in Hadd by done.
  destruct Hadd as (Hhist & entry & -> & Hevent).
  rewrite insert_insert_eq. unfold controllers.StatusUpdate. simpl.
  destruct (controllers.statusUpdate env _); simpl; [done|].
  split_and!; [done..|]. by exists entry.
Qed.

Lemma UpdateCondition_no_status m t cs reason message :
  statusMap (controllers.session m) = None →
  (status.UpdateCondition env m t cs reason message).2 ≠ None.
Proof.
  unfold statusMap, status.UpdateCondition, unstructured.NestedSlice,
    unstructured.SetNestedSlice. simpl.
  by destruct (controllers.session m !! "status") as [[]|].
Qed.

End StatusUpdater.

Lemma hasType_updated condMap t v1 v2 v3 v4 :
  status.hasType (<["message" := v1]> (<["reason" := v2]>
    (<["lastTransitionTime" := v3]> (<["status" := v4]> condMap)))) t
  = status.hasType condMap t.
Proof. unfold status.hasType. by rewrite !lookup_insert_ne. Qed.

Lemma merged_skip x rest c :
  match x with
  | VMap condMap => status.hasType condMap (status.Type_ c) = false
  | _ => True
  end →
  merged (x :: rest) c = x :: merged rest c.
Proof.
  unfold merged. simpl. destruct x; intros Hx; try rewrite Hx;
    by destruct (status.updateFirst rest c).
Qed.

Lemma firstOfType_merged conditions c :
  status.firstOfType (merged conditions c) (status.Type_ c) = status.Returned (Some c).
Proof.
  induction conditions as [|x rest IH].
  - unfold merged. simpl. unfold status.hasType.
    rewrite lookup_insert_eq. rewrite bool_decide_eq_true_2 by done.
    by destruct c.
  - destruct x as [| | | | | |condMap];
      try (rewrite merged_skip by done; exact IH).
    destruct (status.hasType condMap (status.Type_ c)) eqn:Hty.
    + unfold merged. simpl. rewrite Hty. simpl.
      rewrite hasType_updated, Hty. unfold status.fieldOr.
      rewrite lookup_insert_ne by done. rewrite lookup_insert_ne by done.
      rewrite lookup_insert_ne by done. rewrite lookup_insert_eq.
      rewrite lookup_insert_ne by done. rewrite lookup_insert_ne by done.
      rewrite lookup_insert_eq.
      rewrite lookup_insert_ne by done. rewrite lookup_insert_eq.
      rewrite lookup_insert_eq. by destruct c.
    + rewrite merged_skip by done. simpl. by rewrite Hty.
Qed.

Lemma hasType_other condMap t t' :
  t' ≠ t → status.hasType condMap t = true → status.hasType condMap t' = false.
Proof.
  unfold status.hasType. destruct (condMap !! "type") as [[]|]; try done.
  intros Hne ->%bool_decide_eq_true. by apply bool_decide_eq_false_2.
Qed.

Lemma firstOfType_merged_other conditions c t' :
  t' ≠ status.Type_ c →
  status.firstOfType (merged conditions c) t' = status.firstOfType conditions t'.
Proof.
  intros Hne. induction conditions as [|x rest IH].
  - unfold merged. simpl. unfold status.hasType.
    rewrite lookup_insert_eq. by rewrite bool_decide_eq_false_2.
  - destruct x as [| | | | | |condMap];
      try (rewrite merged_skip by done; exact IH).
    destruct (status.hasType condMap (status.Type_ c)) eqn:Hty.
    + unfold merged. simpl. rewrite Hty. simpl.
      rewrite hasType_updated. by rewrite (hasType_other _ _ _ Hne Hty).
    + rewrite merged_skip by done. simpl. by rewrite IH.
Qed.

Lemma conditionTypes_merged conditions c :
  (status.Type_ c ∈ conditionTypes conditions
   ∧ conditionTypes (merged conditions c) = conditionTypes conditions)
  ∨ ((status.Type_ c ∉ conditionTypes conditions)
     ∧ conditionTypes (merged conditions c)
       = (conditionTypes conditions ++ [status.Type_ c])%list).
Proof.
  induction conditions as [|x rest IH].
  - right. split; [apply not_elem_of_nil|done].
  - destruct x as [| | | | | |condMap];
      try (rewrite merged_skip by done; exact IH).
    destruct (status.hasType condMap (status.Type_ c)) eqn:Hty.
    + left. unfold merged. simpl. rewrite Hty. simpl.
      rewrite !lookup_insert_ne by done.
      unfold status.hasType in Hty.
      destruct (condMap !! "type") as [[]|]; try done. simpl.
      apply bool_decide_eq_true in Hty as ->. split; [apply list_elem_of_here|done].
    + rewrite merged_skip by done. simpl.
      unfold status.hasType in Hty.
      destruct (condMap !! "type") as [ty|] eqn:Htype; simpl; [|exact IH].
      destruct ty; simpl; try exact IH.
      apply bool_decide_eq_false in Hty.
      destruct IH as [[Hin Heq]|[Hnin Heq]].
      * left. split; [by apply list_elem_of_further | by rewrite Heq].
      * right. split; [|by rewrite Heq].
        apply not_elem_of_cons. split; [congruence|done].
Qed.

Lemma GetCondition_statusMap o st t :
  statusMap o = Some st →
  status.GetCondition o t
  = match st !! "conditions" with
    | None => status.Returned None
    | Some (VList l) => status.firstOfType l t
    | Some _ => status.ReturnedError status.GetConditionsFailed
    end.
Proof.
  unfold statusMap, status.GetCondition, unstructured.NestedSlice. simpl.
  destruct (o !! "status") as [v|] eqn:Hst.
  - destruct v; try done. intros [= ->].
    by destruct (st !! "conditions") as [[]|].
  - intros [= <-]. by rewrite lookup_empty.
Qed.

Lemma GetCurrentPhase_set o st :
  status.GetCurrentPhase (<["status" := VMap st]> o)
  = match st !! "phase" with
    | None => inl "Pending"
    | Some (VStr p) => inl p
    | Some _ => inr status.GetPhaseFailed
    end.
Proof.
  unfold status.GetCurrentPhase, unstructured.NestedString. simpl.
  rewrite lookup_insert_eq. by destruct (st !! "phase") as [[]|].
Qed.

Section StatusResults.

Variable env : controllers.Env.

(** The session after a call of [UpdatePhase] that returned no error. *)
Lemma UpdatePhase_success m m' phase reason message :
  status.UpdatePhase env m phase reason message = (m', None) →
  controllers.written m' = Some (controllers.session m')
  ∧ status.GetCurrentPhase (controllers.session m') = inl phase
  ∧ (∀ t, status.GetCondition (controllers.session m') t
          = status.GetCondition (controllers.session m) t)
  ∧ ∃ entry,
      historyOf (controllers.session m')
      = Some (default [] (historyOf (controllers.session m)) ++ [entry])%list
      ∧ eventOf entry = Some ("PhaseChanged:" +:+ phase).
Proof.
  intros Hcall.
  destruct (statusMap (controllers.session m)) as [st|] eqn:Hst.
  2: { by rewrite (UpdatePhase_no_status env m phase reason message Hst) in Hcall. }
  pose proof (UpdatePhase_status env m st phase reason message Hst) as H.
  rewrite Hcall in H. destruct H as (Hlist & Hw & entry & Hs & Hevent).
  split_and!; [done|..].
  - rewrite Hs, GetCurrentPhase_set.
    rewrite lookup_insert_ne by done. by rewrite lookup_insert_eq.
  - intros t. rewrite Hs.
    rewrite (GetCondition_statusMap _ _ t (statusMap_set _ _)).
    rewrite (GetCondition_statusMap _ _ t Hst).
    by rewrite !lookup_insert_ne.
  - exists entry. split; [|done].
    rewrite Hs, historyOf_set, lookup_insert_eq. simpl.
    by rewrite (historyOf_statusMap _ st Hst).
Qed.

(** The session after a call of [UpdateCondition] that returned no
    error. *)
Lemma UpdateCondition_success m m' t cs reason message :
  status.UpdateCondition env m t cs reason message = (m', None) →
  let c := {| status.Type_ := t; status.Status := cs;
              status.LastTransitionTime := controllers.now env;
              status.Reason := reason; status.Message := message |} in
  controllers.written m' = Some (controllers.session m')
  ∧ status.GetCondition (controllers.session m') t = status.Returned (Some c)
  ∧ (∀ t', t' ≠ t →
       status.GetCondition (controllers.session m') t'
       = status.GetCondition (controllers.session m) t')
  ∧ conditionsOf (controllers.session m')
    = Some (merged (default [] (conditionsOf (controllers.session m))) c)
  ∧ ∃ entry,
      historyOf (controllers.session m')
      = Some (default [] (historyOf (controllers.session m)) ++ [entry])%list
      ∧ eventOf entry = Some ("ConditionChanged:" +:+ t).
Proof.
  intros Hcall c.
  destruct (statusMap (controllers.session m)) as [st|] eqn:Hst.
  2: { pose proof (UpdateCondition_no_status env m t cs reason message Hst) as H.
       by rewrite Hcall in H. }
  pose proof (UpdateCondition_status env m st t cs reason message Hst) as H.
  rewrite Hcall in H. fold c in H.
  destruct H as (Hconds & Hhist & Hw & entry & Hs & Hevent).
  split_and!; [done|..].
  - rewrite Hs. rewrite (GetCondition_statusMap _ _ t (statusMap_set _ _)).
    rewrite lookup_insert_ne by done. rewrite lookup_insert_eq.
    apply (firstOfType_merged _ c).
  - intros t' Hne. rewrite Hs.
    rewrite (GetCondition_statusMap _ _ t' (statusMap_set _ _)).
    rewrite (GetCondition_statusMap _ _ t' Hst).
    rewrite lookup_insert_ne by done. rewrite lookup_insert_eq.
    rewrite (firstOfType_merged_other _ c t' Hne).
    by destruct Hconds as [->|[l ->]].
  - rewrite Hs, conditionsOf_set.
    rewrite lookup_insert_ne by done. rewrite lookup_insert_eq. simpl.
    by rewrite (conditionsOf_statusMap _ st Hst).
  - exists entry. split; [|done].
    rewrite Hs, historyOf_set, lookup_insert_eq. simpl.
    by rewrite (historyOf_statusMap _ st Hst).
Qed.

End StatusResults.

(** X19.  The phase change of the status updater, on a session whose
    status is a map or missing and whose history is a list or missing:
    when the API server accepts the update, [UpdatePhase] returns no
    error, the session it wrote has the new phase, and its history is the
    old history followed by exactly one entry, whose event is the text
    PhaseChanged, a colon and the phase. *)
Theorem UpdatePhase_appends_event env m st phase reason message :
  statusMap (controllers.session m) = Some st →
  listOrAbsent (st !! "history") →
  (∀ o, controllers.statusUpdate env o = None) →
  ∃ w entry,
    status.UpdatePhase env m phase reason message
      = ({| controllers.session := w; controllers.written := Some w |}, None)
    ∧ status.GetCurrentPhase w = inl phase
    ∧ historyOf w
      = Some (default [] (historyOf (controllers.session m)) ++ [entry])%list
    ∧ eventOf entry = Some ("PhaseChanged:" +:+ phase).
Proof.
  intros Hst Hlist Hupd.
  pose proof (UpdatePhase_status env m st phase reason message Hst) as H.
  destruct (status.UpdatePhase env m phase reason message) as [m' [err|]] eqn:Hcall.
  - destruct H as [_ [(_ & Hno & _)|(cause & o & _ & Ho)]]; [done|].
    by rewrite Hupd in Ho.
  - destruct (UpdatePhase_success env m m' phase reason message Hcall)
      as (Hw & Hphase & _ & entry & Hhist & Hevent).
    exists (controllers.session m'), entry. split_and!; [|done..].
    destruct m' as [w wr]. simpl in *. by rewrite Hw.
Qed.

Lemma UpdatePhase_appends_event_witness :
  ∃ w entry,
    status.UpdatePhase examples.quiet
      {| controllers.session := examples.alpha; controllers.written := None |}
      "Running" "WorkloadStarted" "Workload session-1-runner started"
      = ({| controllers.session := w; controllers.written := Some w |}, None)
    ∧ status.GetCurrentPhase w = inl "Running"
    ∧ historyOf w
      = Some (default [] (historyOf examples.alpha) ++ [entry])%list
    ∧ eventOf entry = Some ("PhaseChanged:" +:+ "Running").
Proof.
  apply (UpdatePhase_appends_event examples.quiet
           {| controllers.session := examples.alpha; controllers.written := None |}
           ∅); [vm_compute; reflexivity | by left | done].
Defined.

(** X20.  [UpdatePhase] on a session whose [status.history] is present
    and is not a list: the call fails on reading the history, nothing is
    sent to the API server, and the session in memory is left with the
    new phase already set. *)
Theorem UpdatePhase_on_malformed_history env m st phase reason message :
  statusMap (controllers.session m) = Some st →
  ¬ listOrAbsent (st !! "history") →
  status.UpdatePhase env m phase reason message
  = ({| controllers.session :=
          <["status" := VMap (<["phase" := VStr phase]> st)]> (controllers.session m);
        controllers.written := controllers.written m |},
     Some (status.AddHistoryEventFailed status.GetHistoryFailed)).
Proof.
  intros Hst Hlist.
  pose proof (UpdatePhase_status env m st phase reason message Hst) as H.
  destruct (status.UpdatePhase env m phase reason message) as [m' [err|]] eqn:Hcall.
  - destruct H as [Hw [(-> & _ & Hs)|(cause & o & -> & Ho)]].
    + destruct m' as [s' w']. simpl in *. by subst.
    + exfalso. revert Hcall. unfold status.UpdatePhase.
      rewrite SetNestedField_status, Hst. simpl.
      match goal with |- context [status.addHistoryEvent ?x ?e] =>
        pose proof (addHistoryEvent_status x (<["phase" := VStr phase]> st) e
                      (statusMap_set _ _)) as Hadd;
        destruct (status.addHistoryEvent x e) as [o'|err] end; [|done].
      rewrite lookup_insert_ne in Hadd by done. by destruct Hadd as [? _].
  - by destruct H as [? _].
Qed.

Lemma UpdatePhase_on_malformed_history_witness :
  status.UpdatePhase examples.quiet
    {| controllers.session := {[ "status" := VMap {[ "history" := VStr "none" ]} ]};
       controllers.written := None |} "Failed" "WorkloadFailed" "job failed"
  = ({| controllers.session :=
          {[ "status" := VMap {[ "phase" := VStr "Failed";
                                 "history" := VStr "none" ]} ]};
        controllers.written := None |},
     Some (status.AddHistoryEventFailed status.GetHistoryFailed)).
Proof.
  rewrite (UpdatePhase_on_malformed_history examples.quiet
             {| controllers.session :=
                  {[ "status" := VMap {[ "history" := VStr "none" ]} ]};
                controllers.written := None |}
             {[ "history" := VStr "none" ]});
    [vm_compute; reflexivity | vm_compute; reflexivity |].
  intros [H|[l H]]; vm_compute in H; discriminate.
Defined.

(** X21.  Writing a condition and reading it back: after a call of
    [UpdateCondition] that returned no error, [GetCondition] for the same
    type returns the condition with the status, reason and message that
    were given and the time of the call, and returns for every other type
    what it returned before the call. *)
Theorem UpdateCondition_then_GetCondition env m m' t cs reason message :
  status.UpdateCondition env m t cs reason message = (m', None) →
  status.GetCondition (controllers.session m') t
    = status.Returned
        (Some {| status.Type_ := t; status.Status := cs;
                 status.LastTransitionTime := controllers.now env;
                 status.Reason := reason; status.Message := message |})
  ∧ (∀ t', t' ≠ t →
       status.GetCondition (controllers.session m') t'
       = status.GetCondition (controllers.session m) t').
Proof.
  intros Hcall.
  destruct (UpdateCondition_success env m m' t cs reason message Hcall)
    as (_ & Hget & Hother & _).
  by split.
Qed.

Lemma UpdateCondition_then_GetCondition_witness :
  ∃ m',
    status.UpdateCondition examples.quiet
      {| controllers.session := examples.alpha; controllers.written := None |}
      "PolicyValidated" "True" "PolicyValidated" "ok" = (m', None)
    ∧ status.GetCondition (controllers.session m') "PolicyValidated"
      = status.Returned
          (Some {| status.Type_ := "PolicyValidated"; status.Status := "True";
                   status.LastTransitionTime := "2025-03-01T10:00:10Z";
                   status.Reason := "PolicyValidated"; status.Message := "ok" |}).
Proof.
  destruct (status.UpdateCondition examples.quiet
              {| controllers.session := examples.alpha; controllers.written := None |}
              "PolicyValidated" "True" "PolicyValidated" "ok") as [m' [err|]] eqn:Hcall;
    [vm_compute in Hcall; discriminate|].
  exists m'. split; [reflexivity|].
  apply (UpdateCondition_then_GetCondition examples.quiet _ m' _ _ _ _ Hcall).
Defined.

(** X22.  Conditions stay keyed by their type: a call of
    [UpdateCondition] that returned no error leaves the types of the
    conditions as they were when the type was among them, and adds the
    type at the end when it was not; so the type of the call is among
    the types afterwards, and a list of conditions of distinct types
    keeps distinct types. *)
Theorem UpdateCondition_keeps_types_distinct env m m' t cs reason message :
  status.UpdateCondition env m t cs reason message = (m', None) →
  let before := conditionTypes (default [] (conditionsOf (controllers.session m))) in
  let after := conditionTypes (default [] (conditionsOf (controllers.session m'))) in
  (t ∈ before → after = before)
  ∧ (t ∉ before → after = (before ++ [t])%list)
  ∧ t ∈ after
  ∧ (NoDup before → NoDup after).
Proof.
  intros Hcall.
  destruct (UpdateCondition_success env m m' t cs reason message Hcall)
    as (_ & _ & _ & -> & _).
  simpl.
  match goal with |- context [merged ?l ?c] =>
    destruct (conditionTypes_merged l c) as [[Hin ->]|[Hnin ->]] end; simpl in *.
  - split_and!; [done|done|done|done].
  - split_and!; [done|done| |].
    + apply elem_of_app. right. apply list_elem_of_here.
    + intros Hnd. apply NoDup_app. split_and!; [done| |apply NoDup_singleton].
      intros x Hx Hx'. apply list_elem_of_singleton in Hx'. by subst.
Qed.

Lemma UpdateCondition_keeps_types_distinct_witness :
  ∃ m',
    status.UpdateCondition examples.quiet
      {| controllers.session := examples.alpha; controllers.written := None |}
      "PolicyValidated" "True" "PolicyValidated" "ok" = (m', None)
    ∧ conditionTypes (default [] (conditionsOf (controllers.session m')))
      = ["PolicyValidated"].
Proof.
  destruct (status.UpdateCondition examples.quiet
              {| controllers.session := examples.alpha; controllers.written := None |}
              "PolicyValidated" "True" "PolicyValidated" "ok") as [m' [err|]] eqn:Hcall;
    [vm_compute in Hcall; discriminate|].
  exists m'. split; [reflexivity|].
  apply (UpdateCondition_keeps_types_distinct examples.quiet _ m' _ _ _ _ Hcall).
  vm_compute. by intros ?%elem_of_nil.
Defined.

Lemma condition_then_phase env m m' t cs reason message phase reason' message' :
  status.thenDo (status.UpdateCondition env m t cs reason message)
    (λ m1, status.UpdatePhase env m1 phase reason' message') = (m', None) →
  recorded (controllers.session m) (controllers.session m') phase [(t, cs)].
Proof.
  unfold status.thenDo.
  destruct (status.UpdateCondition env m _ _ _ _) as [m1 [e1|]] eqn:H1; [done|].
  intros H2.
  apply UpdateCondition_success in H1 as (_ & G1 & _ & _ & x1 & Hh1 & He1).
  apply UpdatePhase_success in H2 as (_ & P2 & O2 & x2 & Hh2 & He2).
  split_and!; [done| |].
  - constructor; [|constructor]. eexists. rewrite O2. by split.
  - exists [x1; x2]. split; [|simpl; by rewrite He1, He2].
    rewrite Hh2, Hh1. simpl. by rewrite <- !app_assoc.
Qed.

(** X23.  The transitions of the status updater, when they return no
    error: the transition to Running leaves the phase Running, the
    conditions PolicyValidated and WorkloadCreated with status True, and
    three more history entries, for the two conditions and then for the
    phase; the transition to Completed leaves the phase Completed and the
    condition ArtifactsStored with status True; the transition to Failed
    leaves the phase Failed and, with status False, the condition
    PolicyValidated when the reason is PolicyViolation and the condition
    WorkloadRunning for every other reason. *)
Theorem transitions_record env m m' :
  (∀ workloadID,
     status.TransitionToRunning env m workloadID = (m', None) →
     recorded (controllers.session m) (controllers.session m') "Running"
       [("PolicyValidated", "True"); ("WorkloadCreated", "True")])
  ∧ (∀ artifacts,
       status.TransitionToCompleted env m artifacts = (m', None) →
       recorded (controllers.session m) (controllers.session m') "Completed"
         [("ArtifactsStored", "True")])
  ∧ (∀ reason message,
       status.TransitionToFailed env m reason message = (m', None) →
       recorded (controllers.session m) (controllers.session m') "Failed"
         [(if decide (reason = "PolicyViolation")
           then "PolicyValidated" else "WorkloadRunning", "False")]).
Proof.
  split_and!.
  - intros workloadID. unfold status.TransitionToRunning, status.thenDo.
    destruct (status.UpdateCondition env m _ _ _ _) as [m1 [e1|]] eqn:H1; [done|].
    destruct (status.UpdateCondition env m1 _ _ _ _) as [m2 [e2|]] eqn:H2; [done|].
    intros H3.
    apply UpdateCondition_success in H1 as (_ & G1 & _ & _ & x1 & Hh1 & He1).
    apply UpdateCondition_success in H2 as (_ & G2 & O2 & _ & x2 & Hh2 & He2).
    apply UpdatePhase_success in H3 as (_ & P3 & O3 & x3 & Hh3 & He3).
    split_and!; [done| |].
    + constructor; [|constructor; [|constructor]]; eexists; simpl.
      * rewrite O3, O2 by done. by split.
      * rewrite O3. by split.
    + exists [x1; x2; x3]. split; [|simpl; by rewrite He1, He2, He3].
      rewrite Hh3, Hh2, Hh1. simpl. by rewrite <- !app_assoc.
  - intros artifacts. apply condition_then_phase.
  - intros reason message. unfold status.TransitionToFailed.
    case_decide; [apply condition_then_phase|].
    case_decide; apply condition_then_phase.
Qed.

Lemma transitions_record_witness :
  ∃ m',
    status.TransitionToRunning examples.quiet
      {| controllers.session := examples.alpha; controllers.written := None |}
      "session-1-runner" = (m', None)
    ∧ recorded examples.alpha (controllers.session m') "Running"
        [("PolicyValidated", "True"); ("WorkloadCreated", "True")].
Proof.
  destruct (status.TransitionToRunning examples.quiet
              {| controllers.session := examples.alpha; controllers.written := None |}
              "session-1-runner") as [m' [err|]] eqn:Hcall;
    [vm_compute in Hcall; discriminate|].
  exists m'. split; [reflexivity|].
  apply (proj1 (transitions_record examples.quiet
                  {| controllers.session := examples.alpha;
                     controllers.written := None |} m') _ Hcall).
Defined.

(** X24.  The status updater keeps the history append-only: whatever
    [UpdatePhase] and [UpdateCondition] send to the API server has the
    history of the session they were given with exactly one entry added
    at the end, and the validator admits it as an update of that
    session. *)
Theorem status_writes_are_admitted env client Marshal m w :
  controllers.written m = None →
  (∃ phase reason message,
     controllers.written (status.UpdatePhase env m phase reason message).1 = Some w)
  ∨ (∃ t cs reason message,
       controllers.written (status.UpdateCondition env m t cs reason message).1
       = Some w) →
  (∃ entry,
     historyOf w
     = Some (default [] (historyOf (controllers.session m)) ++ [entry])%list)
  ∧ webhooks.Handle client Marshal (examples.update (controllers.session m) w)
    = webhooks.Allowed.
Proof.
  intros Hnone Hw.
  assert (∃ entry,
            historyOf w
            = Some (default [] (historyOf (controllers.session m)) ++ [entry])%list)
    as Ha.
  { destruct Hw as [(phase & reason & message & Hw)|(t & cs & reason & message & Hw)].
    - destruct (status.UpdatePhase env m phase reason message)
        as [m' [err|]] eqn:Hcall.
      + destruct (statusMap (controllers.session m)) as [st|] eqn:Hst.
        * pose proof (UpdatePhase_status env m st phase reason message Hst) as H.
          rewrite Hcall in H. destruct H as [H _]. simpl in Hw. congruence.
        * rewrite (UpdatePhase_no_status env m phase reason message Hst) in Hcall.
          injection Hcall as <- _. simpl in Hw. congruence.
      + apply UpdatePhase_success in Hcall as (Hw' & _ & _ & entry & Hh & _).
        simpl in Hw. rewrite Hw' in Hw. injection Hw as <-. by exists entry.
    - destruct (status.UpdateCondition env m t cs reason message)
        as [m' [err|]] eqn:Hcall.
      + destruct (statusMap (controllers.session m)) as [st|] eqn:Hst.
        * pose proof (UpdateCondition_status env m st t cs reason message Hst) as H.
          rewrite Hcall in H. simpl in H, Hw. congruence.
        * exfalso. revert Hcall Hw.
          unfold statusMap in Hst. unfold status.UpdateCondition,
            unstructured.NestedSlice, unstructured.SetNestedSlice. simpl.
          destruct (controllers.session m !! "status") as [[]|]; try done;
            simpl; intros [= <- _]; simpl; congruence.
      + apply UpdateCondition_success in Hcall as (Hw' & _ & _ & _ & entry & Hh & _).
        simpl in Hw. rewrite Hw' in Hw. injection Hw as <-. by exists entry. }
  split; [done|].
  rewrite (Handle_update client Marshal (examples.update (controllers.session m) w)
             w (controllers.session m) eq_refl eq_refl eq_refl).
  rewrite (appended_admitted Marshal _ w); [done|by right].
Qed.

Lemma status_writes_are_admitted_witness :
  ∃ w,
    controllers.written
      (status.UpdatePhase examples.quiet
         {| controllers.session :=
              examples.withStatus "Pending" [examples.created] examples.alpha;
            controllers.written := None |}
         "Running" "WorkloadStarted" "started").1 = Some w
    ∧ (∃ entry, historyOf w = Some [examples.created; entry])
    ∧ webhooks.Handle examples.noPolicies json.Marshal
        (examples.update
           (examples.withStatus "Pending" [examples.created] examples.alpha) w)
      = webhooks.Allowed.
Proof.
  destruct (controllers.written
      (status.UpdatePhase examples.quiet
         {| controllers.session :=
              examples.withStatus "Pending" [examples.created] examples.alpha;
            controllers.written := None |}
         "Running" "WorkloadStarted" "started").1) as [w|] eqn:Hw;
    [|vm_compute in Hw; discriminate].
  exists w. split; [reflexivity|].
  apply (status_writes_are_admitted examples.quiet examples.noPolicies json.Marshal
           {| controllers.session :=
                examples.withStatus "Pending" [examples.created] examples.alpha;
              controllers.written := None |} w eq_refl).
  left. by exists "Running", "WorkloadStarted", "started".
Defined.

(** X25.  The status of the job of a session, when the client returns
    the job named after the session with the suffix -workload: the status
    is read from the conditions of the job in order.  It is Completed or
    Failed exactly when some condition of type Complete or Failed has the
    status True, and it is then given by the first such condition;
    otherwise it is Running when the job has active pods and Pending when
    it has none.  No error is returned. *)
Theorem GetWorkloadStatus_of_found_job get session st :
  get (GetNamespace session) (GetName session +:+ "-workload")
    = workload.JobFound st →
  let r := workload.GetWorkloadStatus get session in
  r.2 = None
  ∧ (r.1 = workload.WorkloadStatusCompleted ∨ r.1 = workload.WorkloadStatusFailed
     ↔ Exists finished (workload.Conditions st))
  ∧ (∀ before c after,
       workload.Conditions st = (before ++ c :: after)%list →
       Forall (λ x, ¬ finished x) before → finished c →
       r.1 = if decide (workload.Type_ c = "Complete")
             then workload.WorkloadStatusCompleted
             else workload.WorkloadStatusFailed)
  ∧ (¬ Exists finished (workload.Conditions st) →
     r.1 = if decide (0 < workload.Active st)
           then workload.WorkloadStatusRunning
           else workload.WorkloadStatusPending).
Proof.
  intros Hget.
  simpl. unfold workload.GetWorkloadStatus, workload.GetWorkloadForSession.
  rewrite Hget.
  assert (∀ l,
    match workload.fromConditions l with
    | Some s =>
        (s = workload.WorkloadStatusCompleted ∨ s = workload.WorkloadStatusFailed)
        ∧ Exists finished l
        ∧ ∀ before c after, l = (before ++ c :: after)%list →
            Forall (λ x, ¬ finished x) before → finished c →
            s = if decide (workload.Type_ c = "Complete")
                then workload.WorkloadStatusCompleted
                else workload.WorkloadStatusFailed
    | None => ¬ Exists finished l
    end) as Hloop.
  { induction l as [|x l IH]; simpl.
    - by intros H%Exists_nil.
    - assert (∀ s,
        finished x →
        s = (if decide (workload.Type_ x = "Complete")
             then workload.WorkloadStatusCompleted
             else workload.WorkloadStatusFailed) →
        (s = workload.WorkloadStatusCompleted ∨ s = workload.WorkloadStatusFailed)
        ∧ Exists finished (x :: l)
        ∧ ∀ before c after, x :: l = (before ++ c :: after)%list →
            Forall (λ y, ¬ finished y) before → finished c →
            s = if decide (workload.Type_ c = "Complete")
                then workload.WorkloadStatusCompleted
                else workload.WorkloadStatusFailed) as Hhere.
      { intros s Hx ->. split_and!.
        - case_decide; [by left|by right].
        - by apply Exists_cons_hd.
        - intros [|b before] c after Heq Hb Hc; simpl in Heq.
          + by injection Heq as <- _.
          + injection Heq as <- _. by inversion Hb. }
      assert (¬ finished x →
        match workload.fromConditions l with
        | Some s =>
            (s = workload.WorkloadStatusCompleted ∨ s = workload.WorkloadStatusFailed)
            ∧ Exists finished (x :: l)
            ∧ ∀ before c after, x :: l = (before ++ c :: after)%list →
                Forall (λ y, ¬ finished y) before → finished c →
                s = if decide (workload.Type_ c = "Complete")
                    then workload.WorkloadStatusCompleted
                    else workload.WorkloadStatusFailed
        | None => ¬ Exists finished (x :: l)
        end) as Hskip.
      { intros Hx. destruct (workload.fromConditions l) as [s|].
        - destruct IH as (Hs & Hex & Hfirst). split_and!; [done|by apply Exists_cons_tl|].
          intros [|b before] c after Heq Hb Hc; simpl in Heq.
          + injection Heq as <- _. done.
          + injection Heq as _ ->. inversion Hb; subst. by eapply Hfirst.
        - intros [?|?]%Exists_cons; done. }
      destruct (decide (workload.Type_ x = "Complete")) as [Hc|Hc].
      + destruct (decide (workload.Status x = "True")) as [Ht|Ht].
        * apply Hhere; [unfold finished; tauto|]. by rewrite ?decide_True.
        * apply Hskip. unfold finished. tauto.
      + destruct (decide (workload.Type_ x = "Failed")) as [Hf|Hf].
        * destruct (decide (workload.Status x = "True")) as [Ht|Ht].
          -- apply Hhere; [unfold finished; tauto|]. by rewrite ?decide_False.
          -- apply Hskip. unfold finished. tauto.
        * apply Hskip. unfold finished. tauto. }
  specialize (Hloop (workload.Conditions st)).
  destruct (workload.fromConditions (workload.Conditions st)) as [s|]; simpl.
  - destruct Hloop as (Hs & Hex & Hfirst). split_and!; [done|tauto|done|done].
  - assert (∀ before c after,
              workload.Conditions st = (before ++ c :: after)%list →
              finished c → False) as Hnone.
    { intros before c after Heq Hc. destruct Hloop. rewrite Heq.
      apply Exists_app. right. by apply Exists_cons_hd. }
    destruct (decide (0 < workload.Active st)%Z); simpl;
      (split_and!; [done| | |done]).
    + split; [|done]. intros [?|?]; done.
    + intros before c after Heq _ Hc. by destruct (Hnone before c after).
    + split; [|done]. intros [?|?]; done.
    + intros before c after Heq _ Hc. by destruct (Hnone before c after).
Qed.

Lemma GetWorkloadStatus_of_found_job_witness :
  (workload.GetWorkloadStatus cases.jobs examples.alpha).2 = None
  ∧ (workload.GetWorkloadStatus cases.jobs examples.alpha).1
    = workload.WorkloadStatusFailed.
Proof.
  destruct (GetWorkloadStatus_of_found_job cases.jobs examples.alpha
              cases.retried eq_refl) as (Hnone & _ & Hfirst & _).
  split; [exact Hnone|].
  apply (Hfirst [ {| workload.Type_ := "Complete"; workload.Status := "False" |} ]
           {| workload.Type_ := "Failed"; workload.Status := "True" |}
           [ {| workload.Type_ := "Complete"; workload.Status := "True" |} ]);
    [reflexivity | | by split; [right|]].
  constructor; [|constructor]. by intros [_ [=]].
Defined.

Lemma getStrings_elem s l :
  s ∈ PolicyConfig.getStrings l ↔ VStr s ∈ l.
Proof.
  induction l as [|x l IH]; simpl.
  - split; intros H; by apply elem_of_nil in H.
  - destruct x as [| | | |s0| |]; rewrite ?(elem_of_cons (PolicyConfig.getStrings l)),
      (elem_of_cons l), IH.
    5: { split; intros [?|?]; [left; congruence|by right|left; congruence|by right]. }
    all: split; [by right | intros [?|?]; [discriminate | done]].
Qed.

Lemma firstConflict_None allowed blocked :
  PolicyConfig.firstConflict allowed blocked = None
  ↔ ∀ a, a ∈ allowed → a ∉ blocked.
Proof.
  induction allowed as [|a allowed IH]; simpl.
  - split; [|done]. intros _ a Ha. by apply elem_of_nil in Ha.
  - case_bool_decide as Hin.
    + split; [done|]. intros H. destruct (H a (list_elem_of_here _ _) Hin).
    + rewrite IH. split.
      * intros H x [->|Hx]%elem_of_cons; auto.
      * intros H x Hx. apply H. by apply list_elem_of_further.
Qed.

Lemma firstConflict_Some allowed blocked a :
  PolicyConfig.firstConflict allowed blocked = Some a → a ∈ allowed ∧ a ∈ blocked.
Proof.
  induction allowed as [|x allowed IH]; simpl; [done|].
  case_bool_decide as Hin.
  - intros [= <-]. split; [apply list_elem_of_here|done].
  - intros [? ?]%IH. split; [by apply list_elem_of_further|done].
Qed.

Lemma getStringSlice_conflict m :
  match PolicyConfig.firstConflict (PolicyConfig.getStringSlice m "allowed")
          (PolicyConfig.getStringSlice m "blocked") with
  | Some a =>
      VStr a ∈ default [] (asList (m !! "allowed"))
      ∧ VStr a ∈ default [] (asList (m !! "blocked"))
  | None =>
      ∀ s, VStr s ∈ default [] (asList (m !! "allowed")) →
           VStr s ∉ default [] (asList (m !! "blocked"))
  end.
Proof.
  unfold PolicyConfig.getStringSlice.
  assert (∀ key, match asList (m !! key) with
                 | Some items => PolicyConfig.getStrings items
                 | None => []
                 end = PolicyConfig.getStrings (default [] (asList (m !! key))))
    as Hkey by (intros key; by destruct (asList _)).
  rewrite !Hkey.
  destruct (PolicyConfig.firstConflict _ _) as [a|] eqn:Hc.
  - apply firstConflict_Some in Hc as [Ha Hb]. by apply getStrings_elem in Ha, Hb.
  - rewrite firstConflict_None in Hc. intros s Ha Hb.
    apply getStrings_elem in Ha, Hb. by destruct (Hc s Ha).
Qed.

(** X26.  The checks of the policy reconciler on the models and the
    tools section of a policy: a section is accepted exactly when no
    string of its allowed list is a string of its blocked list and, for
    the models, the monthly budget, when it is a string, is not empty;
    entries that are not strings are ignored.  The name given by the
    error is in both lists. *)
Theorem validateModelsConfig_accepts section :
  let disjoint :=
    ∀ s, VStr s ∈ default [] (asList (section !! "allowed")) →
         VStr s ∉ default [] (asList (section !! "blocked")) in
  (PolicyConfig.validateModelsConfig section = None
   ↔ disjoint ∧ stringAt ["budget"; "monthly"] section ≠ Some "")
  ∧ (PolicyConfig.validateToolsConfig section = None ↔ disjoint)
  ∧ (∀ s, PolicyConfig.validateModelsConfig section
            = Some (PolicyConfig.BothAllowedAndBlocked s)
          ∨ PolicyConfig.validateToolsConfig section
            = Some (PolicyConfig.BothAllowedAndBlocked s) →
          VStr s ∈ default [] (asList (section !! "allowed"))
          ∧ VStr s ∈ default [] (asList (section !! "blocked"))).
Proof.
  simpl. unfold PolicyConfig.validateModelsConfig, PolicyConfig.validateToolsConfig.
  pose proof (getStringSlice_conflict section) as Hc.
  destruct (PolicyConfig.firstConflict _ _) as [a|].
  - destruct Hc as [Ha Hb]. split_and!.
    + split; [done|]. intros [H _]. by destruct (H a Ha).
    + split; [done|]. intros H. by destruct (H a Ha).
    + by intros s [[= <-]|[= <-]].
  - split_and!.
    + simpl. destruct (asMap (section !! "budget")) as [budget|]; [|by split].
      destruct (asString (budget !! "monthly")) as [monthly|]; [|by split].
      case_decide; subst; split; try done; try by intros [_ ?].
      intros _. split; [done|congruence].
    + by split.
    + intros s [H|H]; [|done]. revert H. simpl.
      destruct (asMap (section !! "budget")) as [budget|]; [|done].
      destruct (asString (budget !! "monthly")) as [monthly|]; [|done].
      by case_decide.
Qed.

Lemma noneInBlocked_Failed mk req bl e :
  webhooks.noneInBlocked mk req bl = Failed e →
  ∃ s, e = mk s ∧ VStr s ∈ req ∧ VStr s ∈ bl.
Proof.
  induction req as [|x req IH]; simpl; [done|].
  destruct (matchesAny x bl) as [[]|] eqn:Hm; try done.
  - destruct x; try done. intros [= <-]. eexists. split; [done|].
    split; [apply list_elem_of_here | by apply matchesAny_true].
  - intros (s & -> & Hin & Hbl)%IH. exists s.
    split; [done|]. split; [by apply list_elem_of_further|done].
Qed.

(** X27.  Under a policy whose models section the policy reconciler
    accepts and which has a list of allowed models, the validator never
    refuses a session for a blocked model: a requested model that passed
    the allowed list is not in the blocked list. *)
Theorem consistent_policy_never_blocks sessionSpec policySpec models allowed model :
  asMap (policySpec !! "models") = Some models →
  asList (models !! "allowed") = Some allowed →
  PolicyConfig.validateModelsConfig models = None →
  webhooks.validateModelConstraints sessionSpec policySpec
  ≠ Failed (webhooks.ModelBlocked model).
Proof.
  intros Hm Hal Hok.
  assert (∀ s, VStr s ∈ allowed →
               VStr s ∉ default [] (asList (models !! "blocked"))) as Hdisj.
  { pose proof (getStringSlice_conflict models) as Hc.
    unfold PolicyConfig.validateModelsConfig in Hok.
    destruct (PolicyConfig.firstConflict _ _); [done|].
    by rewrite Hal in Hc. }
  unfold webhooks.validateModelConstraints.
  destruct (asMap (sessionSpec !! "policy")) as [sp|]; [|done].
  destruct (asMap (sp !! "modelConstraints")) as [mc|]; [|done].
  destruct (asList (mc !! "allowed")) as [req|]; [|done].
  rewrite Hm, Hal.
  destruct (webhooks.allInAllowed webhooks.ModelNotAllowed req allowed)
    as [|e|] eqn:Ha; simpl; [| |done].
  - destruct (asList (models !! "blocked")) as [bl|]; simpl in *; [|done].
    intros (s & _ & Hreq & Hbl)%noneInBlocked_Failed.
    by destruct (Hdisj s (allInAllowed_Nil _ _ _ Ha _ Hreq)).
  - intros [= ->]. revert Ha. clear. induction req as [|x req IH]; simpl; [done|].
    destruct (matchesAny x allowed) as [[]|]; [auto| |done].
    by destruct x.
Qed.

Lemma consistent_policy_never_blocks_witness :
  webhooks.validateModelConstraints (mapOrNil (examples.alpha !! "spec"))
    (mapOrNil (examples.alphaPolicy !! "spec"))
  ≠ Failed (webhooks.ModelBlocked "claude-3-sonnet")
  ∧ PolicyConfig.validateModelsConfig cases.conflicting
    = Some (PolicyConfig.BothAllowedAndBlocked "claude-3-opus").
Proof.
  split; [|vm_compute; reflexivity].
  eapply (consistent_policy_never_blocks (mapOrNil (examples.alpha !! "spec"))
            (mapOrNil (examples.alphaPolicy !! "spec")));
    vm_compute; reflexivity.
Defined.

(** X28.  A request of the backend without a list of allowed models
    and without a list of allowed tools creates a session without
    [spec.policy]: its budget, its blocked tools and its approval
    requirement are not submitted. *)
Theorem CreateSession_drops_policy admission t st st' spec namespace created :
  services.ModelAllowed (services.Policy spec) = None →
  services.ToolAllowed (services.Policy spec) = None →
  services.CreateSession admission t st spec namespace = (st', inr created) →
  mapOrNil (created !! "spec") !! "policy" = None
  ∧ st' !! (namespace, services.generateSessionID t) = Some created.
Proof.
  intros Hm Ht. unfold services.CreateSession, services.Create.
  rewrite GetName_sessionObject.
  destruct (admission _); [done|]. destruct (st !! _); [done|].
  intros [= <- <-]. split; [|by rewrite lookup_insert_eq].
  unfold services.sessionObject. rewrite Hm, Ht.
  rewrite bool_decide_eq_false_2 by (by intros [?|?]).
  by simplify_map_eq.
Qed.

Lemma CreateSession_drops_policy_witness :
  ∃ st' created,
    services.CreateSession examples.admitAll examples.t0 ∅ cases.guarded
      "team-alpha" = (st', inr created)
    ∧ mapOrNil (created !! "spec") !! "policy" = None.
Proof.
  destruct (services.CreateSession examples.admitAll examples.t0 ∅ cases.guarded
              "team-alpha") as [st' [err|created]] eqn:Hcall;
    [vm_compute in Hcall; discriminate|].
  exists st', created. split; [reflexivity|].
  apply (CreateSession_drops_policy examples.admitAll examples.t0 ∅ st'
           cases.guarded "team-alpha" created eq_refl eq_refl Hcall).
Defined.

Lemma availableFrameworks_lookup t :
  default false (webhooks.availableFrameworks !! t) = true
  ↔ t = "claude-code" ∨ t = "custom-python" ∨ t = "bash-runner".
Proof.
  unfold webhooks.availableFrameworks.
  destruct (decide (t = "claude-code")) as [->|H1]; [by split; [left|]|].
  rewrite lookup_insert_ne by done.
  destruct (decide (t = "custom-python")) as [->|H2]; [by split; [right; left|]|].
  rewrite lookup_insert_ne by done.
  destruct (decide (t = "bash-runner")) as [->|H3]; [by split; [right; right|]|].
  rewrite lookup_singleton_ne by done. simpl. split; [done|tauto].
Qed.

Lemma GetNamespace_sessionObject sessionID namespace spec :
  GetNamespace (services.sessionObject sessionID namespace spec) = namespace.
Proof. unfold services.sessionObject, GetNamespace, metaString. by simplify_map_eq. Qed.

Lemma validateFrameworkType_sessionObject sessionID namespace spec :
  webhooks.validateFrameworkType (services.sessionObject sessionID namespace spec)
  = if default false (webhooks.availableFrameworks
                        !! services.Type_ (services.Framework spec))
    then Nil
    else Failed (webhooks.UnsupportedFrameworkType
                   (services.Type_ (services.Framework spec))).
Proof.
  unfold webhooks.validateFrameworkType, services.sessionObject.
  rewrite lookup_insert_ne by done. rewrite lookup_insert_ne by done.
  rewrite lookup_insert_ne by done. rewrite lookup_singleton_eq. simpl.
  assert (∀ base : object,
            base !! "framework" = Some (services.frameworkJSON (services.Framework spec)) →
            asMap ((if bool_decide (services.ModelAllowed (services.Policy spec) ≠ None
                                    ∨ services.ToolAllowed (services.Policy spec) ≠ None)
                    then <["policy" := services.policyJSON (services.Policy spec)]> base
                    else base) !! "framework")
            = asMap (Some (services.frameworkJSON (services.Framework spec)))) as Hbase.
  { intros base Hb. case_bool_decide; [|by rewrite Hb].
    rewrite lookup_insert_ne by done. by rewrite Hb. }
  rewrite Hbase by (by simplify_map_eq).
  unfold services.frameworkJSON. simpl.
  by destruct (services.isEmptyMap _); simplify_map_eq.
Qed.

(** X29.  The backend in front of the validator, in a namespace
    without policy.  The validator admits the object that
    [CreateSession] submits exactly when the namespace is not empty and
    the framework type of the request is claude-code, custom-python or
    bash-runner.  So whenever [CreateSession] has created a session,
    these two conditions held and no session of the generated name was
    in the namespace before; and of the framework types that the
    workload creator supports, claude-code and generic, only claude-code
    can have been created. *)
Theorem CreateSession_behind_validator client Marshal t st spec namespace :
  client namespace "policy" = NotFound →
  let frameworkType := services.Type_ (services.Framework spec) in
  let available :=
    frameworkType = "claude-code" ∨ frameworkType = "custom-python"
    ∨ frameworkType = "bash-runner" in
  (∀ sessionID,
     validatorAdmission client Marshal
       (services.sessionObject sessionID namespace spec) = None
     ↔ namespace ≠ "" ∧ available)
  ∧ (∀ st' obj,
       services.CreateSession (validatorAdmission client Marshal) t st spec namespace
       = (st', inr obj) →
       st !! (namespace, services.generateSessionID t) = None
       ∧ namespace ≠ ""
       ∧ available
       ∧ (workload.IsValidFrameworkType frameworkType = true →
          frameworkType = "claude-code")).
Proof.
  intros Hpol. simpl.
  assert (∀ sessionID,
            validatorAdmission client Marshal
              (services.sessionObject sessionID namespace spec) = None
            ↔ namespace ≠ ""
              ∧ (services.Type_ (services.Framework spec) = "claude-code"
                 ∨ services.Type_ (services.Framework spec) = "custom-python"
                 ∨ services.Type_ (services.Framework spec) = "bash-runner"))
    as Hiff.
  { intros sessionID. unfold validatorAdmission.
    match goal with |- context [webhooks.Handle client Marshal (examples.create ?o)] =>
      rewrite (Handle_create client Marshal (examples.create o) o eq_refl eq_refl);
      pose proof (validateCreate_Allowed client o) as Hv;
      destruct (webhooks.validateCreate client o) eqn:Hc end.
    all: rewrite validateFrameworkType_sessionObject in Hv.
    all: unfold webhooks.validateAgainstNamespacePolicy in Hv.
    all: rewrite GetNamespace_sessionObject, Hpol in Hv.
    all: rewrite <- availableFrameworks_lookup.
    - split; [intros _|done]. destruct Hv as [Hv _].
      destruct (Hv eq_refl) as [Hft Hns].
      case_decide; [done|]. split; [done|].
      by destruct (default false _).
    - split; [done|]. intros (Hns & Hft).
      destruct Hv as [_ Hv]. rewrite Hft in Hv. rewrite decide_False in Hv by done.
      by specialize (Hv (conj eq_refl eq_refl)).
    - split; [done|]. intros (Hns & Hft).
      destruct Hv as [_ Hv]. rewrite Hft in Hv. rewrite decide_False in Hv by done.
      by specialize (Hv (conj eq_refl eq_refl)).
    - split; [done|]. intros (Hns & Hft).
      destruct Hv as [_ Hv]. rewrite Hft in Hv. rewrite decide_False in Hv by done.
      by specialize (Hv (conj eq_refl eq_refl)). }
  split; [exact Hiff|].
  intros st' obj. unfold services.CreateSession, services.Create.
  rewrite GetName_sessionObject.
  destruct (validatorAdmission client Marshal _) eqn:Hadm; [done|].
  apply Hiff in Hadm as [Hns Hft].
  destruct (st !! _) as [existing|]; [done|]. intros _.
  split_and!; [done..|].
  intros Hvalid.
  unfold workload.IsValidFrameworkType in Hvalid.
  apply bool_decide_eq_true in Hvalid.
  unfold workload.FrameworkClaudeCode, workload.FrameworkGeneric in Hvalid.
  destruct Hft as [?|[Hft|Hft]], Hvalid as [?|Hg]; try done;
    rewrite Hft in Hg; discriminate.
Qed.

Lemma CreateSession_behind_validator_witness :
  ∃ st' obj,
    services.CreateSession (validatorAdmission examples.noPolicies json.Marshal)
      examples.t0 ∅ examples.manual "team-alpha" = (st', inr obj)
    ∧ services.Type_ (services.Framework examples.manual) = "claude-code".
Proof.
  destruct (services.CreateSession
              (validatorAdmission examples.noPolicies json.Marshal)
              examples.t0 ∅ examples.manual "team-alpha")
    as [st' [err|obj]] eqn:Hcall; [vm_compute in Hcall; discriminate|].
  exists st', obj. split; [reflexivity|].
  destruct (proj2 (CreateSession_behind_validator examples.noPolicies json.Marshal
                     examples.t0 ∅ examples.manual "team-alpha" eq_refl)
              st' obj Hcall) as (_ & _ & _ & Hft).
  apply Hft. reflexivity.
Defined.

(** X30.  The error replies of the webhook handler: every reply that
    is not the acceptance is one of six, by status, error and message;
    the replies namespace_resolution_failed and policy_violation with the
    text of the policy error are never sent.  A session is created only
    with the reply 202, which names the namespace the session was created
    in. *)
Theorem handleWebhook_replies env req source :
  let r := handlers.handleWebhook env req source in
  match handlers.payload r.1 with
  | handlers.Rejected e =>
      (handlers.code r.1, handlers.Error e, handlers.Message e) ∈ errorReplies
      ∧ handlers.TraceID e = handlers.traceID env
      ∧ r.2 = None
  | handlers.Accepted w =>
      handlers.code r.1 = 202
      ∧ handlers.resolveNamespace (handlers.apiKeyHeader req)
        = inl (handlers.Namespace w)
      ∧ ∀ ns s, r.2 = Some (ns, s) → ns = handlers.Namespace w
  end.
Proof.
  simpl. unfold handlers.handleWebhook, errorReplies.
  case_decide as Hkey; simpl; [split_and!; [|done..]; set_solver|].
  destruct (handlers.resolveNamespace (handlers.apiKeyHeader req))
    as [ns|err] eqn:Hns.
  2: { unfold handlers.resolveNamespace in Hns.
       destruct (handlers.keyToNamespace !! _); [done|]. injection Hns as <-.
       rewrite decide_True by done. simpl. split_and!; [|done..]. set_solver. }
  destruct (handlers.jsonBody req) as [payload|]; simpl;
    [|split_and!; [|done..]; set_solver].
  unfold handlers.validateNamespacePolicy.
  case_decide; [rewrite decide_True by done; simpl; split_and!; [|done..]; set_solver|].
  case_decide; [rewrite decide_False by done; rewrite decide_True by done; simpl;
                split_and!; [|done..]; set_solver|].
  destruct (handlers.dynamicClient env) as [create|]; simpl; [|by split_and!].
  destruct (create ns _); simpl; [|split_and!; [|done..]; set_solver].
  split_and!; [done..|]. by intros ?? [= <- _].
Qed.
